(** * The edge poll service of the agent (package [edge], file [edge/poll.go])

    A shallow embedding of [PollService]: the status-poll iteration [poll],
    tunnel creation, the activity-monitoring tick and the start/stop/restart
    life cycle, together with the properties the design document states
    about them.

    The service mutates its own fields and calls five collaborators, so the
    code is embedded in a state monad over a [World] that holds the service
    record, the Go runtime pieces the code touches (clock, channels,
    goroutines) and the chronological trace of the calls it makes. *)

From Stdlib Require Import ZArith Floats Uint63 Lia.
From Stdlib.Strings Require Import Ascii String Byte.
From stdpp Require Import base gmap strings list pretty.

(** ** The parts of Go that [poll.go] relies on *)

Module Go.
Local Open Scope Z_scope.

(** A Go [error]; the nil error is [None] of [option error]. *)
Definition error : Type := string.

(** A Go result pair [(value, err)] in which exactly one side is meaningful. *)
Inductive result (A : Type) : Type :=
| Ok (a : A)
| Err (e : error).
Arguments Ok {A} a.
Arguments Err {A} e.

Definition int64_min : Z := - 2 ^ 63.
Definition int64_max : Z := 2 ^ 63 - 1.

(** Two's-complement wrap-around of [int64] arithmetic. *)
Definition wrap64 (z : Z) : Z := (z + 2 ^ 63) mod 2 ^ 64 - 2 ^ 63.

(** [float64] is IEEE 754 binary64, as the kernel's primitive floats are. *)
Definition float64 : Set := float.

(** [float64(z)] for an integer of magnitude below 2^63. *)
Definition float64_of_int (z : Z) : float64 :=
  if z <? 0 then PrimFloat.opp (PrimFloat.of_uint63 (Uint63.of_Z (- z)))
  else PrimFloat.of_uint63 (Uint63.of_Z z).

(** [int64(f)]: the fraction is discarded.  A value that does not fit
    (NaN, an infinity, a magnitude of 2^63 or more) has an
    implementation-defined result in Go; amd64 yields the least int64. *)
Definition int64_of_float64 (f : float64) : Z :=
  match Prim2SF f with
  | S754_zero _ => 0
  | S754_finite s m e =>
      let a := if 0 <=? e then Z.shiftl (Z.pos m) e
               else Z.shiftr (Z.pos m) (- e) in
      let v := if s then - a else a in
      if (int64_min <=? v) && (v <=? int64_max) then v else int64_min
  | S754_infinity _ => int64_min
  | S754_nan => int64_min
  end.

(** [time.Duration]: an [int64] count of nanoseconds. *)
Definition Duration : Type := Z.
Definition Second : Duration := 1000000000.

(** [time.Duration(f)] for a [float64] [f]. *)
Definition Duration_of_float64 (f : float64) : Duration := int64_of_float64 f.

(** [a * b] on durations. *)
Definition Duration_mul (a b : Duration) : Duration := wrap64 (a * b).

(** [d.Seconds()]: whole seconds plus the remaining nanoseconds over 1e9,
    both in [float64]. *)
Definition Seconds (d : Duration) : float64 :=
  (float64_of_int (Z.quot d Second) + float64_of_int (Z.rem d Second) / 1e9)%float.

(** [time.Time] as nanoseconds since the zero instant; the zero value of
    the type is that instant. *)
Definition Time : Type := Z.
Definition zeroTime : Time := 0.
Definition IsZero (t : Time) : bool := t =? 0.

(** [t.Sub(u)]: the difference, saturated to the [int64] range. *)
Definition Sub (t u : Time) : Duration :=
  Z.max int64_min (Z.min int64_max (t - u)).

(** The numeric conversions are kept folded in proofs. *)
Arguments wrap64 : simpl never.
Arguments float64_of_int : simpl never.
Arguments int64_of_float64 : simpl never.
Arguments Duration_of_float64 : simpl never.
Arguments Duration_mul : simpl never.
Arguments Seconds : simpl never.
Arguments Sub : simpl never.

(** A channel value, named by its number in order of creation; [nil] is
    [None] of [option chan]. *)
Abbreviation chan := nat (only parsing).
End Go.

Export Go.

(** ** Package [http/handler/browse]: the delete handlers *)

Module Browse.
Local Open Scope Z_scope.

(** The status codes of [net/http] that the handlers use. *)
Definition StatusNoContent : Z := 204.
Definition StatusBadRequest : Z := 400.
Definition StatusInternalServerError : Z := 500.
Definition StatusServiceUnavailable : Z := 503.

(** [httperror.HandlerError]. *)
Record HandlerError : Type := {
  StatusCode : Z;
  Message : string;
  Err : error
}.

(** What the handlers reach outside their file: the request helpers of
    libhttp, the [filesystem] package and [agent.ErrFeatureDisabled].  A Go
    function of result [(string, error)] returns both components. *)
Class Platform : Type := {
  Request : Type;
  FileSystem : Type;
  RetrieveQueryParameter : Request -> string -> bool -> string * option error;
  RetrieveRouteVariableValue : Request -> string -> string * option error;
  BuildPathToFileInsideVolume : string -> string -> string * option error;
  RemoveFile : string -> FileSystem -> option error * FileSystem;
  ErrFeatureDisabled : error
}.

Section Handlers.
Context {platform : Platform}.

(** What a handler acts on: the file system, with the paths that were handed
    to [RemoveFile], and the status codes written to the response writer. *)
Record World : Type := {
  files : FileSystem;
  removals : list string;
  written : list Z
}.

Definition filesystem_RemoveFile (path : string) (w : World) : option error * World :=
  let r := RemoveFile path (files w) in
  (r.1, {| files := r.2; removals := removals w ++ [path]; written := written w |}).

(** [response.Empty(rw)]: the status 204 and no error. *)
Definition response_Empty (w : World) : option HandlerError * World :=
  (None, {| files := files w; removals := removals w;
            written := written w ++ [StatusNoContent] |}).

(** Lines 31-36 and 51-56: the removal and the answer, the same in both
    handlers. *)
Definition remove_and_answer (path : string) (w : World) : option HandlerError * World :=
  let r := filesystem_RemoveFile path w in
  match r.1 with
  | Some err =>
      (Some {| StatusCode := StatusInternalServerError;
               Message := "Unable to remove file"; Err := err |}, r.2)
  | None => response_Empty r.2
  end.

(** [browseDelete], with the field [handler.AgentOptions.HostManagementEnabled]
    as an argument. *)
Definition browseDelete (HostManagementEnabled : bool) (r : Request) (w : World)
    : option HandlerError * World :=
  let query := RetrieveQueryParameter r "path" false in
  match query.2 with
  | Some err =>
      (Some {| StatusCode := StatusBadRequest;
               Message := "Invalid query parameter: path"; Err := err |}, w)
  | None =>
      let path := query.1 in
      let volumeID := (RetrieveQueryParameter r "volumeID" true).1 in
      if negb (String.eqb volumeID EmptyString) then
        let built := BuildPathToFileInsideVolume volumeID path in
        match built.2 with
        | Some err =>
            (Some {| StatusCode := StatusBadRequest;
                     Message := "Invalid volume"; Err := err |}, w)
        | None => remove_and_answer built.1 w
        end
      else if negb HostManagementEnabled then
        (Some {| StatusCode := StatusServiceUnavailable;
                 Message := "Host management capability disabled";
                 Err := ErrFeatureDisabled |}, w)
      else remove_and_answer path w
  end.

(** [browseDeleteV1]: the error of the lookup of [path] is overwritten by
    the next assignment before it is ever read (lines 45-46). *)
Definition browseDeleteV1 (r : Request) (w : World) : option HandlerError * World :=
  let route := RetrieveRouteVariableValue r "id" in
  match route.2 with
  | Some err =>
      (Some {| StatusCode := StatusBadRequest;
               Message := "Invalid volume identifier route variable"; Err := err |}, w)
  | None =>
      let volumeID := route.1 in
      let path := (RetrieveQueryParameter r "path" false).1 in
      let built := BuildPathToFileInsideVolume volumeID path in
      match built.2 with
      | Some err =>
          (Some {| StatusCode := StatusBadRequest;
                   Message := "Invalid query parameter: path"; Err := err |}, w)
      | None => remove_and_answer built.1 w
      end
  end.

(** A handler answers by the removal: either it stopped at a check, with an
    error other than 500 and the world untouched, or it handed one path to
    [RemoveFile] and returned nil after writing 204 when that succeeded, the
    status 500 with the error when it failed. *)
Definition answers_by_removal (w : World) (out : option HandlerError * World) : Prop :=
  (out.2 = w
   /\ exists e, out.1 = Some e /\ StatusCode e <> StatusInternalServerError)
  \/ (exists path,
        removals out.2 = removals w ++ [path]
        /\ files out.2 = (RemoveFile path (files w)).2
        /\ match (RemoveFile path (files w)).1 with
           | None => out.1 = None /\ written out.2 = written w ++ [StatusNoContent]
           | Some err =>
               out.1 = Some {| StatusCode := StatusInternalServerError;
                               Message := "Unable to remove file"; Err := err |}
               /\ written out.2 = written w
           end).

End Handlers.

(** A platform to run the handlers on: a request is its route variables and
    its query parameters, the file system is the set of its paths, a volume
    [v] lives under ["/volumes/v"], and a path with [".."] in it is refused. *)
Record SimpleRequest : Type := {
  route : list (string * string);
  query : list (string * string)
}.

Definition lookup_parameter (key : string) (l : list (string * string)) : option string :=
  snd <$> List.find (fun kv => String.eqb kv.1 key) l.

Fixpoint has_dotdot (s : string) : bool :=
  match s with
  | String "." (String "." _) => true
  | String _ rest => has_dotdot rest
  | EmptyString => false
  end.

#[export] Instance simple : Platform := {|
  Request := SimpleRequest;
  FileSystem := list string;
  RetrieveQueryParameter r name optional :=
    match lookup_parameter name (query r) with
    | Some v => (v, None)
    | None => (EmptyString,
               if optional then None else Some "Invalid query parameter"%string)
    end;
  RetrieveRouteVariableValue r name :=
    match lookup_parameter name (route r) with
    | Some v => (v, None)
    | None => (EmptyString, Some "route variable not found"%string)
    end;
  BuildPathToFileInsideVolume volumeID path :=
    if has_dotdot path then (EmptyString, Some "Invalid path"%string)
    else (("/volumes/" ++ volumeID ++ "/" ++ path)%string, None);
  RemoveFile path fs :=
    if bool_decide (path ∈ fs)
    then (None, filter (fun p => p <> path) fs)
    else (Some "no such file or directory"%string, fs);
  ErrFeatureDisabled := "This feature is disabled"%string
|}.

(** A request for volume [data] that has lost its [path] parameter, and a
    file system with the volume's directory and one file in it. *)
Definition request_without_path : SimpleRequest :=
  {| route := [("id", "data")]; query := [] |}.

Definition volume_data : World :=
  {| files := ["/volumes/data/"; "/volumes/data/a"]; removals := []; written := [] |}.

End Browse.

(** ** Package [edge] *)

Module Edge.
Local Open Scope Z_scope.

(** *** Data exchanged with the collaborators *)

(** [agent.Schedule]: the fields [poll] reads, and the rest as one blob. *)
Record Schedule : Type := {
  Schedule_ID : Z;
  Schedule_CollectLogs : bool;
  Schedule_Spec : string
}.

(** An entry of [EnvironmentStatus.Stacks]. *)
Record StackStatus : Type := {
  Stack_ID : Z;
  Stack_Version : Z
}.

(** [client.PollStatusResponse].  [Stacks] is a slice that may be nil
    ([None]), which differs from being present and empty ([Some []]). *)
Record EnvironmentStatus : Type := {
  Status : string;
  Port : Z;
  Schedules : list Schedule;
  CheckinInterval : float64;
  Credentials : string;
  Stacks : option (list StackStatus)
}.

(** [agent.TunnelConfig]. *)
Record TunnelConfig : Type := {
  ServerAddr : string;
  ServerFingerpint : string;
  TunnelCredentials : string;
  RemotePort : string;
  LocalAddr : string
}.

(** *** The collaborators, as interfaces *)

(** [client.PortainerClient]. *)
Class PortainerClient : Type := {
  portainer_client : Type;
  GetEnvironmentStatus : portainer_client -> result EnvironmentStatus * portainer_client;
  SetTimeout : Duration -> portainer_client -> portainer_client
}.

(** [agent.ReverseTunnelClient], with the constructor [chisel.NewClient]. *)
Class ReverseTunnelClient : Type := {
  tunnel_client : Type;
  NewClient : tunnel_client;
  IsTunnelOpen : tunnel_client -> bool;
  CreateTunnel : TunnelConfig -> tunnel_client -> option error * tunnel_client;
  CloseTunnel : tunnel_client -> option error * tunnel_client
}.

(** [agent.Scheduler], with the constructor [scheduler.NewCronManager]. *)
Class Scheduler : Type := {
  schedule_manager : Type;
  NewCronManager : schedule_manager;
  DoSchedule : list Schedule -> schedule_manager -> option error * schedule_manager
}.

(** [*scheduler.LogsManager]. *)
Class LogsManager : Type := {
  logs_manager : Type;
  HandleReceivedLogsRequests : list Z -> logs_manager -> logs_manager
}.

(** [*stack.StackManager]. *)
Class StackManager : Type := {
  stack_manager : Type;
  UpdateStacksStatus : gmap Z Z -> stack_manager -> option error * stack_manager
}.

(** The library functions the file calls: [time.ParseDuration],
    [base64.RawStdEncoding.DecodeString] and [libcrypto.Decrypt]. *)
Class Libraries : Type := {
  ParseDuration : string -> result Duration;
  DecodeString : string -> result (list Byte.byte);
  Decrypt : list Byte.byte -> list Byte.byte -> result (list Byte.byte)
}.

Inductive LogLevel : Type := DEBUG | INFO | ERROR.

Section Service.
Context {pc : PortainerClient} {rt : ReverseTunnelClient} {sc : Scheduler}
        {lm : LogsManager} {sm : StackManager} {lib : Libraries}.

(** *** The service *)

Definition tunnelActivityCheckInterval : Duration := 30 * Second.

Record PollService : Type := {
  apiServerAddr : string;
  pollIntervalInSeconds : float64;
  inactivityTimeout : Duration;
  edgeID : string;
  portainerClient : portainer_client;
  tunnelClient : option tunnel_client;
  scheduleManager : schedule_manager;
  lastActivity : Time;
  refreshSignal : option chan;
  edgeStackManager : stack_manager;
  portainerURL : string;
  endpointID : string;
  tunnelServerAddr : string;
  tunnelServerFingerprint : string;
  logsManager : logs_manager
}.

Record pollServiceConfig : Type := {
  APIServerAddr : string;
  EdgeID : string;
  InactivityTimeout : string;
  PollFrequency : string;
  TunnelCapability : bool;
  PortainerURL : string;
  EndpointID : string;
  TunnelServerAddr : string;
  TunnelServerFingerprint : string;
  EdgeAsyncMode : bool
}.

(** Assignments to the fields the code writes. *)
Definition set_pollIntervalInSeconds (x : float64) (s : PollService) : PollService :=
  {| apiServerAddr := apiServerAddr s; pollIntervalInSeconds := x;
     inactivityTimeout := inactivityTimeout s; edgeID := edgeID s;
     portainerClient := portainerClient s; tunnelClient := tunnelClient s;
     scheduleManager := scheduleManager s; lastActivity := lastActivity s;
     refreshSignal := refreshSignal s; edgeStackManager := edgeStackManager s;
     portainerURL := portainerURL s; endpointID := endpointID s;
     tunnelServerAddr := tunnelServerAddr s;
     tunnelServerFingerprint := tunnelServerFingerprint s;
     logsManager := logsManager s |}.

Definition set_lastActivity (x : Time) (s : PollService) : PollService :=
  {| apiServerAddr := apiServerAddr s; pollIntervalInSeconds := pollIntervalInSeconds s;
     inactivityTimeout := inactivityTimeout s; edgeID := edgeID s;
     portainerClient := portainerClient s; tunnelClient := tunnelClient s;
     scheduleManager := scheduleManager s; lastActivity := x;
     refreshSignal := refreshSignal s; edgeStackManager := edgeStackManager s;
     portainerURL := portainerURL s; endpointID := endpointID s;
     tunnelServerAddr := tunnelServerAddr s;
     tunnelServerFingerprint := tunnelServerFingerprint s;
     logsManager := logsManager s |}.

Definition set_refreshSignal (x : option chan) (s : PollService) : PollService :=
  {| apiServerAddr := apiServerAddr s; pollIntervalInSeconds := pollIntervalInSeconds s;
     inactivityTimeout := inactivityTimeout s; edgeID := edgeID s;
     portainerClient := portainerClient s; tunnelClient := tunnelClient s;
     scheduleManager := scheduleManager s; lastActivity := lastActivity s;
     refreshSignal := x; edgeStackManager := edgeStackManager s;
     portainerURL := portainerURL s; endpointID := endpointID s;
     tunnelServerAddr := tunnelServerAddr s;
     tunnelServerFingerprint := tunnelServerFingerprint s;
     logsManager := logsManager s |}.

(** The collaborators are reached through the service's fields; a call that
    changes a collaborator leaves its new state in the field. *)
Definition set_portainerClient (x : portainer_client) (s : PollService) : PollService :=
  {| apiServerAddr := apiServerAddr s; pollIntervalInSeconds := pollIntervalInSeconds s;
     inactivityTimeout := inactivityTimeout s; edgeID := edgeID s;
     portainerClient := x; tunnelClient := tunnelClient s;
     scheduleManager := scheduleManager s; lastActivity := lastActivity s;
     refreshSignal := refreshSignal s; edgeStackManager := edgeStackManager s;
     portainerURL := portainerURL s; endpointID := endpointID s;
     tunnelServerAddr := tunnelServerAddr s;
     tunnelServerFingerprint := tunnelServerFingerprint s;
     logsManager := logsManager s |}.

Definition set_tunnelClient (x : option tunnel_client) (s : PollService) : PollService :=
  {| apiServerAddr := apiServerAddr s; pollIntervalInSeconds := pollIntervalInSeconds s;
     inactivityTimeout := inactivityTimeout s; edgeID := edgeID s;
     portainerClient := portainerClient s; tunnelClient := x;
     scheduleManager := scheduleManager s; lastActivity := lastActivity s;
     refreshSignal := refreshSignal s; edgeStackManager := edgeStackManager s;
     portainerURL := portainerURL s; endpointID := endpointID s;
     tunnelServerAddr := tunnelServerAddr s;
     tunnelServerFingerprint := tunnelServerFingerprint s;
     logsManager := logsManager s |}.

Definition set_scheduleManager (x : schedule_manager) (s : PollService) : PollService :=
  {| apiServerAddr := apiServerAddr s; pollIntervalInSeconds := pollIntervalInSeconds s;
     inactivityTimeout := inactivityTimeout s; edgeID := edgeID s;
     portainerClient := portainerClient s; tunnelClient := tunnelClient s;
     scheduleManager := x; lastActivity := lastActivity s;
     refreshSignal := refreshSignal s; edgeStackManager := edgeStackManager s;
     portainerURL := portainerURL s; endpointID := endpointID s;
     tunnelServerAddr := tunnelServerAddr s;
     tunnelServerFingerprint := tunnelServerFingerprint s;
     logsManager := logsManager s |}.

Definition set_edgeStackManager (x : stack_manager) (s : PollService) : PollService :=
  {| apiServerAddr := apiServerAddr s; pollIntervalInSeconds := pollIntervalInSeconds s;
     inactivityTimeout := inactivityTimeout s; edgeID := edgeID s;
     portainerClient := portainerClient s; tunnelClient := tunnelClient s;
     scheduleManager := scheduleManager s; lastActivity := lastActivity s;
     refreshSignal := refreshSignal s; edgeStackManager := x;
     portainerURL := portainerURL s; endpointID := endpointID s;
     tunnelServerAddr := tunnelServerAddr s;
     tunnelServerFingerprint := tunnelServerFingerprint s;
     logsManager := logsManager s |}.

Definition set_logsManager (x : logs_manager) (s : PollService) : PollService :=
  {| apiServerAddr := apiServerAddr s; pollIntervalInSeconds := pollIntervalInSeconds s;
     inactivityTimeout := inactivityTimeout s; edgeID := edgeID s;
     portainerClient := portainerClient s; tunnelClient := tunnelClient s;
     scheduleManager := scheduleManager s; lastActivity := lastActivity s;
     refreshSignal := refreshSignal s; edgeStackManager := edgeStackManager s;
     portainerURL := portainerURL s; endpointID := endpointID s;
     tunnelServerAddr := tunnelServerAddr s;
     tunnelServerFingerprint := tunnelServerFingerprint s;
     logsManager := x |}.

(** [newPollService]: fails on a malformed duration; the tunnel client exists
    only with the tunnel capability and outside the asynchronous mode. *)
Definition newPollService (edgeStackManager0 : stack_manager)
    (logsManager0 : logs_manager) (config : pollServiceConfig)
    (portainerClient0 : portainer_client) : result PollService :=
  match ParseDuration (PollFrequency config) with
  | Err err => Err err
  | Ok pollFrequency =>
      match ParseDuration (InactivityTimeout config) with
      | Err err => Err err
      | Ok inactivityTimeout0 =>
          let tunnel :=
            if TunnelCapability config && negb (EdgeAsyncMode config)
            then Some NewClient else None in
          Ok {| apiServerAddr := APIServerAddr config;
                edgeID := EdgeID config;
                pollIntervalInSeconds := Seconds pollFrequency;
                inactivityTimeout := inactivityTimeout0;
                tunnelClient := tunnel;
                scheduleManager := NewCronManager;
                lastActivity := zeroTime;
                refreshSignal := None;
                edgeStackManager := edgeStackManager0;
                portainerURL := PortainerURL config;
                endpointID := EndpointID config;
                tunnelServerAddr := TunnelServerAddr config;
                tunnelServerFingerprint := TunnelServerFingerprint config;
                logsManager := logsManager0;
                portainerClient := portainerClient0 |}
      end
  end.

(** *** The world the code runs in *)

(** A goroutine of the service, as the runtime sees it.  A loop is parked at
    its [select]; [signal] is the value the expression [service.refreshSignal]
    had when the [select] was entered (the poll loop reads the field afresh at
    each round, the activity loop keeps its own local [quit] channel). *)
Inductive Goroutine : Type :=
| StatusPollLoop (ticker : Duration) (signal : option chan)
| ActivityMonitoringLoop (ticker : Duration) (quit : chan)
| RestartStatusPollLoop
| Returned.

(** What the service does to the outside, in the order it does it. *)
Inductive Event : Type :=
| Log (level : LogLevel) (message : string)
| CallGetEnvironmentStatus
| CallSetTimeout (d : Duration)
| CallCreateTunnel (config : TunnelConfig)
| CallCloseTunnel
| CallSchedule (schedules : list Schedule)
| CallHandleReceivedLogsRequests (ids : list Z)
| CallUpdateStacksStatus (stacks : gmap Z Z).

Record World : Type := {
  service : PollService;
  clock : Time;
  closed : gset nat;
  next_chan : chan;
  goroutines : list Goroutine;
  trace : list Event
}.

Definition with_service (f : PollService -> PollService) (w : World) : World :=
  {| service := f (service w); clock := clock w; closed := closed w;
     next_chan := next_chan w; goroutines := goroutines w; trace := trace w |}.

Definition set_clock (t : Time) (w : World) : World :=
  {| service := service w; clock := t; closed := closed w;
     next_chan := next_chan w; goroutines := goroutines w; trace := trace w |}.

Definition set_closed (x : gset nat) (w : World) : World :=
  {| service := service w; clock := clock w; closed := x;
     next_chan := next_chan w; goroutines := goroutines w; trace := trace w |}.

Definition set_next_chan (x : chan) (w : World) : World :=
  {| service := service w; clock := clock w; closed := closed w;
     next_chan := x; goroutines := goroutines w; trace := trace w |}.

Definition set_goroutines (x : list Goroutine) (w : World) : World :=
  {| service := service w; clock := clock w; closed := closed w;
     next_chan := next_chan w; goroutines := x; trace := trace w |}.

Definition emit (e : Event) (w : World) : World :=
  {| service := service w; clock := clock w; closed := closed w;
     next_chan := next_chan w; goroutines := goroutines w;
     trace := trace w ++ [e] |}.

(** A fresh service in a quiet world. *)
Definition boot (s : PollService) (now : Time) : World :=
  {| service := s; clock := now; closed := ∅; next_chan := 0%nat;
     goroutines := []; trace := [] |}.

(** *** The monad of the code: state, with Go's panics *)

Inductive Outcome (A : Type) : Type :=
| Done (a : A) (w : World)
| Panicked (msg : string) (w : World).
Arguments Done {A} a w.
Arguments Panicked {A} msg w.

Definition M (A : Type) : Type := World -> Outcome A.

Definition ret {A} (a : A) : M A := fun w => Done a w.

Definition bind {A B} (m : M A) (k : A -> M B) : M B :=
  fun w => match m w with
           | Done a w' => k a w'
           | Panicked msg w' => Panicked msg w'
           end.

Definition world_of {A} (o : Outcome A) : World :=
  match o with Done _ w => w | Panicked _ w => w end.

Definition panic {A} (msg : string) : M A := fun w => Panicked msg w.

Definition getService : M PollService := fun w => Done (service w) w.

Definition modifyService (f : PollService -> PollService) : M unit :=
  fun w => Done tt (with_service f w).

Definition logPrintf (level : LogLevel) (message : string) : M unit :=
  fun w => Done tt (emit (Log level message) w).

(** [time.Now()] and [time.Since(t)]. *)
Definition timeNow : M Time := fun w => Done (clock w) w.
Definition timeSince (t : Time) : M Duration := fun w => Done (Sub (clock w) t) w.

(** [time.NewTicker(d)] panics on a non-positive period; a ticker is known
    here by its period. *)
Definition timeNewTicker (d : Duration) : M Duration :=
  fun w => if d <=? 0 then Panicked "non-positive interval for NewTicker" w
           else Done d w.

(** [make(chan struct{})]. *)
Definition makeChan : M chan :=
  fun w => Done (next_chan w) (set_next_chan (S (next_chan w)) w).

(** [close(c)] panics on a channel that is closed already. *)
Definition closeChan (c : chan) : M unit :=
  fun w => if decide (c ∈ closed w) then Panicked "close of closed channel" w
           else Done tt (set_closed ({[c]} ∪ closed w) w).

(** [go f()]: the new goroutine joins the others. *)
Definition go (g : Goroutine) : M unit :=
  fun w => Done tt (set_goroutines (goroutines w ++ [g]) w).

(** [a && b()] with Go's short circuit. *)
Definition andM (a : bool) (b : M bool) : M bool :=
  if a then b else ret false.

End Service.

Arguments Done {pc rt sc lm sm A} a w.
Arguments Panicked {pc rt sc lm sm A} msg w.

Declare Scope go_scope.
Notation "x <- m ;; k" := (bind m (fun x => k))
  (at level 100, m at next level, right associativity) : go_scope.
Notation "m ;;; k" := (bind m (fun _ => k))
  (at level 100, right associativity) : go_scope.

Local Open Scope go_scope.

Section Operations.
Context {pc : PortainerClient} {rt : ReverseTunnelClient} {sc : Scheduler}
        {lm : LogsManager} {sm : StackManager} {lib : Libraries}.

(** *** Calls to the collaborators

    Each call acts on the collaborator held in the service's field, leaves
    the collaborator's new state there and is recorded in the trace.  A
    method call on the nil tunnel client panics, as in Go. *)

Definition nil_dereference : string :=
  "invalid memory address or nil pointer dereference".

Definition portainerClient_GetEnvironmentStatus : M (result EnvironmentStatus) :=
  fun w =>
    let r := GetEnvironmentStatus (portainerClient (service w)) in
    Done r.1 (emit CallGetEnvironmentStatus
                (with_service (set_portainerClient r.2) w)).

Definition portainerClient_SetTimeout (d : Duration) : M unit :=
  fun w =>
    Done tt (emit (CallSetTimeout d)
               (with_service
                  (set_portainerClient (SetTimeout d (portainerClient (service w)))) w)).

Definition tunnelClient_IsTunnelOpen : M bool :=
  fun w =>
    match tunnelClient (service w) with
    | None => Panicked nil_dereference w
    | Some t => Done (IsTunnelOpen t) w
    end.

Definition tunnelClient_CreateTunnel (config : TunnelConfig) : M (option error) :=
  fun w =>
    match tunnelClient (service w) with
    | None => Panicked nil_dereference w
    | Some t =>
        let r := CreateTunnel config t in
        Done r.1 (emit (CallCreateTunnel config)
                    (with_service (set_tunnelClient (Some r.2)) w))
    end.

Definition tunnelClient_CloseTunnel : M (option error) :=
  fun w =>
    match tunnelClient (service w) with
    | None => Panicked nil_dereference w
    | Some t =>
        let r := CloseTunnel t in
        Done r.1 (emit CallCloseTunnel
                    (with_service (set_tunnelClient (Some r.2)) w))
    end.

Definition scheduleManager_Schedule (schedules : list Schedule) : M (option error) :=
  fun w =>
    let r := DoSchedule schedules (scheduleManager (service w)) in
    Done r.1 (emit (CallSchedule schedules)
                (with_service (set_scheduleManager r.2) w)).

Definition logsManager_HandleReceivedLogsRequests (ids : list Z) : M unit :=
  fun w =>
    Done tt (emit (CallHandleReceivedLogsRequests ids)
               (with_service
                  (set_logsManager
                     (HandleReceivedLogsRequests ids (logsManager (service w)))) w)).

Definition edgeStackManager_UpdateStacksStatus (stacks : gmap Z Z) : M (option error) :=
  fun w =>
    let r := UpdateStacksStatus stacks (edgeStackManager (service w)) in
    Done r.1 (emit (CallUpdateStacksStatus stacks)
                (with_service (set_edgeStackManager r.2) w)).

(** [service.tunnelClient != nil]. *)
Definition tunnelClient_not_nil (s : PollService) : bool :=
  match tunnelClient s with Some _ => true | None => false end.

(** Line 192; the file declares it and does not use it. *)
Definition clientDefaultPollTimeout : Z := 5.

(** *** [resetActivityTimer] *)

Definition resetActivityTimer : M unit :=
  s <- getService ;;
  open <- andM (tunnelClient_not_nil s) tunnelClient_IsTunnelOpen ;;
  if open then
    now <- timeNow ;;
    modifyService (set_lastActivity now)
  else ret tt.

(** *** [createTunnel] *)

Definition createTunnel (encodedCredentials : string) (remotePort : Z)
    : M (option error) :=
  s <- getService ;;
  if negb (tunnelClient_not_nil s) then ret None
  else
    match DecodeString encodedCredentials with
    | Err err => ret (Some err)
    | Ok decodedCredentials =>
        match Decrypt decodedCredentials (String.list_byte_of_string (edgeID s)) with
        | Err err => ret (Some err)
        | Ok credentials =>
            let tunnelConfig :=
              {| ServerAddr := tunnelServerAddr s;
                 ServerFingerpint := tunnelServerFingerprint s;
                 TunnelCredentials := String.string_of_list_byte credentials;
                 RemotePort := pretty remotePort;
                 LocalAddr := apiServerAddr s |} in
            err <- tunnelClient_CreateTunnel tunnelConfig ;;
            match err with
            | Some e => ret (Some e)
            | None => resetActivityTimer ;;; ret None
            end
        end
    end.

(** *** [poll], block by block *)

(** Lines 202-221: the tunnel is brought in line with the status.  The
    result is the error that ends the iteration, if any. *)
Definition poll_tunnel (responseData : EnvironmentStatus) : M (option error) :=
  s <- getService ;;
  if tunnelClient_not_nil s then
    idle_open <- andM (String.eqb (Status responseData) "IDLE")
                      tunnelClient_IsTunnelOpen ;;
    (if idle_open then
       logPrintf DEBUG "Idle status detected, shutting down tunnel" ;;;
       err <- tunnelClient_CloseTunnel ;;
       match err with
       | Some _ => logPrintf ERROR "Unable to shutdown tunnel"
       | None => ret tt
       end
     else ret tt) ;;;
    required_closed <- andM (String.eqb (Status responseData) "REQUIRED")
                            (open <- tunnelClient_IsTunnelOpen ;; ret (negb open)) ;;
    if required_closed then
      logPrintf DEBUG "Required status detected, creating reverse tunnel" ;;;
      err <- createTunnel (Credentials responseData) (Port responseData) ;;
      match err with
      | Some e => logPrintf ERROR "Unable to create tunnel" ;;; ret (Some e)
      | None => ret None
      end
    else ret None
  else ret None.

(** Lines 223-226: schedules; a failure is logged and nothing more. *)
Definition poll_schedules (responseData : EnvironmentStatus) : M unit :=
  err <- scheduleManager_Schedule (Schedules responseData) ;;
  match err with
  | Some _ => logPrintf ERROR "an error occurred during schedule management"
  | None => ret tt
  end.

(** Lines 228-233: the ids of the schedules that ask for their logs. *)
Definition logsToCollect (schedules : list Schedule) : list Z :=
  foldl (fun acc schedule =>
           if Schedule_CollectLogs schedule then acc ++ [Schedule_ID schedule]
           else acc)
        [] schedules.

(** Line 235. *)
Definition poll_logs (responseData : EnvironmentStatus) : M unit :=
  logsManager_HandleReceivedLogsRequests (logsToCollect (Schedules responseData)).

(** The test of line 237, on [float64]:
    [CheckinInterval > 0 && CheckinInterval != pollIntervalInSeconds]. *)
Definition checkin_changes (responseData : EnvironmentStatus) (s : PollService) : bool :=
  PrimFloat.ltb 0 (CheckinInterval responseData)
  && negb (PrimFloat.eqb (CheckinInterval responseData) (pollIntervalInSeconds s)).

(** Lines 237-242: a new cadence is stored, handed to the status client as
    its timeout, and the loop restart is left to a goroutine of its own. *)
Definition poll_cadence (responseData : EnvironmentStatus) : M unit :=
  s <- getService ;;
  if checkin_changes responseData s then
    logPrintf DEBUG "updating poll interval" ;;;
    modifyService (set_pollIntervalInSeconds (CheckinInterval responseData)) ;;;
    portainerClient_SetTimeout
      (Duration_mul (Duration_of_float64 (CheckinInterval responseData)) Second) ;;;
    go RestartStatusPollLoop
  else ret tt.

(** Lines 245-248: the map from stack id to version, filled in list order. *)
Definition stacks_map (stacks : list StackStatus) : gmap Z Z :=
  foldl (fun m stack => <[Stack_ID stack := Stack_Version stack]> m) ∅ stacks.

(** Lines 244-255: stacks, only when the response carries the list. *)
Definition poll_stacks (responseData : EnvironmentStatus) : M (option error) :=
  match Stacks responseData with
  | Some stacks =>
      err <- edgeStackManager_UpdateStacksStatus (stacks_map stacks) ;;
      match err with
      | Some e =>
          logPrintf ERROR "an error occurred during stack management" ;;;
          ret (Some e)
      | None => ret None
      end
  | None => ret None
  end.

(** Lines 223-257: what follows the tunnel, in the order of the code. *)
Definition poll_converge (responseData : EnvironmentStatus) : M (option error) :=
  poll_schedules responseData ;;;
  poll_logs responseData ;;;
  poll_cadence responseData ;;;
  poll_stacks responseData.

(** [poll]: one iteration of the status-poll loop. *)
Definition poll : M (option error) :=
  r <- portainerClient_GetEnvironmentStatus ;;
  match r with
  | Err err => ret (Some err)
  | Ok responseData =>
      logPrintf DEBUG "status" ;;;
      err <- poll_tunnel responseData ;;
      match err with
      | Some e => ret (Some e)
      | None => poll_converge responseData
      end
  end.

(** *** The life cycle *)

(** [startStatusPollLoop]: the ticker's period is
    [time.Duration(pollIntervalInSeconds) * time.Second]; the goroutine it
    launches is taken to reach its [select] at once. *)
Definition startStatusPollLoop : M (option error) :=
  s <- getService ;;
  logPrintf DEBUG "starting Portainer short-polling client" ;;;
  ticker <- timeNewTicker
              (Duration_mul (Duration_of_float64 (pollIntervalInSeconds s)) Second) ;;
  go (StatusPollLoop ticker (refreshSignal s)) ;;;
  ret None.

(** [startActivityMonitoringLoop]: nothing without a tunnel client. *)
Definition startActivityMonitoringLoop : M unit :=
  s <- getService ;;
  if negb (tunnelClient_not_nil s) then ret tt
  else
    ticker <- timeNewTicker tunnelActivityCheckInterval ;;
    quit <- makeChan ;;
    logPrintf DEBUG "starting activity monitoring loop" ;;;
    go (ActivityMonitoringLoop ticker quit).

Definition start : M (option error) :=
  s <- getService ;;
  match refreshSignal s with
  | Some _ => ret None
  | None =>
      c <- makeChan ;;
      modifyService (set_refreshSignal (Some c)) ;;;
      startStatusPollLoop ;;;
      startActivityMonitoringLoop ;;;
      ret None
  end.

Definition stop : M (option error) :=
  s <- getService ;;
  match refreshSignal s with
  | Some c =>
      closeChan c ;;;
      modifyService (set_refreshSignal None) ;;;
      ret None
  | None => ret None
  end.

Definition restartStatusPollLoop : M unit :=
  stop ;;;
  c <- makeChan ;;
  modifyService (set_refreshSignal (Some c)) ;;;
  startStatusPollLoop ;;;
  ret tt.

(** *** The bodies of the two loops *)

(** Lines 135-139: the poll loop's [case <-ticker.C]. *)
Definition statusPollLoop_tick : M unit :=
  err <- poll ;;
  match err with
  | Some _ => logPrintf ERROR "an error occured during short poll"
  | None => ret tt
  end.

(** Lines 141-144: the poll loop's [case <-service.refreshSignal]; the
    goroutine returns after it. *)
Definition statusPollLoop_refresh : M unit :=
  logPrintf DEBUG "shutting down Portainer short-polling client".

(** Lines 165-182: the activity loop's [case <-ticker.C]. *)
Definition activityMonitoringLoop_tick : M unit :=
  s <- getService ;;
  if IsZero (lastActivity s) then ret tt
  else
    elapsed <- timeSince (lastActivity s) ;;
    logPrintf DEBUG "tunnel activity monitoring" ;;;
    open <- andM (tunnelClient_not_nil s) tunnelClient_IsTunnelOpen ;;
    if open && PrimFloat.ltb (Seconds (inactivityTimeout s)) (Seconds elapsed) then
      logPrintf INFO "shutting down tunnel after inactivity period" ;;;
      err <- tunnelClient_CloseTunnel ;;
      match err with
      | Some _ => logPrintf ERROR "unable to shutdown tunnel"
      | None => ret tt
      end
    else ret tt.

(** *** The runtime: what can happen next *)

Inductive Action : Type :=
| Call_start
| Call_stop
| Call_resetActivityTimer
| Tick (i : nat)
| Receive (i : nat)
| Run (i : nat)
| Advance (t : Time).

Definition setGoroutine (i : nat) (g : Goroutine) : M unit :=
  fun w => Done tt (set_goroutines (<[i:=g]> (goroutines w)) w).

(** [perform a w] is [None] when [a] cannot happen in [w].  A tick wakes the
    loop parked at index [i], which runs its body and parks again (the poll
    loop reading [service.refreshSignal] anew); [Receive] is the loop taking
    its channel, which only a closed channel allows; [Run] lets a goroutine
    that was spawned for one call make that call. *)
Definition perform (a : Action) (w : World) : option (Outcome unit) :=
  match a with
  | Call_start => Some ((start ;;; ret tt) w)
  | Call_stop => Some ((stop ;;; ret tt) w)
  | Call_resetActivityTimer => Some (resetActivityTimer w)
  | Tick i =>
      match goroutines w !! i with
      | Some (StatusPollLoop ticker _) =>
          Some ((statusPollLoop_tick ;;;
                 s <- getService ;;
                 setGoroutine i (StatusPollLoop ticker (refreshSignal s))) w)
      | Some (ActivityMonitoringLoop _ _) => Some (activityMonitoringLoop_tick w)
      | _ => None
      end
  | Receive i =>
      match goroutines w !! i with
      | Some (StatusPollLoop _ (Some c)) =>
          if decide (c ∈ closed w)
          then Some ((statusPollLoop_refresh ;;; setGoroutine i Returned) w)
          else None
      | Some (ActivityMonitoringLoop _ quit) =>
          if decide (quit ∈ closed w) then Some (setGoroutine i Returned w) else None
      | _ => None
      end
  | Run i =>
      match goroutines w !! i with
      | Some RestartStatusPollLoop =>
          Some ((restartStatusPollLoop ;;; setGoroutine i Returned) w)
      | _ => None
      end
  | Advance t => Some (Done tt (set_clock t w))
  end.

(** The worlds reached from [w0] by actions that [allowed] admits and that
    do not panic. *)
Inductive reachable (allowed : Action -> World -> Prop) (w0 : World) : World -> Prop :=
| reachable_here : reachable allowed w0 w0
| reachable_next w a w' :
    reachable allowed w0 w ->
    allowed a w ->
    perform a w = Some (Done tt w') ->
    reachable allowed w0 w'.

Definition any_action : Action -> World -> Prop := fun _ _ => True.

(** A poll loop that has not been told to exit: its channel is nil or not
    closed. *)
Definition live (w : World) (g : Goroutine) : bool :=
  match g with
  | StatusPollLoop _ (Some c) => bool_decide (c ∉ closed w)
  | StatusPollLoop _ None => true
  | _ => false
  end.

Definition active_poll_loops (w : World) : list Goroutine :=
  filter (fun g => live w g = true) (goroutines w).


(** [run actions w]: the world after the actions, when each of them can
    happen and none panics. *)
Fixpoint run (actions : list Action) (w : World) : option World :=
  match actions with
  | [] => Some w
  | a :: rest =>
      match perform a w with
      | Some (Done _ w') => run rest w'
      | _ => None
      end
  end.

(** *** Vocabulary of the properties *)

(** [m] moves every world to one that [R] relates to it, panic or not. *)
Definition respects {A} (R : relation World) (m : M A) : Prop :=
  forall w, R w (world_of (m w)).

(** [m] never panics. *)
Definition total {A} (m : M A) : Prop :=
  forall w, exists a w', m w = Done a w'.

(** [m] returns from [w], with a result and a world that satisfy [Q]. *)
Definition wp {A} (m : M A) (w : World) (Q : A -> World -> Prop) : Prop :=
  match m w with
  | Done a w' => Q a w'
  | Panicked _ _ => False
  end.

(** Two worlds agree on what [f] observes. *)
Definition same {X} (f : World -> X) : relation World :=
  fun w w' => f w' = f w.

(** [m] starts no poll loop and closes no channel: it leaves the service's
    channel and the channels alone, and spawns at most restart calls. *)
Definition quiet : relation World :=
  fun w w' =>
    refreshSignal (service w') = refreshSignal (service w)
    /\ closed w' = closed w
    /\ next_chan w' = next_chan w
    /\ exists k, goroutines w' = goroutines w ++ replicate k RestartStatusPollLoop.

(** The arguments of the calls of one kind in a trace, in order. *)
Definition SetTimeout_calls (t : list Event) : list Duration :=
  omap (fun e => match e with CallSetTimeout d => Some d | _ => None end) t.

Definition UpdateStacksStatus_calls (t : list Event) : list (gmap Z Z) :=
  omap (fun e => match e with CallUpdateStacksStatus m => Some m | _ => None end) t.

Definition CreateTunnel_calls (t : list Event) : list TunnelConfig :=
  omap (fun e => match e with CallCreateTunnel c => Some c | _ => None end) t.

Definition CloseTunnel_calls (t : list Event) : list unit :=
  omap (fun e => match e with CallCloseTunnel => Some tt | _ => None end) t.

(** What the cadence step alone may change. *)
Definition cadence_view (w : World) : float64 * list Duration * list Goroutine :=
  (pollIntervalInSeconds (service w), SetTimeout_calls (trace w), goroutines w).

(** What the stack step alone may change. *)
Definition stacks_view (w : World) : list (gmap Z Z) :=
  UpdateStacksStatus_calls (trace w).

(** What the tunnel block alone may change. *)
Definition tunnel_view (w : World)
    : Time * option tunnel_client * Time * list TunnelConfig :=
  (lastActivity (service w), tunnelClient (service w), clock w,
   CreateTunnel_calls (trace w)).

Definition lastActivity_view (w : World) : Time := lastActivity (service w).

(** The calls of steps 3 to 6 of an iteration: schedules, logs, cadence,
    stacks. *)
Definition convergence_call (e : Event) : bool :=
  match e with
  | CallSchedule _ | CallHandleReceivedLogsRequests _
  | CallSetTimeout _ | CallUpdateStacksStatus _ => true
  | _ => false
  end.

(** The configuration [createTunnel] builds (lines 275-281). *)
Definition tunnelConfig_of (s : PollService) (credentials : list Byte.byte)
    (remotePort : Z) : TunnelConfig :=
  {| ServerAddr := tunnelServerAddr s;
     ServerFingerpint := tunnelServerFingerprint s;
     TunnelCredentials := String.string_of_list_byte credentials;
     RemotePort := pretty remotePort;
     LocalAddr := apiServerAddr s |}.

(** The stage at which creating the tunnel fails, with the error and the
    tunnel client the failure leaves behind. *)
Inductive creation_fails (s : PollService) (t : tunnel_client)
    (responseData : EnvironmentStatus) : error -> tunnel_client -> Prop :=
| fails_decoding e :
    DecodeString (Credentials responseData) = Err e ->
    creation_fails s t responseData e t
| fails_decrypting decoded e :
    DecodeString (Credentials responseData) = Ok decoded ->
    Decrypt decoded (String.list_byte_of_string (edgeID s)) = Err e ->
    creation_fails s t responseData e t
| fails_creating decoded credentials e t' :
    DecodeString (Credentials responseData) = Ok decoded ->
    Decrypt decoded (String.list_byte_of_string (edgeID s)) = Ok credentials ->
    CreateTunnel (tunnelConfig_of s credentials (Port responseData)) t = (Some e, t') ->
    creation_fails s t responseData e t'.

(** The error with which the tunnel block ends an iteration, read off the
    response and the service: there is one exactly when a tunnel is
    required, none is open, and creating it fails. *)
Definition tunnel_error (responseData : EnvironmentStatus) (s : PollService)
    : option error :=
  match tunnelClient s with
  | None => None
  | Some t =>
      if String.eqb (Status responseData) "REQUIRED" && negb (IsTunnelOpen t) then
        match DecodeString (Credentials responseData) with
        | Err e => Some e
        | Ok decoded =>
            match Decrypt decoded (String.list_byte_of_string (edgeID s)) with
            | Err e => Some e
            | Ok credentials =>
                (CreateTunnel (tunnelConfig_of s credentials (Port responseData)) t).1
            end
        end
      else None
  end.

(** Modelled from the spec: the tunnel capability (the chisel client, whose
    code is not in [edge/poll.go]) does not report a tunnel open after a
    create call that returned an error. *)
Definition failed_create_leaves_closed : Prop :=
  forall config t e t',
    IsTunnelOpen t = false ->
    CreateTunnel config t = (Some e, t') ->
    IsTunnelOpen t' = false.

(** The timeout handed to the status client for a response's cadence
    (line 240). *)
Definition new_timeout (responseData : EnvironmentStatus) : Duration :=
  Duration_mul (Duration_of_float64 (CheckinInterval responseData)) Second.

(** The period of the ticker a poll loop gets for the service's cadence. *)
Definition ticker_period (s : PollService) : Duration :=
  Duration_mul (Duration_of_float64 (pollIntervalInSeconds s)) Second.

(** The goroutines [start] launches on channel [c]: the poll loop and, with
    a tunnel client, the activity loop on a channel of its own. *)
Definition launched_by_start (s : PollService) (c : chan) : list Goroutine :=
  StatusPollLoop (ticker_period s) (Some c)
  :: (if tunnelClient_not_nil s
      then [ActivityMonitoringLoop tunnelActivityCheckInterval (S c)]
      else []).

Definition is_poll_loop (g : Goroutine) : bool :=
  match g with StatusPollLoop _ _ => true | _ => false end.




(** The version of the last entry for [id] in a stack list. *)
Definition last_version (id : Z) (stacks : list StackStatus) : option Z :=
  Stack_Version <$> last (filter (fun st => Stack_ID st = id) stacks).

(** *** Vocabulary of the further properties *)

Definition Schedule_calls (t : list Event) : list (list Schedule) :=
  omap (fun e => match e with CallSchedule l => Some l | _ => None end) t.

Definition HandleReceivedLogsRequests_calls (t : list Event) : list (list Z) :=
  omap (fun e => match e with
                 | CallHandleReceivedLogsRequests ids => Some ids
                 | _ => None
                 end) t.

(** The calls to the collaborators in a trace, in order, the log lines left
    out. *)
Definition is_call (e : Event) : bool :=
  match e with Log _ _ => false | _ => true end.

Definition calls (t : list Event) : list Event :=
  filter (fun e => is_call e = true) t.

(** What the schedule and log steps alone may change. *)
Definition schedules_view (w : World)
    : list (list Schedule) * list (list Z) * schedule_manager * logs_manager :=
  (Schedule_calls (trace w), HandleReceivedLogsRequests_calls (trace w),
   scheduleManager (service w), logsManager (service w)).

(** All that concerns the tunnel: the calls to its client, the client and
    the time of the last activity. *)
Definition tunnel_calls_view (w : World)
    : list TunnelConfig * list unit * option tunnel_client * Time :=
  (CreateTunnel_calls (trace w), CloseTunnel_calls (trace w),
   tunnelClient (service w), lastActivity (service w)).

Definition stack_manager_view (w : World) : stack_manager :=
  edgeStackManager (service w).

(** The test of line 203: a tunnel client, the status IDLE, the tunnel
    open. *)
Definition closes_tunnel (responseData : EnvironmentStatus) (s : PollService) : bool :=
  match tunnelClient s with
  | Some t => String.eqb (Status responseData) "IDLE" && IsTunnelOpen t
  | None => false
  end.

(** The test of line 212: a tunnel client, the status REQUIRED, the tunnel
    closed. *)
Definition opens_tunnel (responseData : EnvironmentStatus) (s : PollService) : bool :=
  match tunnelClient s with
  | Some t => String.eqb (Status responseData) "REQUIRED" && negb (IsTunnelOpen t)
  | None => false
  end.

(** The error [poll] returns from a world: the error of the fetch, or else
    of the creation of a required tunnel, or else of the stack update. *)
Definition poll_result (w : World) : option error :=
  match (GetEnvironmentStatus (portainerClient (service w))).1 with
  | Err e => Some e
  | Ok responseData =>
      match tunnel_error responseData (service w) with
      | Some e => Some e
      | None =>
          match Stacks responseData with
          | Some stacks =>
              (UpdateStacksStatus (stacks_map stacks) (edgeStackManager (service w))).1
          | None => None
          end
      end
  end.

(** The calls of the tunnel block. *)
Definition tunnel_calls (responseData : EnvironmentStatus) (s : PollService)
    : list Event :=
  if closes_tunnel responseData s then [CallCloseTunnel]
  else if opens_tunnel responseData s then
    match DecodeString (Credentials responseData) with
    | Err _ => []
    | Ok decoded =>
        match Decrypt decoded (String.list_byte_of_string (edgeID s)) with
        | Err _ => []
        | Ok credentials =>
            [CallCreateTunnel (tunnelConfig_of s credentials (Port responseData))]
        end
    end
  else [].

(** The calls of one iteration, in the order of the code. *)
Definition poll_calls (w : World) : list Event :=
  CallGetEnvironmentStatus ::
  match (GetEnvironmentStatus (portainerClient (service w))).1 with
  | Err _ => []
  | Ok responseData =>
      tunnel_calls responseData (service w)
      ++ match tunnel_error responseData (service w) with
         | Some _ => []
         | None =>
             [CallSchedule (Schedules responseData);
              CallHandleReceivedLogsRequests (logsToCollect (Schedules responseData))]
             ++ (if checkin_changes responseData (service w)
                 then [CallSetTimeout (new_timeout responseData)] else [])
             ++ match Stacks responseData with
                | Some stacks => [CallUpdateStacksStatus (stacks_map stacks)]
                | None => []
                end
         end
  end.

(** The channels are in order: the service's channel is not closed, and every
    channel that is closed or held by the service has been made. *)
Definition chan_inv (w : World) : Prop :=
  (forall c, refreshSignal (service w) = Some c -> c ∉ closed w)
  /\ (forall c, refreshSignal (service w) = Some c -> (c < next_chan w)%nat)
  /\ (forall c, c ∈ closed w -> (c < next_chan w)%nat).

Definition is_activity_loop (g : Goroutine) : bool :=
  match g with ActivityMonitoringLoop _ _ => true | _ => false end.

(** The panic of [time.NewTicker]. *)
Definition ticker_panic : string := "non-positive interval for NewTicker".

(** The world a restart of the poll loop leaves. *)
Definition restarted (w : World) : World :=
  {| service := set_refreshSignal (Some (next_chan w)) (service w);
     clock := clock w;
     closed := match refreshSignal (service w) with
               | Some c => {[c]} ∪ closed w
               | None => closed w
               end;
     next_chan := S (next_chan w);
     goroutines := goroutines w
                   ++ [StatusPollLoop (ticker_period (service w)) (Some (next_chan w))];
     trace := trace w ++ [Log DEBUG "starting Portainer short-polling client"] |}.

(** The world in which the tunnel block of an iteration starts, after a
    fetch that left the status client as [c']. *)
Definition fetched (c' : portainer_client) (w : World) : World :=
  emit (Log DEBUG "status")
    (emit CallGetEnvironmentStatus (with_service (set_portainerClient c') w)).

(** The world [start] leaves when it starts a stopped service. *)
Definition started (w : World) : World :=
  {| service := set_refreshSignal (Some (next_chan w)) (service w);
     clock := clock w;
     closed := closed w;
     next_chan := if tunnelClient_not_nil (service w)
                  then S (S (next_chan w)) else S (next_chan w);
     goroutines := goroutines w ++ launched_by_start (service w) (next_chan w);
     trace := trace w
              ++ Log DEBUG "starting Portainer short-polling client"
                 :: (if tunnelClient_not_nil (service w)
                     then [Log DEBUG "starting activity monitoring loop"] else []) |}.

(** A service without the tunnel capability, as it stays: no tunnel client,
    no call to one, no recorded activity, no activity loop. *)
Definition without_tunnel (w : World) : Prop :=
  tunnel_calls_view w = ([], [], None, zeroTime)
  /\ Forall (fun g => is_activity_loop g = false) (goroutines w).

(** The channel of an activity loop is its own: it has been made, it is not
    the service's channel, and it is not closed. *)
Definition activity_inv (w : World) : Prop :=
  forall i tk quit,
    goroutines w !! i = Some (ActivityMonitoringLoop tk quit) ->
    (quit ∉ closed w) /\ (quit < next_chan w)%nat
    /\ refreshSignal (service w) <> Some quit.

End Operations.

(** *** Scripted collaborators

    Plain implementations of the interfaces, to run the service on concrete
    responses: a status client that replays a list of answers, a tunnel
    client whose next [CreateTunnel] and [CloseTunnel] results are set in
    advance, and managers that record what they are handed. *)

Module Scripted.

Record Portainer : Type := {
  answers : list (result EnvironmentStatus);
  timeout : Duration
}.

#[export] Instance portainer : PortainerClient := {|
  portainer_client := Portainer;
  GetEnvironmentStatus c :=
    match answers c with
    | [] => (Err "connection refused", c)
    | r :: rest => (r, {| answers := rest; timeout := timeout c |})
    end;
  SetTimeout d c := {| answers := answers c; timeout := d |}
|}.

Record Tunnel : Type := {
  is_open : bool;
  create_error : option error;
  close_error : option error
}.

#[export] Instance tunnel : ReverseTunnelClient := {|
  tunnel_client := Tunnel;
  NewClient := {| is_open := false; create_error := None; close_error := None |};
  IsTunnelOpen t := is_open t;
  CreateTunnel _ t :=
    match create_error t with
    | Some e => (Some e, t)
    | None => (None, {| is_open := true; create_error := None;
                        close_error := close_error t |})
    end;
  CloseTunnel t :=
    match close_error t with
    | Some e => (Some e, t)
    | None => (None, {| is_open := false; create_error := create_error t;
                        close_error := None |})
    end
|}.

#[export] Instance scheduler : Scheduler := {|
  schedule_manager := list Schedule;
  NewCronManager := [];
  DoSchedule schedules _ := (None, schedules)
|}.

#[export] Instance logs : LogsManager := {|
  logs_manager := list Z;
  HandleReceivedLogsRequests ids _ := ids
|}.

#[export] Instance stacks : StackManager := {|
  stack_manager := gmap Z Z;
  UpdateStacksStatus m _ := (None, m)
|}.

(** Stand-ins for the library functions: a few durations by name, a
    decoder that rejects ['!'], a cipher that rejects the empty message. *)
#[export] Instance libraries : Libraries := {|
  ParseDuration str :=
    if String.eqb str "5s" then Ok (5 * Second)
    else if String.eqb str "30s" then Ok (30 * Second)
    else if String.eqb str "500ms" then Ok 500000000
    else if String.eqb str "1500ms" then Ok 1500000000
    else if String.eqb str "4660h20m16s" then Ok (16777216 * Second)
    else Err "time: invalid duration";
  DecodeString str :=
    if existsb (Ascii.eqb "!"%char) (list_ascii_of_string str)
    then Err "illegal base64 data"
    else Ok (String.list_byte_of_string str);
  Decrypt message _ :=
    match message with
    | [] => Err "cipher: message authentication failed"
    | _ => Ok message
    end
|}.

Definition config (tunnel_capability : bool) (frequency inactivity : string)
    : pollServiceConfig :=
  {| APIServerAddr := "127.0.0.1:9001"; EdgeID := "edge-id";
     InactivityTimeout := inactivity; PollFrequency := frequency;
     TunnelCapability := tunnel_capability;
     PortainerURL := "https://portainer"; EndpointID := "1";
     TunnelServerAddr := "portainer:8000"; TunnelServerFingerprint := "fp";
     EdgeAsyncMode := false |}.

(** The service [newPollService] builds from [config], or a blank one when
    a duration does not parse. *)
Definition blank : PollService :=
  {| apiServerAddr := ""; pollIntervalInSeconds := 0%float;
     inactivityTimeout := 0; edgeID := "";
     portainerClient := {| answers := []; timeout := 0 |};
     tunnelClient := None; scheduleManager := []; lastActivity := zeroTime;
     refreshSignal := None; edgeStackManager := ∅; portainerURL := "";
     endpointID := ""; tunnelServerAddr := ""; tunnelServerFingerprint := "";
     logsManager := [] |}.

Definition service_of (tunnel_capability : bool) (frequency inactivity : string)
    (replies : list (result EnvironmentStatus)) : PollService :=
  match newPollService ∅ [] (config tunnel_capability frequency inactivity)
          {| answers := replies; timeout := 0 |} with
  | Ok s => s
  | Err _ => blank
  end.

Definition response (status credentials : string) (checkin : float64)
    (stacks0 : option (list StackStatus)) : EnvironmentStatus :=
  {| Status := status; Port := 9000; Schedules := [];
     CheckinInterval := checkin; Credentials := credentials;
     Stacks := stacks0 |}.

(** The world [w] after [actions], or [w] itself if they cannot run. *)
Definition after (actions : list Action) (w : World) : World :=
  default w (run actions w).

(** A tunnel is required and the credentials do not decode; the response
    also asks for a cadence of 10 seconds and carries an empty stack list. *)
Definition bad_credentials : EnvironmentStatus :=
  response "REQUIRED" "!!!" 10%float (Some []).

Definition world_bad_credentials : World :=
  boot (service_of true "5s" "30s" [Ok bad_credentials]) 1000.

(** No tunnel is wanted; the cadence goes from 5 to 10 seconds and the
    stack list is present and empty. *)
Definition idle_new_cadence : EnvironmentStatus :=
  response "IDLE" "" 10%float (Some []).

Definition world_new_cadence : World :=
  boot (service_of true "5s" "30s" [Ok idle_new_cadence]) 1000.

(** A stack list in which id 1 comes twice. *)
Definition stack_1_1 : StackStatus := {| Stack_ID := 1; Stack_Version := 1 |}.
Definition stack_2_5 : StackStatus := {| Stack_ID := 2; Stack_Version := 5 |}.
Definition stack_1_7 : StackStatus := {| Stack_ID := 1; Stack_Version := 7 |}.

Definition repeated_stack : EnvironmentStatus :=
  response "IDLE" "" 0%float (Some [stack_1_1; stack_2_5; stack_1_7]).

Definition world_repeated_stack : World :=
  boot (service_of true "5s" "30s" [Ok repeated_stack]) 1000.

(** The control plane cannot be reached. *)
Definition world_unreachable : World :=
  after [Call_start] (boot (service_of true "5s" "30s" []) 1000).

(** A started service that is told a tunnel is required, with credentials
    that decode and decrypt. *)
Definition world_required : World :=
  after [Call_start]
    (boot (service_of true "5s" "30s"
             [Ok (response "REQUIRED" "abc" 0%float None)]) 1000).

(** A service whose tunnel is open, with [lastActivity] as given. *)
Definition world_open (inactivity : string) (last_activity now : Time) : World :=
  boot (set_lastActivity last_activity
          (set_tunnelClient
             (Some {| is_open := true; create_error := None; close_error := None |})
             (service_of true "5s" inactivity [])))
       now.

(** Services whose cadence is a fraction of a second or has one. *)
Definition world_half_second : World :=
  boot (service_of true "500ms" "30s" []) 1000.

Definition world_second_and_half : World :=
  boot (service_of true "1500ms" "30s" []) 1000.

Definition fractional_checkin : EnvironmentStatus :=
  response "IDLE" "" 1.5%float None.

Definition world_fractional_checkin : World :=
  boot (service_of true "5s" "30s" [Ok fractional_checkin]) 1000.

(** Three schedules, of which the first and the last ask for their logs. *)
Definition backup : Schedule :=
  {| Schedule_ID := 7; Schedule_CollectLogs := true; Schedule_Spec := "@daily" |}.
Definition cleanup : Schedule :=
  {| Schedule_ID := 8; Schedule_CollectLogs := false; Schedule_Spec := "@hourly" |}.
Definition report : Schedule :=
  {| Schedule_ID := 9; Schedule_CollectLogs := true; Schedule_Spec := "@weekly" |}.

Definition scheduled : EnvironmentStatus :=
  {| Status := "IDLE"; Port := 9000; Schedules := [backup; cleanup; report];
     CheckinInterval := 0%float; Credentials := ""; Stacks := None |}.

Definition world_scheduled : World :=
  boot (service_of true "5s" "30s" [Ok scheduled]) 1000.

(** The status is IDLE while the tunnel is open, and the tunnel client will
    fail to close it. *)
Definition stuck_open : Tunnel :=
  {| is_open := true; create_error := None; close_error := Some "close failed" |}.

Definition world_idle_open : World :=
  boot (set_tunnelClient (Some stuck_open)
          (service_of true "5s" "30s" [Ok scheduled]))
       1000.

(** A service without the tunnel capability, started and after one tick. *)
Definition world_no_tunnel : World :=
  after [Call_start; Tick 0; Call_resetActivityTimer]
    (boot (service_of false "5s" "30s" [Ok (response "REQUIRED" "abc" 0%float None)])
          1000).

(** A started service whose next response asks for a cadence of 10
    seconds. *)
Definition world_started_new_cadence : World :=
  after [Call_start] (boot (service_of true "5s" "30s" [Ok idle_new_cadence]) 1000).

End Scripted.

(** ** Properties *)

Section Properties.
Context {pc : PortainerClient} {rt : ReverseTunnelClient} {sc : Scheduler}
        {lm : LogsManager} {sm : StackManager} {lib : Libraries}.

(** *** Reasoning in the monad *)

Lemma bind_Done {A B} (m : M A) (k : A -> M B) w a w' :
  m w = Done a w' -> bind m k w = k a w'.
Proof. intros H. unfold bind. now rewrite H. Qed.

#[local] Instance same_preorder {X} (f : World -> X) : PreOrder (same f).
Proof.
  split.
  - intros w. reflexivity.
  - intros w1 w2 w3 H12 H23. unfold same in *. congruence.
Qed.

Lemma respects_ret {A} (R : relation World) `{!Reflexive R} (a : A) :
  respects R (ret a).
Proof. intros w. simpl. reflexivity. Qed.

Lemma respects_bind {A B} (R : relation World) `{!Transitive R}
    (m : M A) (k : A -> M B) :
  respects R m -> (forall a, respects R (k a)) -> respects R (bind m k).
Proof.
  intros Hm Hk w. unfold bind. specialize (Hm w).
  destruct (m w) as [a w'|msg w']; simpl in *; [|assumption].
  transitivity w'; [assumption|apply Hk].
Qed.

Lemma respects_done {A} (R : relation World) (m : M A) w a w' :
  respects R m -> m w = Done a w' -> R w w'.
Proof. intros H E. specialize (H w). now rewrite E in H. Qed.

Lemma total_ret {A} (a : A) : total (ret a).
Proof. intros w. now exists a, w. Qed.

Lemma total_bind {A B} (m : M A) (k : A -> M B) :
  total m -> (forall a, total (k a)) -> total (bind m k).
Proof.
  intros Hm Hk w. destruct (Hm w) as (a & w' & E).
  destruct (Hk a w') as (b & w'' & E'). exists b, w''.
  now rewrite (bind_Done _ _ _ _ _ E).
Qed.

Lemma wp_ret {A} (a : A) w Q : wp (ret a) w Q <-> Q a w.
Proof. reflexivity. Qed.

Lemma wp_bind {A B} (m : M A) (k : A -> M B) w Q :
  wp (bind m k) w Q <-> wp m w (fun a w' => wp (k a) w' Q).
Proof. unfold wp, bind. destruct (m w); reflexivity. Qed.

Lemma wp_frame {A} (R : relation World) (m : M A) w (Q : A -> World -> Prop) :
  total m -> respects R m -> (forall a w', R w w' -> Q a w') -> wp m w Q.
Proof.
  intros Ht Hr HQ. unfold wp. destruct (Ht w) as (a & w' & E). rewrite E.
  apply HQ. eapply respects_done; eassumption.
Qed.

Lemma wp_done {A} (m : M A) w Q :
  wp m w Q <-> exists a w', m w = Done a w' /\ Q a w'.
Proof.
  unfold wp. destruct (m w) as [a w'|msg w'].
  - split; [eauto|]. intros (a' & w'' & E & HQ). now inversion E; subst.
  - split; [tauto|]. intros (a' & w'' & E & _). discriminate.
Qed.

(** The views a frame proof unfolds. *)
Create HintDb views.

(** A frame proof goes through the monad's combinators and the branches of
    the code down to the primitives, which [leaf] settles. *)
Ltac frame_with leaf :=
  repeat first
    [ apply respects_ret; apply _
    | apply respects_bind; [apply _ | | intros ?]
    | match goal with
      | |- respects _ (andM ?b _) => unfold andM; destruct b
      | |- respects _ (match ?x with _ => _ end) => destruct x
      end
    | progress cbv zeta
    | solve [leaf] ].

Ltac same_leaf :=
  let w := fresh "w" in
  intros w; unfold same;
  cbv [portainerClient_GetEnvironmentStatus portainerClient_SetTimeout
       tunnelClient_IsTunnelOpen tunnelClient_CreateTunnel tunnelClient_CloseTunnel
       scheduleManager_Schedule logsManager_HandleReceivedLogsRequests
       edgeStackManager_UpdateStacksStatus getService modifyService logPrintf
       timeNow timeSince timeNewTicker makeChan closeChan go setGoroutine panic ret];
  repeat match goal with
         | |- context [match ?x with _ => _ end] => destruct x
         end;
  autounfold with views; cbn;
  unfold SetTimeout_calls, UpdateStacksStatus_calls, CreateTunnel_calls,
    CloseTunnel_calls;
  rewrite ?omap_app; cbn; rewrite ?app_nil_r; reflexivity.

#[local] Hint Unfold cadence_view stacks_view tunnel_view lastActivity_view : views.

Lemma poll_schedules_cadence resp : respects (same cadence_view) (poll_schedules resp).
Proof. unfold poll_schedules. frame_with same_leaf. Qed.

Lemma poll_tunnel_cadence resp : respects (same cadence_view) (poll_tunnel resp).
Proof. unfold poll_tunnel, createTunnel, resetActivityTimer. frame_with same_leaf. Qed.

(** *** The tunnel block and the path of a failed creation *)

Ltac open_world w :=
  let s := fresh "s" in
  destruct w as [s ? ? ? ? ?]; destruct s; cbn in *.

Lemma poll_tunnel_Done resp w :
  exists w', poll_tunnel resp w = Done (tunnel_error resp (service w)) w'.
Proof.
  open_world w.
  unfold poll_tunnel, createTunnel, resetActivityTimer, tunnel_error, tunnelConfig_of,
    andM, bind, getService, ret, logPrintf, tunnelClient_IsTunnelOpen,
    tunnelClient_CloseTunnel, tunnelClient_CreateTunnel, tunnelClient_not_nil,
    modifyService, timeNow; cbn.
  destruct tunnelClient0 as [t|]; cbn; [|eauto].
  destruct (String.eqb (Status resp) "IDLE") eqn:Eidle; cbn.
  - apply String.eqb_eq in Eidle. rewrite Eidle. cbn.
    destruct (IsTunnelOpen t); cbn; [|eauto].
    destruct (CloseTunnel t) as [[e|] t']; cbn; eauto.
  - destruct (String.eqb (Status resp) "REQUIRED"); cbn; [|eauto].
    destruct (IsTunnelOpen t); cbn; [eauto|].
    destruct (DecodeString (Credentials resp)); cbn; [|eauto].
    destruct (Decrypt _ _); cbn; [|eauto].
    destruct (CreateTunnel _ t) as [[e|] t']; cbn; [eauto|].
    destruct (IsTunnelOpen t'); cbn; eauto.
Qed.

Lemma poll_after_fetch w resp c' :
  GetEnvironmentStatus (portainerClient (service w)) = (Ok resp, c') ->
  poll w =
  bind (poll_tunnel resp)
       (fun err => match err with
                   | Some e => ret (Some e)
                   | None => poll_converge resp
                   end)
       (emit (Log DEBUG "status")
          (emit CallGetEnvironmentStatus (with_service (set_portainerClient c') w))).
Proof.
  intros H. unfold poll, bind at 1, portainerClient_GetEnvironmentStatus.
  rewrite H. reflexivity.
Qed.

Lemma poll_tunnel_creation w resp t :
  tunnelClient (service w) = Some t ->
  Status resp = "REQUIRED" ->
  IsTunnelOpen t = false ->
  poll_tunnel resp w =
  bind (createTunnel (Credentials resp) (Port resp))
       (fun err => match err with
                   | Some e => bind (logPrintf ERROR "Unable to create tunnel")
                                    (fun _ => ret (Some e))
                   | None => ret None
                   end)
       (emit (Log DEBUG "Required status detected, creating reverse tunnel") w).
Proof.
  intros Ht Hs Ho. unfold poll_tunnel.
  unfold bind at 1, getService, tunnelClient_not_nil. rewrite Ht, Hs. cbn.
  unfold bind at 1. cbn. unfold bind at 1, bind at 1, tunnelClient_IsTunnelOpen.
  rewrite Ht, Ho. reflexivity.
Qed.

Lemma createTunnel_fails w t resp e t' :
  tunnelClient (service w) = Some t ->
  creation_fails (service w) t resp e t' ->
  exists calls,
    createTunnel (Credentials resp) (Port resp) w =
      Done (Some e)
        (with_service (set_tunnelClient (Some t'))
           {| service := service w; clock := clock w; closed := closed w;
              next_chan := next_chan w; goroutines := goroutines w;
              trace := trace w ++ calls |})
    /\ Forall (fun ev => convergence_call ev = false) calls.
Proof.
  intros Ht Hf. unfold createTunnel, bind at 1, getService, tunnelClient_not_nil.
  rewrite Ht. cbn.
  destruct Hf as [e Hd | d e Hd Hc | d c e t' Hd Hc Hcr]; rewrite Hd; [|rewrite Hc..].
  - exists []. split; [|constructor]. unfold ret. f_equal.
    open_world w. cbn in Ht. subst. now rewrite app_nil_r.
  - exists []. split; [|constructor]. unfold ret. f_equal.
    open_world w. cbn in Ht. subst. now rewrite app_nil_r.
  - exists [CallCreateTunnel (tunnelConfig_of (service w) c (Port resp))].
    split; [|repeat constructor].
    unfold bind, tunnelClient_CreateTunnel. rewrite Ht. cbn.
    unfold tunnelConfig_of in Hcr. rewrite Hcr. reflexivity.
Qed.

(** C1: in an iteration whose status is REQUIRED while the tunnel is closed,
    a failure to create the tunnel at any stage (decoding, decrypting, or the
    tunnel client's own create call) is returned from [poll] after being
    logged; the iteration ends there, before any call of the schedule, log,
    cadence or stack steps; the tunnel is still closed and [lastActivity] is
    what it was.  For the last stage the tunnel client is taken not to report
    a tunnel open after a create call that failed. *)
Theorem poll_required_tunnel_failure w resp c' t e t' :
  failed_create_leaves_closed ->
  GetEnvironmentStatus (portainerClient (service w)) = (Ok resp, c') ->
  tunnelClient (service w) = Some t ->
  Status resp = "REQUIRED" ->
  IsTunnelOpen t = false ->
  creation_fails (service w) t resp e t' ->
  exists w' calls,
    poll w = Done (Some e) w'
    /\ trace w' = trace w ++ calls
    /\ Forall (fun ev => convergence_call ev = false) calls
    /\ last calls = Some (Log ERROR "Unable to create tunnel")
    /\ goroutines w' = goroutines w
    /\ pollIntervalInSeconds (service w') = pollIntervalInSeconds (service w)
    /\ scheduleManager (service w') = scheduleManager (service w)
    /\ logsManager (service w') = logsManager (service w)
    /\ edgeStackManager (service w') = edgeStackManager (service w)
    /\ tunnelClient (service w') = Some t'
    /\ IsTunnelOpen t' = false
    /\ lastActivity (service w') = lastActivity (service w).
Proof.
  intros Hcontract Hfetch Ht Hs Ho Hf.
  rewrite (poll_after_fetch _ _ _ Hfetch).
  set (w1 := emit _ _).
  assert (Ht1 : tunnelClient (service w1) = Some t) by exact Ht.
  assert (Hf1 : creation_fails (service w1) t resp e t').
  { destruct Hf; econstructor; eassumption. }
  unfold bind at 1. rewrite (poll_tunnel_creation _ _ _ Ht1 Hs Ho).
  set (w2 := emit _ w1).
  assert (Ht2 : tunnelClient (service w2) = Some t) by exact Ht.
  assert (Hf2 : creation_fails (service w2) t resp e t').
  { destruct Hf; econstructor; eassumption. }
  destruct (createTunnel_fails _ _ _ _ _ Ht2 Hf2) as (calls & Hrun & Hcalls).
  unfold bind at 1. rewrite Hrun. cbn.
  eexists _, _. split; [reflexivity|]. cbn.
  split; [rewrite <- !app_assoc; reflexivity|].
  split.
  { repeat (apply Forall_cons; split; [reflexivity|]).
    apply Forall_app. split; [assumption|]. repeat constructor. }
  split.
  { cbn. rewrite !app_comm_cons. apply last_snoc. }
  repeat (split; [reflexivity|]).
  split; [|reflexivity].
  destruct Hf as [? ?|? ? ? ?|? ? ? ? ? ? Hcr]; try assumption.
  eapply Hcontract; eassumption.
Qed.

(** *** The blocks around the cadence and stack steps *)

Ltac total_with :=
  repeat first
    [ apply total_ret
    | apply total_bind; [ | intros ?]
    | match goal with
      | |- total (match ?x with _ => _ end) => destruct x
      end
    | progress cbv zeta
    | solve [intros ?w; eexists _, _; reflexivity] ].

Lemma poll_schedules_total resp : total (poll_schedules resp).
Proof. unfold poll_schedules. total_with. Qed.

Lemma poll_logs_total resp : total (poll_logs resp).
Proof. unfold poll_logs. total_with. Qed.

Lemma poll_cadence_total resp : total (poll_cadence resp).
Proof. unfold poll_cadence. total_with. Qed.

Lemma poll_stacks_total resp : total (poll_stacks resp).
Proof. unfold poll_stacks. total_with. Qed.

Lemma poll_logs_cadence resp : respects (same cadence_view) (poll_logs resp).
Proof. unfold poll_logs. frame_with same_leaf. Qed.

Lemma poll_stacks_cadence resp : respects (same cadence_view) (poll_stacks resp).
Proof. unfold poll_stacks. frame_with same_leaf. Qed.

Lemma poll_tunnel_stacks resp : respects (same stacks_view) (poll_tunnel resp).
Proof. unfold poll_tunnel, createTunnel, resetActivityTimer. frame_with same_leaf. Qed.

Lemma poll_schedules_stacks resp : respects (same stacks_view) (poll_schedules resp).
Proof. unfold poll_schedules. frame_with same_leaf. Qed.

Lemma poll_logs_stacks resp : respects (same stacks_view) (poll_logs resp).
Proof. unfold poll_logs. frame_with same_leaf. Qed.

Lemma poll_cadence_stacks resp : respects (same stacks_view) (poll_cadence resp).
Proof. unfold poll_cadence. frame_with same_leaf. Qed.

Lemma poll_converge_tunnel resp : respects (same tunnel_view) (poll_converge resp).
Proof.
  unfold poll_converge, poll_schedules, poll_logs, poll_cadence, poll_stacks.
  frame_with same_leaf.
Qed.

(** The tunnel block ends in the error [tunnel_error] names, and leaves the
    cadence and the stack calls as they were. *)
Lemma wp_poll_tunnel resp w (Q : option error -> World -> Prop) :
  (forall w', cadence_view w' = cadence_view w ->
              stacks_view w' = stacks_view w ->
              Q (tunnel_error resp (service w)) w') ->
  wp (poll_tunnel resp) w Q.
Proof.
  intros HQ. destruct (poll_tunnel_Done resp w) as (w' & E).
  unfold wp. rewrite E. apply HQ.
  - exact (respects_done _ _ _ _ _ (poll_tunnel_cadence resp) E).
  - exact (respects_done _ _ _ _ _ (poll_tunnel_stacks resp) E).
Qed.

Lemma checkin_changes_cadence resp w w' :
  cadence_view w' = cadence_view w ->
  checkin_changes resp (service w') = checkin_changes resp (service w).
Proof. unfold cadence_view, checkin_changes. intros [= -> _ _]. reflexivity. Qed.

(** The cadence step, exactly. *)
Lemma poll_cadence_run resp w :
  poll_cadence resp w =
  Done tt
    (if checkin_changes resp (service w) then
       set_goroutines (goroutines w ++ [RestartStatusPollLoop])
         (emit (CallSetTimeout
                  (Duration_mul (Duration_of_float64 (CheckinInterval resp)) Second))
            (with_service
               (fun s => set_portainerClient
                           (SetTimeout
                              (Duration_mul (Duration_of_float64 (CheckinInterval resp)) Second)
                              (portainerClient s))
                           (set_pollIntervalInSeconds (CheckinInterval resp) s))
               (emit (Log DEBUG "updating poll interval") w)))
     else w).
Proof.
  unfold poll_cadence, bind, getService.
  destruct (checkin_changes resp (service w)); reflexivity.
Qed.

Lemma poll_cadence_effects w resp c' :
  GetEnvironmentStatus (portainerClient (service w)) = (Ok resp, c') ->
  exists r w',
    poll w = Done r w'
    /\ cadence_view w' =
       if checkin_changes resp (service w)
          && bool_decide (tunnel_error resp (service w) = None)
       then (CheckinInterval resp,
             SetTimeout_calls (trace w) ++ [new_timeout resp],
             goroutines w ++ [RestartStatusPollLoop])
       else cadence_view w.
Proof.
  intros Hfetch. apply wp_done. unfold wp.
  rewrite (poll_after_fetch _ _ _ Hfetch).
  set (w0 := emit _ _).
  assert (H0 : cadence_view w0 = cadence_view w).
  { unfold cadence_view, w0, SetTimeout_calls. cbn. rewrite !omap_app. cbn.
    now rewrite !app_nil_r. }
  change (wp (bind (poll_tunnel resp)
                (fun err => match err with
                            | Some e => ret (Some e)
                            | None => poll_converge resp
                            end)) w0
            (fun _ w' => cadence_view w' =
               if checkin_changes resp (service w)
                  && bool_decide (tunnel_error resp (service w) = None)
               then (CheckinInterval resp,
                     SetTimeout_calls (trace w) ++ [new_timeout resp],
                     goroutines w ++ [RestartStatusPollLoop])
               else cadence_view w)).
  apply wp_bind, wp_poll_tunnel. intros w1 H1 _.
  change (tunnel_error resp (service w0)) with (tunnel_error resp (service w)).
  destruct (tunnel_error resp (service w)) as [e|]; cbn [bool_decide].
  { apply wp_ret. rewrite andb_false_r. congruence. }
  rewrite andb_true_r. unfold poll_converge.
  apply wp_bind, (wp_frame _ _ _ _ (poll_schedules_total resp) (poll_schedules_cadence resp)).
  intros _ w2 H2.
  apply wp_bind, (wp_frame _ _ _ _ (poll_logs_total resp) (poll_logs_cadence resp)).
  intros _ w3 H3.
  assert (H30 : cadence_view w3 = cadence_view w) by (unfold same in *; congruence).
  apply wp_bind. unfold wp at 1. rewrite poll_cadence_run.
  rewrite (checkin_changes_cadence _ _ _ H30).
  apply (wp_frame _ _ _ _ (poll_stacks_total resp) (poll_stacks_cadence resp)).
  intros r w5 H5. unfold same in H5. rewrite H5.
  destruct (checkin_changes resp (service w)); [|assumption].
  unfold cadence_view in *. cbn. injection H30 as _ Hc Hg.
  unfold SetTimeout_calls in *. rewrite !omap_app. cbn. rewrite app_nil_r.
  now rewrite Hc, Hg.
Qed.

(** The stack step, exactly as far as the calls go. *)
Lemma poll_stacks_calls resp w :
  exists r w',
    poll_stacks resp w = Done r w'
    /\ stacks_view w' =
       stacks_view w ++ match Stacks resp with
                        | Some stacks => [stacks_map stacks]
                        | None => []
                        end.
Proof.
  unfold poll_stacks, stacks_view, UpdateStacksStatus_calls.
  destruct (Stacks resp) as [stacks|].
  - unfold bind, edgeStackManager_UpdateStacksStatus.
    destruct (UpdateStacksStatus _ _) as [[e|] m']; cbn;
      eexists _, _; (split; [reflexivity|]); cbn;
      rewrite !omap_app; cbn; now rewrite ?app_nil_r.
  - eexists _, _. split; [reflexivity|]. now rewrite app_nil_r.
Qed.

Lemma poll_stack_calls w resp c' :
  GetEnvironmentStatus (portainerClient (service w)) = (Ok resp, c') ->
  exists r w',
    poll w = Done r w'
    /\ stacks_view w' =
       stacks_view w ++ match tunnel_error resp (service w), Stacks resp with
                        | None, Some stacks => [stacks_map stacks]
                        | _, _ => []
                        end.
Proof.
  intros Hfetch. apply wp_done. unfold wp.
  rewrite (poll_after_fetch _ _ _ Hfetch).
  set (w0 := emit _ _).
  assert (H0 : stacks_view w0 = stacks_view w).
  { unfold stacks_view, w0, UpdateStacksStatus_calls. cbn. rewrite !omap_app. cbn.
    now rewrite !app_nil_r. }
  change (wp (bind (poll_tunnel resp)
                (fun err => match err with
                            | Some e => ret (Some e)
                            | None => poll_converge resp
                            end)) w0
            (fun _ w' => stacks_view w' =
               stacks_view w ++ match tunnel_error resp (service w), Stacks resp with
                                | None, Some stacks => [stacks_map stacks]
                                | _, _ => []
                                end)).
  apply wp_bind, wp_poll_tunnel. intros w1 _ H1.
  change (tunnel_error resp (service w0)) with (tunnel_error resp (service w)).
  destruct (tunnel_error resp (service w)) as [e|].
  { apply wp_ret. rewrite app_nil_r. congruence. }
  unfold poll_converge.
  apply wp_bind, (wp_frame _ _ _ _ (poll_schedules_total resp) (poll_schedules_stacks resp)).
  intros _ w2 H2.
  apply wp_bind, (wp_frame _ _ _ _ (poll_logs_total resp) (poll_logs_stacks resp)).
  intros _ w3 H3.
  apply wp_bind, (wp_frame _ _ _ _ (poll_cadence_total resp) (poll_cadence_stacks resp)).
  intros _ w4 H4.
  apply wp_done. destruct (poll_stacks_calls resp w4) as (r & w5 & E & H5).
  exists r, w5. split; [assumption|]. rewrite H5. unfold same in *.
  f_equal. congruence.
Qed.

(** [stacks_map] entry by entry. *)
Lemma foldl_stacks_lookup (stacks : list StackStatus) (m : gmap Z Z) (id : Z) :
  foldl (fun m st => <[Stack_ID st := Stack_Version st]> m) m stacks !! id =
  match last_version id stacks with
  | Some v => Some v
  | None => m !! id
  end.
Proof.
  revert m. induction stacks as [|st stacks IH]; intros m; [reflexivity|].
  cbn [foldl]. rewrite IH. unfold last_version.
  rewrite filter_cons. destruct (decide (Stack_ID st = id)) as [E|N].
  - destruct (filter _ stacks) as [|st' rest] eqn:F; cbn.
    + now rewrite E, lookup_insert_eq.
    + destruct (last (st' :: rest)) eqn:L; cbn; [reflexivity|].
      apply last_None in L. discriminate.
  - destruct (last (filter _ stacks)); cbn; [reflexivity|].
    now rewrite lookup_insert_ne.
Qed.

Lemma stacks_map_lookup (stacks : list StackStatus) (id : Z) :
  stacks_map stacks !! id = last_version id stacks.
Proof.
  unfold stacks_map. rewrite foldl_stacks_lookup, lookup_empty.
  now destruct (last_version id stacks).
Qed.

Lemma last_version_last (front back : list StackStatus) (b : StackStatus) :
  Stack_ID b ∉ (Stack_ID <$> back) ->
  last_version (Stack_ID b) (front ++ b :: back) = Some (Stack_Version b).
Proof.
  intros Hb. unfold last_version.
  rewrite filter_app, filter_cons_True by reflexivity.
  assert (E : filter (fun st => Stack_ID st = Stack_ID b) back = []).
  { induction back as [|x back IH]; [reflexivity|].
    rewrite fmap_cons, not_elem_of_cons in Hb. destruct Hb as [Hx Hb].
    rewrite filter_cons_False by congruence. now apply IH. }
  rewrite E, last_snoc. reflexivity.
Qed.

Lemma last_version_NoDup (stacks : list StackStatus) (st : StackStatus) :
  NoDup (Stack_ID <$> stacks) -> st ∈ stacks ->
  last_version (Stack_ID st) stacks = Some (Stack_Version st).
Proof.
  intros Hnd Hin. apply list_elem_of_split in Hin as (front & back & ->).
  apply last_version_last.
  rewrite fmap_app, fmap_cons in Hnd.
  apply NoDup_app in Hnd as (_ & _ & Hnd). now apply NoDup_cons in Hnd as [? _].
Qed.

Lemma foldl_stacks_size (stacks : list StackStatus) (m : gmap Z Z) :
  (size (foldl (fun m st => <[Stack_ID st := Stack_Version st]> m) m stacks)
   <= size m + length stacks)%nat.
Proof.
  revert m. induction stacks as [|st stacks IH]; intros m; cbn [foldl length]; [lia|].
  etransitivity; [apply IH|].
  destruct (m !! Stack_ID st) as [v|] eqn:E.
  - rewrite map_size_insert_Some by eauto. lia.
  - rewrite map_size_insert_None by assumption. lia.
Qed.

Lemma stacks_map_size_duplicate (front middle back : list StackStatus) (a b : StackStatus) :
  Stack_ID a = Stack_ID b ->
  (size (stacks_map (front ++ a :: middle ++ b :: back))
   < length (front ++ a :: middle ++ b :: back))%nat.
Proof.
  intros Hab. unfold stacks_map.
  replace (front ++ a :: middle ++ b :: back)
    with ((front ++ a :: middle) ++ b :: back) by now rewrite <- app_assoc.
  rewrite foldl_app. cbn [foldl].
  set (m := foldl _ ∅ (front ++ a :: middle)).
  assert (Hm : is_Some (m !! Stack_ID b)).
  { unfold m. rewrite foldl_stacks_lookup, <- Hab.
    assert (Hl : is_Some (last_version (Stack_ID a) (front ++ a :: middle))).
    { unfold last_version. rewrite filter_app, filter_cons_True by reflexivity.
      destruct (last (filter _ front ++ a :: filter _ middle)) eqn:L; cbn; [eauto|].
      apply last_None in L. now destruct (filter _ front). }
    destruct Hl as [v ->]. eauto. }
  eapply Nat.le_lt_trans; [apply foldl_stacks_size|].
  rewrite map_size_insert_Some by assumption.
  pose proof (foldl_stacks_size (front ++ a :: middle) ∅) as Hs. fold m in Hs.
  rewrite map_size_empty in Hs. rewrite !length_app in *. cbn [length] in *.
  lia.
Qed.

(** The one assignment to [lastActivity]. *)
Lemma resetActivityTimer_run w :
  resetActivityTimer w =
  Done tt (match tunnelClient (service w) with
           | Some t => if IsTunnelOpen t
                       then with_service (set_lastActivity (clock w)) w
                       else w
           | None => w
           end).
Proof.
  unfold resetActivityTimer, bind, getService, andM, tunnelClient_not_nil,
    tunnelClient_IsTunnelOpen, timeNow, modifyService, ret.
  destruct (tunnelClient (service w)) as [t|] eqn:Et; cbn; rewrite ?Et;
    [|reflexivity].
  destruct (IsTunnelOpen t); reflexivity.
Qed.

(** The tunnel block either leaves [lastActivity] alone or sets it to the
    clock, after one successful [CreateTunnel] that left the tunnel open. *)
Lemma poll_tunnel_lastActivity resp w :
  let w' := world_of (poll_tunnel resp w) in
  clock w' = clock w
  /\ (lastActivity (service w') = lastActivity (service w)
      \/ (lastActivity (service w') = clock w
          /\ (exists t, tunnelClient (service w') = Some t /\ IsTunnelOpen t = true)
          /\ exists config,
               CreateTunnel_calls (trace w') = CreateTunnel_calls (trace w) ++ [config])).
Proof.
  open_world w.
  unfold poll_tunnel, createTunnel, resetActivityTimer,
    andM, bind, getService, ret, logPrintf, tunnelClient_IsTunnelOpen,
    tunnelClient_CloseTunnel, tunnelClient_CreateTunnel, tunnelClient_not_nil,
    modifyService, timeNow; cbn.
  destruct tunnelClient0 as [t|]; cbn; [|auto].
  destruct (String.eqb (Status resp) "IDLE") eqn:Eidle; cbn.
  - apply String.eqb_eq in Eidle. rewrite Eidle. cbn.
    destruct (IsTunnelOpen t); cbn; [|auto].
    destruct (CloseTunnel t) as [[e|] t']; cbn; auto.
  - destruct (String.eqb (Status resp) "REQUIRED"); cbn; [|auto].
    destruct (IsTunnelOpen t); cbn; [auto|].
    destruct (DecodeString (Credentials resp)); cbn; [|auto].
    destruct (Decrypt _ _); cbn; [|auto].
    destruct (CreateTunnel _ t) as [[e|] t'] eqn:Ec; cbn; [auto|].
    destruct (IsTunnelOpen t') eqn:Eo; cbn; [|auto].
    split; [reflexivity|]. right. split; [reflexivity|].
    split; [eauto|]. eexists. unfold CreateTunnel_calls.
    rewrite !omap_app. cbn. rewrite app_nil_r. reflexivity.
Qed.

Lemma tunnel_view_inv w w' :
  tunnel_view w' = tunnel_view w ->
  lastActivity (service w') = lastActivity (service w)
  /\ tunnelClient (service w') = tunnelClient (service w)
  /\ clock w' = clock w
  /\ CreateTunnel_calls (trace w') = CreateTunnel_calls (trace w).
Proof. unfold tunnel_view. intros [= ? ? ? ?]. auto. Qed.

Lemma poll_fetch_error w e c' :
  GetEnvironmentStatus (portainerClient (service w)) = (Err e, c') ->
  poll w = Done (Some e)
             (emit CallGetEnvironmentStatus (with_service (set_portainerClient c') w)).
Proof.
  intros H. unfold poll, bind at 1, portainerClient_GetEnvironmentStatus.
  rewrite H. reflexivity.
Qed.

Lemma poll_lastActivity w :
  let w' := world_of (poll w) in
  lastActivity (service w') = lastActivity (service w)
  \/ (lastActivity (service w') = clock w
      /\ (exists t, tunnelClient (service w') = Some t /\ IsTunnelOpen t = true)
      /\ exists config,
           CreateTunnel_calls (trace w') = CreateTunnel_calls (trace w) ++ [config]).
Proof.
  cbv zeta.
  destruct (GetEnvironmentStatus (portainerClient (service w))) as [[resp|e] c'] eqn:Hf.
  2:{ rewrite (poll_fetch_error _ _ _ Hf). left. reflexivity. }
  rewrite (poll_after_fetch _ _ _ Hf).
  set (w0 := emit _ _).
  assert (H0 : tunnel_view w0 = tunnel_view w).
  { unfold tunnel_view, w0, CreateTunnel_calls. cbn. rewrite !omap_app. cbn.
    now rewrite !app_nil_r. }
  apply tunnel_view_inv in H0 as (Hla0 & Htc0 & Hck0 & Hcalls0).
  pose proof (poll_tunnel_lastActivity resp w0) as Ht. cbv zeta in Ht.
  unfold bind. clearbody w0.
  destruct (poll_tunnel resp w0) as [err w1|msg w1]; cbn [world_of] in Ht |- *;
    cbv beta iota.
  - assert (Hrest : tunnel_view
                      (world_of (match err with
                                 | Some e => ret (Some e)
                                 | None => poll_converge resp
                                 end w1)) = tunnel_view w1).
    { destruct err; [reflexivity|]. apply poll_converge_tunnel. }
    revert Hrest. generalize (world_of (match err with
                                 | Some e => ret (Some e)
                                 | None => poll_converge resp
                                 end w1)).
    intros w2 H2.
    apply tunnel_view_inv in H2 as (Hla2 & Htc2 & Hck2 & Hcalls2).
    destruct Ht as [Hck [Hsame|(Hset & Hopen & config & Hcall)]].
    + left. congruence.
    + right. rewrite Hla2, Htc2, Hcalls2. split; [congruence|].
      split; [assumption|]. exists config. congruence.
  - destruct Ht as [Hck [Hsame|(Hset & Hopen & config & Hcall)]].
    + left. congruence.
    + right. split; [congruence|]. split; [assumption|]. exists config. congruence.
Qed.
#[local] Instance quiet_preorder : PreOrder quiet.
Proof.
  split.
  - intros w. repeat split. exists 0%nat. cbn. now rewrite app_nil_r.
  - intros w1 w2 w3 (Hr1 & Hc1 & Hn1 & k1 & Hg1) (Hr2 & Hc2 & Hn2 & k2 & Hg2).
    repeat split; try congruence.
    exists (k1 + k2)%nat. rewrite Hg2, Hg1, <- app_assoc. f_equal.
    symmetry. apply replicate_add.
Qed.

Ltac quiet_leaf :=
  let w := fresh "w" in
  intros w; unfold quiet;
  cbv [portainerClient_GetEnvironmentStatus portainerClient_SetTimeout
       tunnelClient_IsTunnelOpen tunnelClient_CreateTunnel tunnelClient_CloseTunnel
       scheduleManager_Schedule logsManager_HandleReceivedLogsRequests
       edgeStackManager_UpdateStacksStatus getService modifyService logPrintf
       timeNow timeSince go ret];
  repeat match goal with
         | |- context [match ?x with _ => _ end] => destruct x
         end;
  cbn; repeat split;
  first [ exists 0%nat; cbn; now rewrite app_nil_r | exists 1%nat; reflexivity ].

Lemma poll_quiet : respects quiet poll.
Proof.
  unfold poll, poll_converge, poll_tunnel, createTunnel, resetActivityTimer,
    poll_schedules, poll_logs, poll_cadence, poll_stacks.
  frame_with quiet_leaf.
Qed.

Lemma statusPollLoop_tick_quiet : respects quiet statusPollLoop_tick.
Proof.
  unfold statusPollLoop_tick.
  apply respects_bind; [apply _|apply poll_quiet|intros ?].
  frame_with quiet_leaf.
Qed.

Lemma activityMonitoringLoop_tick_quiet : respects quiet activityMonitoringLoop_tick.
Proof. unfold activityMonitoringLoop_tick. frame_with quiet_leaf. Qed.

Lemma resetActivityTimer_quiet : respects quiet resetActivityTimer.
Proof. unfold resetActivityTimer. frame_with quiet_leaf. Qed.

(** The life cycle never assigns [lastActivity]. *)
Lemma start_lastActivity : respects (same lastActivity_view) start.
Proof.
  unfold start, startStatusPollLoop, startActivityMonitoringLoop.
  frame_with same_leaf.
Qed.

Lemma stop_lastActivity : respects (same lastActivity_view) stop.
Proof. unfold stop. frame_with same_leaf. Qed.

Lemma restartStatusPollLoop_lastActivity :
  respects (same lastActivity_view) restartStatusPollLoop.
Proof.
  unfold restartStatusPollLoop, stop, startStatusPollLoop. frame_with same_leaf.
Qed.

Lemma activityMonitoringLoop_tick_lastActivity :
  respects (same lastActivity_view) activityMonitoringLoop_tick.
Proof. unfold activityMonitoringLoop_tick. frame_with same_leaf. Qed.

(** The activity loop's tick, exactly. *)
Lemma activityMonitoringLoop_tick_zero w :
  IsZero (lastActivity (service w)) = true ->
  activityMonitoringLoop_tick w = Done tt w.
Proof.
  intros Hz. unfold activityMonitoringLoop_tick, bind, getService.
  now rewrite Hz.
Qed.

Lemma activityMonitoringLoop_tick_idle w t :
  tunnelClient (service w) = Some t ->
  IsZero (lastActivity (service w)) = false ->
  IsTunnelOpen t
  && PrimFloat.ltb (Seconds (inactivityTimeout (service w)))
                   (Seconds (Sub (clock w) (lastActivity (service w)))) = false ->
  activityMonitoringLoop_tick w =
  Done tt (emit (Log DEBUG "tunnel activity monitoring") w).
Proof.
  intros Ht Hz Hc.
  unfold activityMonitoringLoop_tick, bind, getService, timeSince, logPrintf, andM,
    tunnelClient_not_nil, tunnelClient_IsTunnelOpen, ret.
  rewrite Hz, Ht. cbn. rewrite Ht, Hc. reflexivity.
Qed.

Lemma activityMonitoringLoop_tick_close w t :
  tunnelClient (service w) = Some t ->
  IsZero (lastActivity (service w)) = false ->
  IsTunnelOpen t = true ->
  PrimFloat.ltb (Seconds (inactivityTimeout (service w)))
                (Seconds (Sub (clock w) (lastActivity (service w)))) = true ->
  exists w',
    activityMonitoringLoop_tick w = Done tt w'
    /\ CloseTunnel_calls (trace w') = CloseTunnel_calls (trace w) ++ [tt]
    /\ CreateTunnel_calls (trace w') = CreateTunnel_calls (trace w)
    /\ tunnelClient (service w') = Some (CloseTunnel t).2
    /\ lastActivity (service w') = lastActivity (service w).
Proof.
  intros Ht Hz Ho Hc.
  unfold activityMonitoringLoop_tick, bind, getService, timeSince, logPrintf, andM,
    tunnelClient_not_nil, tunnelClient_IsTunnelOpen, tunnelClient_CloseTunnel, ret.
  rewrite Hz, Ht. cbn. rewrite Ht, Ho, Hc. cbn. rewrite Ht.
  unfold CloseTunnel_calls, CreateTunnel_calls.
  destruct (CloseTunnel t) as [[e|] t']; cbn;
    eexists; (split; [reflexivity|]); cbn;
    rewrite !omap_app; cbn; rewrite ?app_nil_r; auto.
Qed.

Lemma activityMonitoringLoop_tick_creates_nothing w :
  CreateTunnel_calls (trace (world_of (activityMonitoringLoop_tick w)))
  = CreateTunnel_calls (trace w).
Proof.
  assert (H : respects (same (fun w => CreateTunnel_calls (trace w)))
                activityMonitoringLoop_tick).
  { unfold activityMonitoringLoop_tick. frame_with same_leaf. }
  apply H.
Qed.

Lemma set_clock_idem t t' w : set_clock t' (set_clock t w) = set_clock t' w.
Proof. reflexivity. Qed.

Lemma set_clock_same w : set_clock (clock w) w = w.
Proof. now destruct w. Qed.

(** Ticks of the activity loop, each at its own time, while [lastActivity]
    is zero: only the clock moves. *)
Lemma activity_ticks_zero i ticker quit (times : list Time) w :
  goroutines w !! i = Some (ActivityMonitoringLoop ticker quit) ->
  IsZero (lastActivity (service w)) = true ->
  run (flat_map (fun t => [Advance t; Tick i]) times) w
  = Some (set_clock (default (clock w) (last times)) w).
Proof.
  intros Hg Hz. revert w Hg Hz.
  induction times as [|t times IH]; intros w Hg Hz.
  - cbn. now rewrite set_clock_same.
  - cbn [flat_map app run perform].
    change (goroutines (set_clock t w)) with (goroutines w). rewrite Hg.
    rewrite activityMonitoringLoop_tick_zero by exact Hz.
    rewrite IH by assumption. f_equal.
    rewrite set_clock_idem. f_equal.
    destruct times as [|t' times]; [reflexivity|].
    rewrite last_cons_cons.
    destruct (last (t' :: times)) eqn:L; [reflexivity|].
    apply last_None in L. discriminate.
Qed.

(** The life cycle, exactly. *)
Lemma start_started w :
  refreshSignal (service w) <> None -> start w = Done None w.
Proof.
  intros H. unfold start, bind, getService.
  destruct (refreshSignal (service w)); [reflexivity|congruence].
Qed.

Lemma stop_stopped w :
  refreshSignal (service w) = None -> stop w = Done None w.
Proof. intros H. unfold stop, bind, getService. now rewrite H. Qed.

Lemma stop_run w c :
  refreshSignal (service w) = Some c -> c ∉ closed w ->
  stop w = Done None (with_service (set_refreshSignal None)
                        (set_closed ({[c]} ∪ closed w) w)).
Proof.
  intros H Hc. unfold stop, bind, getService, closeChan. rewrite H.
  destruct (decide (c ∈ closed w)); [contradiction|reflexivity].
Qed.

Lemma startStatusPollLoop_run w :
  0 < ticker_period (service w) ->
  startStatusPollLoop w =
  Done None
    (set_goroutines
       (goroutines w
        ++ [StatusPollLoop (ticker_period (service w)) (refreshSignal (service w))])
       (emit (Log DEBUG "starting Portainer short-polling client") w)).
Proof.
  intros Hp. unfold startStatusPollLoop, bind, getService, logPrintf, timeNewTicker.
  fold (ticker_period (service w)).
  destruct (ticker_period (service w) <=? 0) eqn:E; [lia|reflexivity].
Qed.

Lemma startStatusPollLoop_inv w r w' :
  startStatusPollLoop w = Done r w' ->
  0 < ticker_period (service w)
  /\ w' = set_goroutines
            (goroutines w
             ++ [StatusPollLoop (ticker_period (service w)) (refreshSignal (service w))])
            (emit (Log DEBUG "starting Portainer short-polling client") w).
Proof.
  intros H. destruct (Z.ltb_spec 0 (ticker_period (service w))) as [Hp|Hp].
  - rewrite (startStatusPollLoop_run _ Hp) in H. now inversion H.
  - exfalso. revert H.
    unfold startStatusPollLoop, bind, getService, logPrintf, timeNewTicker.
    fold (ticker_period (service w)).
    destruct (ticker_period (service w) <=? 0) eqn:E; [discriminate|lia].
Qed.

Lemma startActivityMonitoringLoop_run w :
  startActivityMonitoringLoop w =
  Done tt
    (if tunnelClient_not_nil (service w) then
       set_goroutines
         (goroutines w
          ++ [ActivityMonitoringLoop tunnelActivityCheckInterval (next_chan w)])
         (emit (Log DEBUG "starting activity monitoring loop")
            (set_next_chan (S (next_chan w)) w))
     else w).
Proof.
  unfold startActivityMonitoringLoop, bind, getService.
  destruct (tunnelClient_not_nil (service w)); reflexivity.
Qed.

Lemma start_run w :
  refreshSignal (service w) = None ->
  0 < ticker_period (service w) ->
  exists w',
    start w = Done None w'
    /\ service w' = set_refreshSignal (Some (next_chan w)) (service w)
    /\ goroutines w' = goroutines w ++ launched_by_start (service w) (next_chan w)
    /\ closed w' = closed w
    /\ clock w' = clock w
    /\ (next_chan w < next_chan w')%nat.
Proof.
  intros Hs Hp. unfold start, bind at 1, getService. rewrite Hs.
  unfold bind at 1, makeChan. unfold bind at 1, modifyService.
  unfold bind at 1. rewrite startStatusPollLoop_run by exact Hp.
  unfold bind at 1. rewrite startActivityMonitoringLoop_run. cbn.
  unfold launched_by_start, ticker_period.
  change (tunnelClient_not_nil (set_refreshSignal (Some (next_chan w)) (service w)))
    with (tunnelClient_not_nil (service w)).
  destruct (tunnelClient_not_nil (service w)); cbn;
    eexists; (split; [reflexivity|]); cbn; rewrite <- ?app_assoc;
    repeat split; auto.
Qed.

Lemma start_inv w r w' :
  start w = Done r w' ->
  (refreshSignal (service w) <> None /\ w' = w)
  \/ (refreshSignal (service w) = None
      /\ closed w' = closed w
      /\ refreshSignal (service w') = Some (next_chan w)
      /\ (next_chan w < next_chan w')%nat
      /\ exists tk extra,
           goroutines w' = goroutines w ++ StatusPollLoop tk (Some (next_chan w)) :: extra
           /\ Forall (fun g => is_poll_loop g = false) extra).
Proof.
  intros H. destruct (refreshSignal (service w)) as [c|] eqn:Hs.
  - left. rewrite start_started in H by congruence. now inversion H.
  - right. split; [reflexivity|].
    destruct (Z.ltb_spec 0 (ticker_period (service w))) as [Hp|Hp].
    + destruct (start_run w Hs Hp) as (w1 & E & Hsv & Hg & Hc & _ & Hn).
      rewrite E in H. inversion H; subst. rewrite Hsv, Hg.
      repeat split; [assumption..|]. unfold launched_by_start.
      eexists _, _. split; [reflexivity|].
      destruct (tunnelClient_not_nil (service w)); repeat constructor.
    + exfalso. revert H. unfold start, bind at 1, getService. rewrite Hs.
      unfold bind at 1, makeChan. unfold bind at 1, modifyService. unfold bind at 1.
      destruct (startStatusPollLoop _) as [r1 w1|msg w1] eqn:E; [|discriminate].
      apply startStatusPollLoop_inv in E as [Hp' _]. cbn in Hp'.
      unfold ticker_period in *. cbn in Hp'. lia.
Qed.

Lemma stop_inv w r w' :
  stop w = Done r w' ->
  goroutines w' = goroutines w
  /\ next_chan w' = next_chan w
  /\ refreshSignal (service w') = None
  /\ closed w' = match refreshSignal (service w) with
                 | Some c => {[c]} ∪ closed w
                 | None => closed w
                 end.
Proof.
  intros H. destruct (refreshSignal (service w)) as [c|] eqn:Hs.
  - destruct (decide (c ∈ closed w)) as [Hc|Hc].
    + exfalso. revert H. unfold stop, bind, getService, closeChan. rewrite Hs.
      destruct (decide (c ∈ closed w)); [discriminate|contradiction].
    + rewrite (stop_run _ _ Hs Hc) in H. inversion H; subst. auto.
  - rewrite stop_stopped in H by assumption. inversion H; subst. auto.
Qed.

Lemma restartStatusPollLoop_inv w w' :
  restartStatusPollLoop w = Done tt w' ->
  refreshSignal (service w') = Some (next_chan w)
  /\ next_chan w' = S (next_chan w)
  /\ closed w' = match refreshSignal (service w) with
                 | Some c => {[c]} ∪ closed w
                 | None => closed w
                 end
  /\ exists tk,
       goroutines w' = goroutines w ++ [StatusPollLoop tk (Some (next_chan w))].
Proof.
  unfold restartStatusPollLoop, bind at 1.
  destruct (stop w) as [r1 w1|msg w1] eqn:E1; [|discriminate].
  apply stop_inv in E1 as (Hg & Hn & Hs & Hc).
  unfold bind at 1, makeChan. unfold bind at 1, modifyService. unfold bind at 1.
  destruct (startStatusPollLoop _) as [r2 w2|msg w2] eqn:E2; [|discriminate].
  apply startStatusPollLoop_inv in E2 as [_ ->]. cbn. intros [= <-]. cbn.
  rewrite Hn, Hc, Hg. eauto.
Qed.








Lemma bind_ret_inv {A} (m : M A) w w' :
  bind m (fun _ => ret tt) w = Done tt w' -> exists a, m w = Done a w'.
Proof.
  unfold bind, ret. destruct (m w) as [a w1|]; [|discriminate].
  intros [= <-]. eauto.
Qed.

Lemma bind_setGoroutine_inv {A} (m : M A) i g w w' :
  bind m (fun _ => setGoroutine i g) w = Done tt w' ->
  exists a w1, m w = Done a w1
               /\ w' = set_goroutines (<[i:=g]> (goroutines w1)) w1.
Proof.
  unfold bind, setGoroutine. destruct (m w) as [a w1|]; [|discriminate].
  intros [= <-]. eauto.
Qed.





(** *** The claims about one iteration *)

Lemma cadence_view_inv (w' : World) x :
  cadence_view w' = x ->
  pollIntervalInSeconds (service w') = x.1.1
  /\ SetTimeout_calls (trace w') = x.1.2
  /\ goroutines w' = x.2.
Proof. intros <-. auto. Qed.

(** C2 (amended): on a status response, when the iteration is not ended
    early by a failed creation of a required tunnel, the cadence is updated,
    [SetTimeout] is called exactly once and exactly one restart of the poll
    loop is spawned precisely when [checkinIntervalSeconds] is positive and
    differs from the current cadence; in every other case (value unchanged
    or not positive, or the iteration ended at the tunnel) none of the three
    happens. *)
Theorem poll_cadence_change w resp c' :
  GetEnvironmentStatus (portainerClient (service w)) = (Ok resp, c') ->
  exists r w',
    poll w = Done r w'
    /\ if checkin_changes resp (service w)
          && bool_decide (tunnel_error resp (service w) = None)
       then pollIntervalInSeconds (service w') = CheckinInterval resp
            /\ SetTimeout_calls (trace w') = SetTimeout_calls (trace w) ++ [new_timeout resp]
            /\ goroutines w' = goroutines w ++ [RestartStatusPollLoop]
       else pollIntervalInSeconds (service w') = pollIntervalInSeconds (service w)
            /\ SetTimeout_calls (trace w') = SetTimeout_calls (trace w)
            /\ goroutines w' = goroutines w.
Proof.
  intros Hfetch.
  destruct (poll_cadence_effects w resp c' Hfetch) as (r & w' & E & Hv).
  exists r, w'. split; [assumption|].
  apply cadence_view_inv in Hv.
  destruct (checkin_changes resp (service w)
            && bool_decide (tunnel_error resp (service w) = None)); exact Hv.
Qed.

(** C5 (amended): in an iteration that is not ended early by a failed
    creation of a required tunnel, a response without a stack list makes no
    call to the stack-status updater and a response with a list makes
    exactly one, with the map built from the list; an iteration ended at the
    tunnel makes none.  The map of the empty list is empty; in general it
    sends each id to the version of the last entry for it, which is the
    entry's own version when the ids of the list are distinct. *)
Theorem poll_stack_update w resp c' :
  GetEnvironmentStatus (portainerClient (service w)) = (Ok resp, c') ->
  (exists r w',
     poll w = Done r w'
     /\ UpdateStacksStatus_calls (trace w') =
        UpdateStacksStatus_calls (trace w)
        ++ match tunnel_error resp (service w), Stacks resp with
           | None, Some stacks => [stacks_map stacks]
           | _, _ => []
           end)
  /\ stacks_map [] = ∅
  /\ (forall stacks id, stacks_map stacks !! id = last_version id stacks)
  /\ (forall stacks st,
        NoDup (Stack_ID <$> stacks) -> st ∈ stacks ->
        stacks_map stacks !! Stack_ID st = Some (Stack_Version st)).
Proof.
  intros Hfetch. split; [exact (poll_stack_calls w resp c' Hfetch)|].
  split; [reflexivity|]. split; [exact stacks_map_lookup|].
  intros stacks st Hnd Hin. rewrite stacks_map_lookup.
  now apply last_version_NoDup.
Qed.

Lemma lookup_once (m : gmap Z Z) (id v : Z) :
  m !! id = Some v ->
  length (filter (fun kv => kv.1 = id) (map_to_list m)) = 1%nat.
Proof.
  intros Hm.
  assert (Hperm : map_to_list m ≡ₚ (id, v) :: map_to_list (delete id m)).
  { rewrite <- (insert_delete_id m id v) at 1 by assumption.
    apply map_to_list_insert, lookup_delete_eq. }
  rewrite Hperm, filter_cons_True by reflexivity. cbn [length]. f_equal.
  apply length_zero_iff_nil.
  destruct (filter _ (map_to_list (delete id m))) as [|[k x] rest] eqn:E; [reflexivity|].
  exfalso. assert (Hk : (k, x) ∈ filter (fun kv => kv.1 = id) (map_to_list (delete id m)))
    by (rewrite E; left).
  apply list_elem_of_filter in Hk as [Hid Hk]. cbn in Hid. subst k.
  apply elem_of_map_to_list in Hk. rewrite lookup_delete_eq in Hk. discriminate.
Qed.

(** C10: when the stack list of a response has two entries with the same
    id, the map handed to the stack-status updater holds that id once, with
    the version of the later entry (the last one with that id), and has
    fewer entries than the list. *)
Theorem duplicate_stack_id_keeps_later w resp c' front a middle b back :
  GetEnvironmentStatus (portainerClient (service w)) = (Ok resp, c') ->
  Stacks resp = Some (front ++ a :: middle ++ b :: back) ->
  Stack_ID a = Stack_ID b ->
  Stack_ID b ∉ (Stack_ID <$> back) ->
  let m := stacks_map (front ++ a :: middle ++ b :: back) in
  (exists r w',
     poll w = Done r w'
     /\ UpdateStacksStatus_calls (trace w') =
        UpdateStacksStatus_calls (trace w)
        ++ if bool_decide (tunnel_error resp (service w) = None) then [m] else [])
  /\ m !! Stack_ID b = Some (Stack_Version b)
  /\ length (filter (fun kv => kv.1 = Stack_ID b) (map_to_list m)) = 1%nat
  /\ (size m < length (front ++ a :: middle ++ b :: back))%nat.
Proof.
  intros Hfetch Hstacks Hab Hlast m.
  assert (Hb : m !! Stack_ID b = Some (Stack_Version b)).
  { unfold m. rewrite stacks_map_lookup.
    replace (front ++ a :: middle ++ b :: back)
      with ((front ++ a :: middle) ++ b :: back) by now rewrite <- app_assoc.
    now apply last_version_last. }
  split; [|split; [exact Hb|split; [exact (lookup_once _ _ _ Hb)|]]].
  - destruct (poll_stack_calls w resp c' Hfetch) as (r & w' & E & Hv).
    exists r, w'. split; [assumption|]. unfold stacks_view in Hv. rewrite Hv, Hstacks.
    now destruct (tunnel_error resp (service w)).
  - now apply stacks_map_size_duplicate.
Qed.

(** C9: when the status fetch fails, [poll] returns the fetch error at once:
    nothing of the service changes and no collaborator is called (the trace
    gains the fetch alone, and only the status client's own state may have
    moved); the loop around it logs the error, stays parked on its ticker
    and takes the next tick. *)
Theorem poll_fetch_failure w e c' :
  GetEnvironmentStatus (portainerClient (service w)) = (Err e, c') ->
  poll w = Done (Some e)
             (emit CallGetEnvironmentStatus (with_service (set_portainerClient c') w))
  /\ forall i ticker signal,
       goroutines w !! i = Some (StatusPollLoop ticker signal) ->
       exists w',
         perform (Tick i) w = Some (Done tt w')
         /\ trace w' = trace w ++ [CallGetEnvironmentStatus;
                                    Log ERROR "an error occured during short poll"]
         /\ service w' = set_portainerClient c' (service w)
         /\ goroutines w' =
            <[i := StatusPollLoop ticker (refreshSignal (service w))]> (goroutines w)
         /\ closed w' = closed w
         /\ next_chan w' = next_chan w
         /\ clock w' = clock w
         /\ goroutines w' !! i = Some (StatusPollLoop ticker (refreshSignal (service w)))
         /\ is_Some (perform (Tick i) w').
Proof.
  intros Hfetch. pose proof (poll_fetch_error _ _ _ Hfetch) as Hpoll.
  split; [exact Hpoll|]. intros i ticker signal Hi.
  assert (Hlook : <[i := StatusPollLoop ticker (refreshSignal (service w))]> (goroutines w) !! i
                  = Some (StatusPollLoop ticker (refreshSignal (service w)))).
  { apply list_lookup_insert_eq. eapply lookup_lt_Some. eassumption. }
  eexists. cbn [perform]. rewrite Hi.
  unfold statusPollLoop_tick. unfold bind at 1, bind at 1. rewrite Hpoll.
  unfold logPrintf, bind, getService, setGoroutine.
  split; [reflexivity|]. cbn.
  split; [now rewrite <- app_assoc|].
  repeat (split; [reflexivity|]).
  split; [exact Hlook|]. rewrite Hlook. eauto.
Qed.

(** *** The claims about the tunnel's activity *)

(** C4 (amended): whatever the service does, [lastActivity] is assigned only
    while the tunnel client is non-nil and reports the tunnel open, and the
    value is the current time.  The assignment is made by
    [resetActivityTimer] alone: called on its own, or by a poll iteration
    after the one [CreateTunnel] call of [createTunnel] succeeded.  The life
    cycle and the activity loop never assign it. *)
Theorem lastActivity_assignment a w w' :
  perform a w = Some (Done tt w') ->
  lastActivity (service w') <> lastActivity (service w) ->
  lastActivity (service w') = clock w
  /\ (exists t, tunnelClient (service w') = Some t /\ IsTunnelOpen t = true)
  /\ (a = Call_resetActivityTimer
      \/ exists i ticker signal config,
           a = Tick i
           /\ goroutines w !! i = Some (StatusPollLoop ticker signal)
           /\ CreateTunnel_calls (trace w') = CreateTunnel_calls (trace w) ++ [config]).
Proof.
  intros H Hchanged. destruct a as [| | |i|i|i|t]; cbn [perform] in H.
  - injection H as H. apply bind_ret_inv in H as [r H]. exfalso. apply Hchanged.
    exact (respects_done _ _ _ _ _ start_lastActivity H).
  - injection H as H. apply bind_ret_inv in H as [r H]. exfalso. apply Hchanged.
    exact (respects_done _ _ _ _ _ stop_lastActivity H).
  - injection H as H. rewrite resetActivityTimer_run in H. injection H as <-.
    destruct (tunnelClient (service w)) as [t|] eqn:Ht; [|contradiction].
    destruct (IsTunnelOpen t) eqn:Ho; [|contradiction].
    cbn. split; [reflexivity|]. split; [eauto|]. left. reflexivity.
  - destruct (goroutines w !! i) as [[tk signal|tk quit| |]|] eqn:Hi; try discriminate.
    + injection H as H. unfold bind at 1 in H.
      destruct (statusPollLoop_tick w) as [[] w1|] eqn:E; [|discriminate].
      unfold bind, getService, setGoroutine in H. injection H as <-.
      cbn -[CreateTunnel_calls] in Hchanged |- *.
      unfold statusPollLoop_tick, bind in E.
      pose proof (poll_lastActivity w) as Hp. cbv zeta in Hp.
      destruct (poll w) as [err w0|] eqn:Epoll; [|discriminate].
      cbn [world_of] in Hp.
      assert (Hsame : tunnel_view w1 = tunnel_view w0).
      { destruct err; injection E as <-; [|reflexivity].
        unfold tunnel_view, CreateTunnel_calls. cbn. rewrite omap_app. cbn.
        now rewrite app_nil_r. }
      apply tunnel_view_inv in Hsame as (Hla & Htc & _ & Hcalls).
      rewrite Hla in Hchanged |- *. rewrite Htc, Hcalls.
      destruct Hp as [Hp|(Hset & Hopen & config & Hcall)]; [contradiction|].
      split; [assumption|]. split; [assumption|]. right. eauto 10.
    + injection H as H. exfalso. apply Hchanged.
      exact (respects_done _ _ _ _ _ activityMonitoringLoop_tick_lastActivity H).
  - exfalso. apply Hchanged.
    destruct (goroutines w !! i) as [[tk [c|]|tk quit| |]|] eqn:Hi; try discriminate.
    + destruct (decide (c ∈ closed w)); [|discriminate]. now injection H as <-.
    + destruct (decide (quit ∈ closed w)); [|discriminate]. now injection H as <-.
  - exfalso. apply Hchanged.
    destruct (goroutines w !! i) as [[tk signal|tk quit| |]|] eqn:Hi; try discriminate.
    injection H as H. apply bind_setGoroutine_inv in H as ([] & w1 & E & ->).
    exact (respects_done _ _ _ _ _ restartStatusPollLoop_lastActivity E).
  - exfalso. apply Hchanged. now injection H as <-.
Qed.


(** C7: no tick of the activity-monitoring loop calls the tunnel client's
    create operation; and while [lastActivity] is the zero value a tick does
    nothing at all, however many ticks there are and whenever they come:
    only the clock has moved. *)
Theorem activity_loop_never_opens :
  (forall w,
     CreateTunnel_calls (trace (world_of (activityMonitoringLoop_tick w)))
     = CreateTunnel_calls (trace w))
  /\ (forall w,
        IsZero (lastActivity (service w)) = true ->
        activityMonitoringLoop_tick w = Done tt w)
  /\ (forall w i ticker quit (times : list Time),
        goroutines w !! i = Some (ActivityMonitoringLoop ticker quit) ->
        IsZero (lastActivity (service w)) = true ->
        run (flat_map (fun t => [Advance t; Tick i]) times) w
        = Some (set_clock (default (clock w) (last times)) w)).
Proof.
  split; [exact activityMonitoringLoop_tick_creates_nothing|].
  split; [exact activityMonitoringLoop_tick_zero|].
  intros w i ticker quit times. apply activity_ticks_zero.
Qed.

(** *** The claims about the life cycle *)


(** *** One iteration, stage by stage *)

#[local] Hint Unfold schedules_view tunnel_calls_view stack_manager_view : views.

Ltac view_leaf :=
  let w := fresh "w" in
  intros w; unfold same;
  cbv [portainerClient_GetEnvironmentStatus portainerClient_SetTimeout
       tunnelClient_IsTunnelOpen tunnelClient_CreateTunnel tunnelClient_CloseTunnel
       scheduleManager_Schedule logsManager_HandleReceivedLogsRequests
       edgeStackManager_UpdateStacksStatus getService modifyService logPrintf
       timeNow timeSince timeNewTicker makeChan closeChan go setGoroutine panic ret];
  repeat match goal with
         | |- context [match ?x with _ => _ end] => destruct x
         end;
  autounfold with views; cbn;
  unfold SetTimeout_calls, UpdateStacksStatus_calls, CreateTunnel_calls,
    CloseTunnel_calls, Schedule_calls, HandleReceivedLogsRequests_calls, calls;
  rewrite ?omap_app, ?filter_app; cbn; rewrite ?app_nil_r; reflexivity.

(** The stages of an iteration whose fetch succeeded: the tunnel block ends
    in [tunnel_error]; with an error the iteration ends there, without one
    the four remaining steps run to their end, in order. *)
Lemma poll_stages w resp c' :
  GetEnvironmentStatus (portainerClient (service w)) = (Ok resp, c') ->
  exists w1,
    poll_tunnel resp (fetched c' w) = Done (tunnel_error resp (service w)) w1
    /\ match tunnel_error resp (service w) with
       | Some e => poll w = Done (Some e) w1
       | None =>
           exists w2 w3 w4 r w5,
             poll_schedules resp w1 = Done tt w2
             /\ poll_logs resp w2 = Done tt w3
             /\ poll_cadence resp w3 = Done tt w4
             /\ poll_stacks resp w4 = Done r w5
             /\ poll w = Done r w5
       end.
Proof.
  intros Hfetch. rewrite (poll_after_fetch _ _ _ Hfetch). fold (fetched c' w).
  destruct (poll_tunnel_Done resp (fetched c' w)) as (w1 & E1).
  change (tunnel_error resp (service (fetched c' w)))
    with (tunnel_error resp (service w)) in E1.
  exists w1. split; [exact E1|].
  rewrite (bind_Done _ _ _ _ _ E1).
  destruct (tunnel_error resp (service w)) as [e|]; [reflexivity|].
  destruct (poll_schedules_total resp w1) as ([] & w2 & E2).
  destruct (poll_logs_total resp w2) as ([] & w3 & E3).
  destruct (poll_cadence_total resp w3) as ([] & w4 & E4).
  destruct (poll_stacks_total resp w4) as (r & w5 & E5).
  exists w2, w3, w4, r, w5. repeat (split; [assumption|]).
  unfold poll_converge.
  rewrite (bind_Done _ _ _ _ _ E2), (bind_Done _ _ _ _ _ E3), (bind_Done _ _ _ _ _ E4).
  exact E5.
Qed.

Lemma poll_tunnel_stack_manager resp :
  respects (same stack_manager_view) (poll_tunnel resp).
Proof. unfold poll_tunnel, createTunnel, resetActivityTimer. frame_with view_leaf. Qed.

Lemma poll_schedules_stack_manager resp :
  respects (same stack_manager_view) (poll_schedules resp).
Proof. unfold poll_schedules. frame_with view_leaf. Qed.

Lemma poll_logs_stack_manager resp :
  respects (same stack_manager_view) (poll_logs resp).
Proof. unfold poll_logs. frame_with view_leaf. Qed.

Lemma poll_cadence_stack_manager resp :
  respects (same stack_manager_view) (poll_cadence resp).
Proof. unfold poll_cadence. frame_with view_leaf. Qed.

Lemma poll_stacks_result resp w r w' :
  poll_stacks resp w = Done r w' ->
  r = match Stacks resp with
      | Some stacks =>
          (UpdateStacksStatus (stacks_map stacks) (edgeStackManager (service w))).1
      | None => None
      end.
Proof.
  unfold poll_stacks. destruct (Stacks resp) as [stacks|]; [|now intros [= <- _]].
  unfold bind, edgeStackManager_UpdateStacksStatus.
  destruct (UpdateStacksStatus _ _) as [[e|] m']; cbn; now intros [= <- _].
Qed.

Lemma poll_result_run w :
  exists w', poll w = Done (poll_result w) w'.
Proof.
  unfold poll_result.
  destruct (GetEnvironmentStatus (portainerClient (service w))) as [[resp|e] c'] eqn:Hfetch;
    cbn [fst].
  2: { eexists. apply (poll_fetch_error _ _ _ Hfetch). }
  destruct (poll_stages _ _ _ Hfetch) as (w1 & E1 & Hrest).
  destruct (tunnel_error resp (service w)) as [e|]; [eauto|].
  destruct Hrest as (w2 & w3 & w4 & r & w5 & E2 & E3 & E4 & E5 & E).
  exists w5. rewrite E. f_equal.
  rewrite (poll_stacks_result _ _ _ _ E5).
  pose proof (respects_done _ _ _ _ _ (poll_tunnel_stack_manager resp) E1) as H1.
  pose proof (respects_done _ _ _ _ _ (poll_schedules_stack_manager resp) E2) as H2.
  pose proof (respects_done _ _ _ _ _ (poll_logs_stack_manager resp) E3) as H3.
  pose proof (respects_done _ _ _ _ _ (poll_cadence_stack_manager resp) E4) as H4.
  unfold same, stack_manager_view in *. cbn in H1.
  now rewrite H4, H3, H2, H1.
Qed.

(** X2: [poll] never panics, and the error it returns is the error of the
    fetch, or else that of the creation of a required tunnel, or else that of
    the stack update; an error of the schedule step is never returned.  The
    tick of the poll loop logs the error that [poll] returned, if any, and
    returns, so that the loop goes on. *)
Theorem poll_returns w :
  exists w1 w',
    poll w = Done (poll_result w) w1
    /\ statusPollLoop_tick w = Done tt w'
    /\ w' = match poll_result w with
            | Some _ => emit (Log ERROR "an error occured during short poll") w1
            | None => w1
            end.
Proof.
  destruct (poll_result_run w) as (w1 & E).
  exists w1, (match poll_result w with
              | Some _ => emit (Log ERROR "an error occured during short poll") w1
              | None => w1
              end).
  split; [exact E|]. split; [|reflexivity].
  unfold statusPollLoop_tick. rewrite (bind_Done _ _ _ _ _ E).
  now destruct (poll_result w).
Qed.

(** *** The schedule and log steps *)

Lemma logsToCollect_foldl (schedules : list Schedule) (acc : list Z) :
  foldl (fun acc schedule =>
           if Schedule_CollectLogs schedule then acc ++ [Schedule_ID schedule]
           else acc) acc schedules
  = acc ++ (Schedule_ID <$> filter (fun s => Schedule_CollectLogs s = true) schedules).
Proof.
  revert acc. induction schedules as [|s l IH]; intros acc; cbn [foldl].
  - cbn. now rewrite app_nil_r.
  - rewrite IH. destruct (Schedule_CollectLogs s) eqn:E.
    + rewrite filter_cons_True by assumption. cbn. now rewrite <- app_assoc.
    + rewrite filter_cons_False by congruence. reflexivity.
Qed.

Lemma logsToCollect_filter (schedules : list Schedule) :
  logsToCollect schedules
  = Schedule_ID <$> filter (fun s => Schedule_CollectLogs s = true) schedules.
Proof. unfold logsToCollect. now rewrite logsToCollect_foldl. Qed.

Lemma poll_tunnel_schedules resp :
  respects (same schedules_view) (poll_tunnel resp).
Proof. unfold poll_tunnel, createTunnel, resetActivityTimer. frame_with view_leaf. Qed.

Lemma poll_cadence_schedules resp :
  respects (same schedules_view) (poll_cadence resp).
Proof. unfold poll_cadence. frame_with view_leaf. Qed.

Lemma poll_stacks_schedules resp :
  respects (same schedules_view) (poll_stacks resp).
Proof. unfold poll_stacks. frame_with view_leaf. Qed.

Lemma poll_schedules_view resp w w' :
  poll_schedules resp w = Done tt w' ->
  schedules_view w' =
  (Schedule_calls (trace w) ++ [Schedules resp],
   HandleReceivedLogsRequests_calls (trace w),
   (DoSchedule (Schedules resp) (scheduleManager (service w))).2,
   logsManager (service w)).
Proof.
  unfold poll_schedules, bind, scheduleManager_Schedule.
  destruct (DoSchedule _ _) as [[e|] m']; cbn; intros [= <-];
    unfold schedules_view, Schedule_calls, HandleReceivedLogsRequests_calls; cbn;
    rewrite !omap_app; cbn; now rewrite ?app_nil_r.
Qed.

Lemma poll_logs_view resp w w' :
  poll_logs resp w = Done tt w' ->
  schedules_view w' =
  (Schedule_calls (trace w),
   HandleReceivedLogsRequests_calls (trace w) ++ [logsToCollect (Schedules resp)],
   scheduleManager (service w),
   HandleReceivedLogsRequests (logsToCollect (Schedules resp)) (logsManager (service w))).
Proof.
  unfold poll_logs, logsManager_HandleReceivedLogsRequests. intros [= <-].
  unfold schedules_view, Schedule_calls, HandleReceivedLogsRequests_calls; cbn.
  rewrite !omap_app; cbn. now rewrite ?app_nil_r.
Qed.

(** What an iteration does to the schedules and the log requests. *)
Lemma poll_schedules_view_run w resp c' :
  GetEnvironmentStatus (portainerClient (service w)) = (Ok resp, c') ->
  exists r w',
    poll w = Done r w'
    /\ schedules_view w' =
       match tunnel_error resp (service w) with
       | None =>
           (Schedule_calls (trace w) ++ [Schedules resp],
            HandleReceivedLogsRequests_calls (trace w) ++ [logsToCollect (Schedules resp)],
            (DoSchedule (Schedules resp) (scheduleManager (service w))).2,
            HandleReceivedLogsRequests (logsToCollect (Schedules resp))
              (logsManager (service w)))
       | Some _ => schedules_view w
       end.
Proof.
  intros Hfetch. destruct (poll_stages _ _ _ Hfetch) as (w1 & E1 & Hrest).
  pose proof (respects_done _ _ _ _ _ (poll_tunnel_schedules resp) E1) as H1.
  assert (H0 : schedules_view (fetched c' w) = schedules_view w).
  { unfold schedules_view, Schedule_calls, HandleReceivedLogsRequests_calls. cbn.
    rewrite !omap_app. cbn. now rewrite !app_nil_r. }
  unfold same in H1. rewrite H0 in H1.
  destruct (tunnel_error resp (service w)) as [e|]; [eauto|].
  destruct Hrest as (w2 & w3 & w4 & r & w5 & E2 & E3 & E4 & E5 & E).
  exists r, w5. split; [assumption|].
  rewrite (respects_done _ _ _ _ _ (poll_stacks_schedules resp) E5).
  rewrite (respects_done _ _ _ _ _ (poll_cadence_schedules resp) E4).
  rewrite (poll_logs_view _ _ _ E3).
  pose proof (poll_schedules_view _ _ _ E2) as H2.
  unfold schedules_view in H1, H2.
  injection H2 as -> -> -> ->. injection H1 as -> -> -> ->. reflexivity.
Qed.

(** X3: in an iteration that is not ended by the fetch or by the creation of
    a required tunnel, [Schedule] is called exactly once, with the schedules of
    the response, and [HandleReceivedLogsRequests] exactly once, with the ids
    of the schedules whose [CollectLogs] is set, in the order of the response;
    both managers are left as these calls leave them, whether or not
    [Schedule] returned an error.  An iteration ended at the tunnel step makes
    neither call. *)
Theorem poll_schedules_and_logs w resp c' :
  GetEnvironmentStatus (portainerClient (service w)) = (Ok resp, c') ->
  let ids := Schedule_ID <$> filter (fun s => Schedule_CollectLogs s = true)
                                    (Schedules resp) in
  exists r w',
    poll w = Done r w'
    /\ match tunnel_error resp (service w) with
       | None =>
           Schedule_calls (trace w') = Schedule_calls (trace w) ++ [Schedules resp]
           /\ HandleReceivedLogsRequests_calls (trace w') =
              HandleReceivedLogsRequests_calls (trace w) ++ [ids]
           /\ scheduleManager (service w') =
              (DoSchedule (Schedules resp) (scheduleManager (service w))).2
           /\ logsManager (service w') =
              HandleReceivedLogsRequests ids (logsManager (service w))
       | Some _ =>
           Schedule_calls (trace w') = Schedule_calls (trace w)
           /\ HandleReceivedLogsRequests_calls (trace w') =
              HandleReceivedLogsRequests_calls (trace w)
           /\ scheduleManager (service w') = scheduleManager (service w)
           /\ logsManager (service w') = logsManager (service w)
       end.
Proof.
  intros Hfetch ids. subst ids. rewrite <- logsToCollect_filter.
  destruct (poll_schedules_view_run _ _ _ Hfetch) as (r & w' & E & H).
  exists r, w'. split; [assumption|].
  unfold schedules_view in H.
  destruct (tunnel_error resp (service w)); injection H as -> -> -> ->; auto.
Qed.

(** *** The tunnel block, case by case *)

Lemma poll_converge_tunnel_calls resp :
  respects (same tunnel_calls_view) (poll_converge resp).
Proof.
  unfold poll_converge, poll_schedules, poll_logs, poll_cadence, poll_stacks.
  frame_with view_leaf.
Qed.

Ltac open_tunnel_block :=
  unfold poll_tunnel, createTunnel, resetActivityTimer, tunnelConfig_of,
    andM, bind, getService, ret, logPrintf, tunnelClient_IsTunnelOpen,
    tunnelClient_CloseTunnel, tunnelClient_CreateTunnel, tunnelClient_not_nil,
    modifyService, timeNow in *.

Lemma poll_tunnel_closes resp w t :
  tunnelClient (service w) = Some t ->
  Status resp = "IDLE" ->
  IsTunnelOpen t = true ->
  exists w',
    poll_tunnel resp w = Done None w'
    /\ tunnel_calls_view w' =
       (CreateTunnel_calls (trace w), CloseTunnel_calls (trace w) ++ [tt],
        Some (CloseTunnel t).2, lastActivity (service w)).
Proof.
  intros Ht Hs Ho. open_world w. subst. open_tunnel_block. cbn.
  rewrite Hs. cbn. rewrite Ho. cbn.
  destruct (CloseTunnel t) as [[e|] t']; cbn;
    (eexists; split; [reflexivity|]);
    unfold tunnel_calls_view, CreateTunnel_calls, CloseTunnel_calls; cbn;
    rewrite !omap_app; cbn; now rewrite ?app_nil_r.
Qed.

Lemma poll_tunnel_creates resp w t decoded credentials t' :
  tunnelClient (service w) = Some t ->
  Status resp = "REQUIRED" ->
  IsTunnelOpen t = false ->
  DecodeString (Credentials resp) = Ok decoded ->
  Decrypt decoded (String.list_byte_of_string (edgeID (service w))) = Ok credentials ->
  CreateTunnel (tunnelConfig_of (service w) credentials (Port resp)) t = (None, t') ->
  exists w',
    poll_tunnel resp w = Done None w'
    /\ tunnel_calls_view w' =
       (CreateTunnel_calls (trace w)
        ++ [tunnelConfig_of (service w) credentials (Port resp)],
        CloseTunnel_calls (trace w), Some t',
        if IsTunnelOpen t' then clock w else lastActivity (service w)).
Proof.
  intros Ht Hs Ho Hd Hc Hcr. open_world w. subst. open_tunnel_block. cbn in *.
  rewrite Hs. cbn. rewrite Ho. cbn. rewrite Hd, Hc. cbn. rewrite Hcr. cbn.
  destruct (IsTunnelOpen t'); cbn;
    (eexists; split; [reflexivity|]);
    unfold tunnel_calls_view, CreateTunnel_calls, CloseTunnel_calls; cbn;
    rewrite !omap_app; cbn; now rewrite ?app_nil_r.
Qed.

Lemma poll_tunnel_nothing resp w :
  closes_tunnel resp (service w) = false ->
  opens_tunnel resp (service w) = false ->
  poll_tunnel resp w = Done None w.
Proof.
  intros Hc Ho. open_world w. unfold closes_tunnel, opens_tunnel in *.
  open_tunnel_block. cbn in *.
  destruct tunnelClient0 as [t|]; [|reflexivity]. cbn.
  destruct (String.eqb (Status resp) "IDLE"); cbn in *; rewrite ?Hc; cbn;
    destruct (String.eqb (Status resp) "REQUIRED"); cbn in *; try reflexivity;
    destruct (IsTunnelOpen t); cbn in *; congruence || reflexivity.
Qed.

(** After the tunnel block nothing that concerns the tunnel changes. *)
Lemma poll_tunnel_view_run w resp c' :
  GetEnvironmentStatus (portainerClient (service w)) = (Ok resp, c') ->
  exists w1 r w',
    poll_tunnel resp (fetched c' w) = Done (tunnel_error resp (service w)) w1
    /\ poll w = Done r w'
    /\ tunnel_calls_view w' = tunnel_calls_view w1.
Proof.
  intros Hfetch. destruct (poll_stages _ _ _ Hfetch) as (w1 & E1 & Hrest).
  exists w1. destruct (tunnel_error resp (service w)) as [e|]; [eauto|].
  destruct Hrest as (w2 & w3 & w4 & r & w5 & E2 & E3 & E4 & E5 & E).
  exists r, w5. repeat (split; [assumption|]).
  assert (Hc : poll_converge resp w1 = Done r w5).
  { unfold poll_converge.
    rewrite (bind_Done _ _ _ _ _ E2), (bind_Done _ _ _ _ _ E3), (bind_Done _ _ _ _ _ E4).
    exact E5. }
  exact (respects_done _ _ _ _ _ (poll_converge_tunnel_calls resp) Hc).
Qed.

Lemma fetched_tunnel_calls c' w :
  tunnel_calls_view (fetched c' w) = tunnel_calls_view w.
Proof.
  unfold tunnel_calls_view, CreateTunnel_calls, CloseTunnel_calls. cbn.
  rewrite !omap_app. cbn. now rewrite !app_nil_r.
Qed.

Lemma tunnel_calls_view_inv (w' : World) x :
  tunnel_calls_view w' = x ->
  CreateTunnel_calls (trace w') = x.1.1.1
  /\ CloseTunnel_calls (trace w') = x.1.1.2
  /\ tunnelClient (service w') = x.1.2
  /\ lastActivity (service w') = x.2.
Proof. intros <-. now repeat split. Qed.

Lemma poll_deterministic w (r r' : option error) w1 w2 :
  poll w = Done r w1 -> poll w = Done r' w2 -> r = r' /\ w1 = w2.
Proof. intros -> [= -> ->]. now split. Qed.

(** X4: when the status is IDLE and the tunnel is open, the iteration calls
    [CloseTunnel] exactly once and [CreateTunnel] not at all, leaves the tunnel
    client as the close call left it and [lastActivity] as it was; whether or
    not the close call returned an error, the iteration goes on to the
    schedules, and its result is that of the stack step. *)
Theorem poll_idle_closes_tunnel w resp c' t :
  GetEnvironmentStatus (portainerClient (service w)) = (Ok resp, c') ->
  tunnelClient (service w) = Some t ->
  Status resp = "IDLE" ->
  IsTunnelOpen t = true ->
  exists r w',
    poll w = Done r w'
    /\ CloseTunnel_calls (trace w') = CloseTunnel_calls (trace w) ++ [tt]
    /\ CreateTunnel_calls (trace w') = CreateTunnel_calls (trace w)
    /\ tunnelClient (service w') = Some (CloseTunnel t).2
    /\ lastActivity (service w') = lastActivity (service w)
    /\ Schedule_calls (trace w') = Schedule_calls (trace w) ++ [Schedules resp]
    /\ r = match Stacks resp with
           | Some stacks =>
               (UpdateStacksStatus (stacks_map stacks) (edgeStackManager (service w))).1
           | None => None
           end.
Proof.
  intros Hfetch Ht Hs Ho.
  assert (Hnone : tunnel_error resp (service w) = None).
  { unfold tunnel_error. rewrite Ht, Hs. reflexivity. }
  destruct (poll_tunnel_view_run _ _ _ Hfetch) as (w1 & r & w' & E1 & E & Hv).
  destruct (poll_tunnel_closes resp (fetched c' w) t Ht Hs Ho) as (w1' & E1' & Hv1).
  rewrite E1 in E1'. injection E1' as _ <-.
  rewrite Hv1, <- Hv in *.
  destruct (poll_schedules_view_run _ _ _ Hfetch) as (r2 & w2 & E2 & Hsv).
  destruct (poll_deterministic _ _ _ _ _ E E2) as [<- <-].
  destruct (poll_result_run w) as (w3 & E3).
  destruct (poll_deterministic _ _ _ _ _ E E3) as [Hr <-].
  exists r, w'. split; [assumption|].
  apply tunnel_calls_view_inv in Hv. cbn in Hv.
  destruct Hv as (Hcr & Hcl & Htc & Hla).
  pose proof (fetched_tunnel_calls c' w) as Hf.
  apply tunnel_calls_view_inv in Hf. cbn in Hf. destruct Hf as (Hf1 & Hf2 & _ & _).
  rewrite Hcl, Hcr, Htc, Hla, Hf1, Hf2. repeat (split; [reflexivity|]).
  split.
  - rewrite Hnone in Hsv. unfold schedules_view in Hsv. now injection Hsv.
  - rewrite Hr. unfold poll_result. rewrite Hfetch. cbn [fst]. now rewrite Hnone.
Qed.

(** X5: when the status is REQUIRED, the tunnel is closed and the
    credentials decode and decrypt, the iteration calls [CreateTunnel] exactly
    once, with the server address and fingerprint of the service, the
    decrypted credentials, the port of the response in decimal and the API
    server address as local address; when the call returns no error the
    iteration goes on to the schedules, and [lastActivity] becomes the current
    time if the tunnel client now reports the tunnel open and is left as it
    was if not. *)
Theorem poll_required_creates_tunnel w resp c' t decoded credentials t' :
  GetEnvironmentStatus (portainerClient (service w)) = (Ok resp, c') ->
  tunnelClient (service w) = Some t ->
  Status resp = "REQUIRED" ->
  IsTunnelOpen t = false ->
  DecodeString (Credentials resp) = Ok decoded ->
  Decrypt decoded (String.list_byte_of_string (edgeID (service w))) = Ok credentials ->
  CreateTunnel (tunnelConfig_of (service w) credentials (Port resp)) t = (None, t') ->
  exists r w',
    poll w = Done r w'
    /\ CreateTunnel_calls (trace w') =
       CreateTunnel_calls (trace w)
       ++ [{| ServerAddr := tunnelServerAddr (service w);
              ServerFingerpint := tunnelServerFingerprint (service w);
              TunnelCredentials := String.string_of_list_byte credentials;
              RemotePort := pretty (Port resp);
              LocalAddr := apiServerAddr (service w) |}]
    /\ CloseTunnel_calls (trace w') = CloseTunnel_calls (trace w)
    /\ tunnelClient (service w') = Some t'
    /\ lastActivity (service w') =
       (if IsTunnelOpen t' then clock w else lastActivity (service w))
    /\ Schedule_calls (trace w') = Schedule_calls (trace w) ++ [Schedules resp].
Proof.
  intros Hfetch Ht Hs Ho Hd Hc Hcr.
  assert (Hnone : tunnel_error resp (service w) = None).
  { unfold tunnel_error. rewrite Ht, Hs, Ho, Hd, Hc, Hcr. reflexivity. }
  destruct (poll_tunnel_view_run _ _ _ Hfetch) as (w1 & r & w' & E1 & E & Hv).
  destruct (poll_tunnel_creates resp (fetched c' w) t _ _ _ Ht Hs Ho Hd Hc Hcr)
    as (w1' & E1' & Hv1).
  rewrite E1 in E1'. injection E1' as _ <-.
  rewrite Hv1, <- Hv in *.
  destruct (poll_schedules_view_run _ _ _ Hfetch) as (r2 & w2 & E2 & Hsv).
  destruct (poll_deterministic _ _ _ _ _ E E2) as [<- <-].
  exists r, w'. split; [assumption|].
  apply tunnel_calls_view_inv in Hv. cbn in Hv.
  destruct Hv as (Hcr' & Hcl & Htc & Hla).
  pose proof (fetched_tunnel_calls c' w) as Hf.
  apply tunnel_calls_view_inv in Hf. cbn in Hf. destruct Hf as (Hf1 & Hf2 & _ & _).
  rewrite Hcl, Hcr', Htc, Hla, Hf1, Hf2. repeat (split; [reflexivity|]).
  rewrite Hnone in Hsv. unfold schedules_view in Hsv. now injection Hsv.
Qed.

(** X6: an iteration touches the tunnel only on the two occasions of the
    code: without a tunnel client, with a status other than IDLE and REQUIRED,
    with IDLE while the tunnel is closed, or with REQUIRED while it is open,
    the iteration calls neither [CreateTunnel] nor [CloseTunnel] and leaves
    the tunnel client and [lastActivity] as they were.  The two occasions
    exclude each other. *)
Theorem poll_leaves_tunnel_alone w resp c' :
  GetEnvironmentStatus (portainerClient (service w)) = (Ok resp, c') ->
  closes_tunnel resp (service w) = false ->
  opens_tunnel resp (service w) = false ->
  (exists r w',
     poll w = Done r w'
     /\ CreateTunnel_calls (trace w') = CreateTunnel_calls (trace w)
     /\ CloseTunnel_calls (trace w') = CloseTunnel_calls (trace w)
     /\ tunnelClient (service w') = tunnelClient (service w)
     /\ lastActivity (service w') = lastActivity (service w))
  /\ forall resp' s,
       closes_tunnel resp' s && opens_tunnel resp' s = false.
Proof.
  intros Hfetch Hc Ho. split.
  - destruct (poll_tunnel_view_run _ _ _ Hfetch) as (w1 & r & w' & E1 & E & Hv).
    rewrite (poll_tunnel_nothing resp (fetched c' w) Hc Ho) in E1.
    injection E1 as _ <-. rewrite fetched_tunnel_calls in Hv.
    exists r, w'. split; [assumption|].
    apply tunnel_calls_view_inv in Hv. cbn in Hv. tauto.
  - intros resp' s. unfold closes_tunnel, opens_tunnel.
    destruct (tunnelClient s) as [t0|]; [|reflexivity].
    destruct (String.eqb (Status resp') "IDLE") eqn:Ei; [|reflexivity].
    apply String.eqb_eq in Ei. rewrite Ei. now destruct (IsTunnelOpen t0).
Qed.

(** *** The calls of an iteration, in order *)

Lemma calls_app (t t' : list Event) : calls (t ++ t') = calls t ++ calls t'.
Proof. apply filter_app. Qed.

Lemma poll_tunnel_calls resp w :
  exists w',
    poll_tunnel resp w = Done (tunnel_error resp (service w)) w'
    /\ calls (trace w') = calls (trace w) ++ tunnel_calls resp (service w).
Proof.
  open_world w. unfold tunnel_error, tunnel_calls, closes_tunnel, opens_tunnel.
  open_tunnel_block. cbn -[calls].
  destruct tunnelClient0 as [t|]; cbn -[calls].
  2: { eexists. split; [reflexivity|]. now rewrite app_nil_r. }
  destruct (String.eqb (Status resp) "IDLE") eqn:Eidle; cbn -[calls].
  - apply String.eqb_eq in Eidle. rewrite Eidle. cbn -[calls].
    destruct (IsTunnelOpen t); cbn -[calls].
    + destruct (CloseTunnel t) as [[e|] t']; cbn -[calls];
        (eexists; split; [reflexivity|]); cbn -[calls];
        rewrite !calls_app; cbn; now rewrite ?app_nil_r.
    + eexists. split; [reflexivity|]. now rewrite app_nil_r.
  - destruct (String.eqb (Status resp) "REQUIRED"); cbn -[calls].
    2: { eexists. split; [reflexivity|]. now rewrite app_nil_r. }
    destruct (IsTunnelOpen t); cbn -[calls].
    { eexists. split; [reflexivity|]. now rewrite app_nil_r. }
    destruct (DecodeString (Credentials resp)); cbn -[calls].
    2: { eexists. split; [reflexivity|]. cbn -[calls]. rewrite !calls_app. cbn.
         now rewrite !app_nil_r. }
    destruct (Decrypt _ _); cbn -[calls].
    2: { eexists. split; [reflexivity|]. cbn -[calls]. rewrite !calls_app. cbn.
         now rewrite !app_nil_r. }
    destruct (CreateTunnel _ t) as [[e|] t']; cbn -[calls].
    { eexists. split; [reflexivity|]. cbn -[calls]. rewrite !calls_app. cbn.
      now rewrite !app_nil_r. }
    destruct (IsTunnelOpen t'); cbn -[calls];
      (eexists; split; [reflexivity|]); cbn -[calls]; rewrite !calls_app; cbn;
      now rewrite !app_nil_r.
Qed.

Lemma poll_schedules_calls resp w w' :
  poll_schedules resp w = Done tt w' ->
  calls (trace w') = calls (trace w) ++ [CallSchedule (Schedules resp)].
Proof.
  unfold poll_schedules, bind, scheduleManager_Schedule.
  destruct (DoSchedule _ _) as [[e|] m']; cbn; intros [= <-]; cbn -[calls];
    rewrite !calls_app; cbn; now rewrite ?app_nil_r.
Qed.

Lemma poll_logs_calls resp w w' :
  poll_logs resp w = Done tt w' ->
  calls (trace w') =
  calls (trace w) ++ [CallHandleReceivedLogsRequests (logsToCollect (Schedules resp))].
Proof.
  unfold poll_logs, logsManager_HandleReceivedLogsRequests. intros [= <-]. cbn -[calls].
  now rewrite !calls_app.
Qed.

Lemma poll_cadence_calls resp w w' :
  poll_cadence resp w = Done tt w' ->
  calls (trace w') =
  calls (trace w) ++ (if checkin_changes resp (service w)
                      then [CallSetTimeout (new_timeout resp)] else []).
Proof.
  rewrite poll_cadence_run. intros [= <-].
  destruct (checkin_changes resp (service w)); cbn -[calls].
  - rewrite !calls_app. cbn. now rewrite app_nil_r.
  - now rewrite app_nil_r.
Qed.

Lemma poll_stacks_call resp w r w' :
  poll_stacks resp w = Done r w' ->
  calls (trace w') =
  calls (trace w) ++ match Stacks resp with
                     | Some stacks => [CallUpdateStacksStatus (stacks_map stacks)]
                     | None => []
                     end.
Proof.
  unfold poll_stacks. destruct (Stacks resp) as [stacks|].
  - unfold bind, edgeStackManager_UpdateStacksStatus.
    destruct (UpdateStacksStatus _ _) as [[e|] m']; cbn; intros [= <- <-]; cbn -[calls];
      rewrite !calls_app; cbn; now rewrite ?app_nil_r.
  - intros [= <- <-]. now rewrite app_nil_r.
Qed.

(** X7: the calls an iteration makes to its collaborators, in order: the
    fetch; then the one tunnel call, if any; then, unless the fetch or the
    creation of a required tunnel failed, [Schedule], then
    [HandleReceivedLogsRequests], then [SetTimeout] if the cadence changes,
    then [UpdateStacksStatus] if the response carries a stack list.  Nothing
    else is called, and no call is made after a step that ends the
    iteration. *)
Theorem poll_call_order w :
  exists r w',
    poll w = Done r w'
    /\ calls (trace w') = calls (trace w) ++ poll_calls w.
Proof.
  unfold poll_calls.
  destruct (GetEnvironmentStatus (portainerClient (service w))) as [[resp|e] c'] eqn:Hfetch;
    cbn [fst].
  2: { eexists _, _. split; [apply (poll_fetch_error _ _ _ Hfetch)|].
       cbn -[calls]. now rewrite calls_app. }
  destruct (poll_stages _ _ _ Hfetch) as (w1 & E1 & Hrest).
  destruct (poll_tunnel_calls resp (fetched c' w)) as (w1' & E1' & H1).
  change (service (fetched c' w)) with (set_portainerClient c' (service w)) in E1', H1.
  change (tunnel_error resp (set_portainerClient c' (service w)))
    with (tunnel_error resp (service w)) in E1'.
  change (tunnel_calls resp (set_portainerClient c' (service w)))
    with (tunnel_calls resp (service w)) in H1.
  rewrite E1 in E1'. injection E1' as <-.
  assert (H0 : calls (trace (fetched c' w)) = calls (trace w) ++ [CallGetEnvironmentStatus]).
  { cbn -[calls]. rewrite !calls_app. cbn. now rewrite app_nil_r. }
  rewrite H0 in H1.
  pose proof (respects_done _ _ _ _ _ (poll_tunnel_cadence resp) E1) as C1.
  destruct (tunnel_error resp (service w)) as [e|].
  { exists (Some e), w1. split; [assumption|].
    rewrite H1, <- app_assoc, app_nil_r. reflexivity. }
  destruct Hrest as (w2 & w3 & w4 & r & w5 & E2 & E3 & E4 & E5 & E).
  exists r, w5. split; [assumption|].
  pose proof (respects_done _ _ _ _ _ (poll_schedules_cadence resp) E2) as C2.
  pose proof (respects_done _ _ _ _ _ (poll_logs_cadence resp) E3) as C3.
  assert (C30 : cadence_view w3 = cadence_view w).
  { unfold same in *. rewrite C3, C2, C1. unfold cadence_view, SetTimeout_calls. cbn.
    rewrite !omap_app. cbn. now rewrite !app_nil_r. }
  rewrite (poll_stacks_call _ _ _ _ E5), (poll_cadence_calls _ _ _ E4),
    (poll_logs_calls _ _ _ E3), (poll_schedules_calls _ _ _ E2), H1.
  rewrite (checkin_changes_cadence _ _ _ C30).
  rewrite <- !app_assoc. reflexivity.
Qed.

(** *** The activity loop, in every state *)

Lemma activityMonitoringLoop_tick_rest :
  respects (same (fun w => (goroutines w, clock w, pollIntervalInSeconds (service w))))
           activityMonitoringLoop_tick.
Proof. unfold activityMonitoringLoop_tick. frame_with view_leaf. Qed.

Lemma activityMonitoringLoop_tick_run w :
  exists w',
    activityMonitoringLoop_tick w = Done tt w'
    /\ lastActivity (service w') = lastActivity (service w)
    /\ refreshSignal (service w') = refreshSignal (service w)
    /\ pollIntervalInSeconds (service w') = pollIntervalInSeconds (service w)
    /\ goroutines w' = goroutines w
    /\ closed w' = closed w
    /\ next_chan w' = next_chan w
    /\ clock w' = clock w
    /\ CreateTunnel_calls (trace w') = CreateTunnel_calls (trace w)
    /\ ((CloseTunnel_calls (trace w') = CloseTunnel_calls (trace w)
         /\ tunnelClient (service w') = tunnelClient (service w))
        \/ exists t,
             tunnelClient (service w) = Some t
             /\ IsTunnelOpen t = true
             /\ IsZero (lastActivity (service w)) = false
             /\ PrimFloat.ltb (Seconds (inactivityTimeout (service w)))
                              (Seconds (Sub (clock w) (lastActivity (service w)))) = true
             /\ CloseTunnel_calls (trace w') = CloseTunnel_calls (trace w) ++ [tt]
             /\ tunnelClient (service w') = Some (CloseTunnel t).2).
Proof.
  destruct (IsZero (lastActivity (service w))) eqn:Hz.
  { rewrite (activityMonitoringLoop_tick_zero _ Hz). exists w. tauto. }
  destruct (tunnelClient (service w)) as [t|] eqn:Ht.
  - destruct (IsTunnelOpen t
              && PrimFloat.ltb (Seconds (inactivityTimeout (service w)))
                   (Seconds (Sub (clock w) (lastActivity (service w))))) eqn:Hc.
    + apply andb_true_iff in Hc as [Ho Hl].
      destruct (activityMonitoringLoop_tick_close _ _ Ht Hz Ho Hl)
        as (w' & E & Hcl & Hcr & Htc & Hla).
      exists w'. split; [assumption|].
      pose proof (respects_done _ _ _ _ _ activityMonitoringLoop_tick_quiet E)
        as (Hr & Hcd & Hn & k & Hg).
      pose proof (respects_done _ _ _ _ _ activityMonitoringLoop_tick_rest E) as Hk.
      unfold same in Hk. injection Hk as Hg' Hck Hp.
      repeat (split; [assumption|]). right. exists t. tauto.
    + rewrite (activityMonitoringLoop_tick_idle _ _ Ht Hz Hc).
      eexists. split; [reflexivity|]. cbn.
      unfold CreateTunnel_calls, CloseTunnel_calls. rewrite !omap_app. cbn.
      rewrite !app_nil_r. repeat (split; [reflexivity|]). left. now split.
  - unfold activityMonitoringLoop_tick, bind, getService, timeSince, logPrintf,
      andM, tunnelClient_not_nil, ret. rewrite Hz. cbn. rewrite Ht. cbn.
    eexists. split; [reflexivity|]. cbn.
    unfold CreateTunnel_calls, CloseTunnel_calls. rewrite !omap_app. cbn.
    rewrite !app_nil_r. repeat (split; [reflexivity|]). left. now split.
Qed.

(** X8: a tick of the activity loop never panics, with or without a tunnel
    client; it leaves [lastActivity], the cadence, the service's channel, the
    goroutines and the clock as they were and never calls [CreateTunnel]; it
    calls [CloseTunnel], once, only when there is a tunnel client that reports
    the tunnel open, [lastActivity] is set and the inactivity timeout is
    exceeded.  With the tunnel closed no close is attempted, however long the
    inactivity has lasted.  The loop is parked again after the tick. *)
Theorem activity_tick_footprint w :
  exists w',
    activityMonitoringLoop_tick w = Done tt w'
    /\ lastActivity (service w') = lastActivity (service w)
    /\ refreshSignal (service w') = refreshSignal (service w)
    /\ pollIntervalInSeconds (service w') = pollIntervalInSeconds (service w)
    /\ goroutines w' = goroutines w
    /\ clock w' = clock w
    /\ CreateTunnel_calls (trace w') = CreateTunnel_calls (trace w)
    /\ ((CloseTunnel_calls (trace w') = CloseTunnel_calls (trace w)
         /\ tunnelClient (service w') = tunnelClient (service w))
        \/ exists t,
             tunnelClient (service w) = Some t
             /\ IsTunnelOpen t = true
             /\ IsZero (lastActivity (service w)) = false
             /\ PrimFloat.ltb (Seconds (inactivityTimeout (service w)))
                              (Seconds (Sub (clock w) (lastActivity (service w)))) = true
             /\ CloseTunnel_calls (trace w') = CloseTunnel_calls (trace w) ++ [tt]
             /\ tunnelClient (service w') = Some (CloseTunnel t).2)
    /\ (forall t, tunnelClient (service w) = Some t -> IsTunnelOpen t = false ->
                  CloseTunnel_calls (trace w') = CloseTunnel_calls (trace w))
    /\ (forall i tk quit,
          goroutines w !! i = Some (ActivityMonitoringLoop tk quit) ->
          perform (Tick i) w = Some (Done tt w')
          /\ goroutines w' !! i = Some (ActivityMonitoringLoop tk quit)).
Proof.
  destruct (activityMonitoringLoop_tick_run w)
    as (w' & E & Hla & Hr & Hp & Hg & _ & _ & Hck & Hcr & Hcl).
  exists w'. repeat (split; [assumption|]). split.
  - intros t Ht Ho. destruct Hcl as [[Hsame _]|(t' & Ht' & Ho' & _)]; [assumption|].
    congruence.
  - intros i tk quit Hi. cbn [perform]. rewrite Hi, E. split; [reflexivity|].
    now rewrite Hg.
Qed.

(** *** The life cycle in every state: what returns and what panics *)

Lemma startStatusPollLoop_panics w :
  ticker_period (service w) <= 0 ->
  startStatusPollLoop w =
  Panicked ticker_panic (emit (Log DEBUG "starting Portainer short-polling client") w).
Proof.
  intros Hp. unfold startStatusPollLoop, bind, getService, logPrintf, timeNewTicker.
  cbn. fold (ticker_period (service w)).
  destruct (Z.leb_spec (ticker_period (service w)) 0); [reflexivity|lia].
Qed.


Lemma restartStatusPollLoop_run w :
  (forall c, refreshSignal (service w) = Some c -> c ∉ closed w) ->
  0 < ticker_period (service w) ->
  restartStatusPollLoop w = Done tt (restarted w).
Proof.
  intros Hc Hp. unfold restartStatusPollLoop, restarted.
  destruct (refreshSignal (service w)) as [c|] eqn:Hs.
  - rewrite (bind_Done _ _ _ _ _ (stop_run w c Hs (Hc c eq_refl))).
    unfold bind at 1, makeChan. unfold bind at 1, modifyService.
    unfold bind at 1. rewrite startStatusPollLoop_run by exact Hp. reflexivity.
  - rewrite (bind_Done _ _ _ _ _ (stop_stopped w Hs)).
    unfold bind at 1, makeChan. unfold bind at 1, modifyService.
    unfold bind at 1. rewrite startStatusPollLoop_run by exact Hp. reflexivity.
Qed.


Lemma chan_inv_boot s now : refreshSignal s = None -> chan_inv (boot s now).
Proof.
  intros Hs. unfold chan_inv. cbn. rewrite Hs.
  repeat split; intros c; try discriminate; set_solver.
Qed.

Lemma quiet_chan_inv w w' : quiet w w' -> chan_inv w -> chan_inv w'.
Proof.
  intros (Hr & Hc & Hn & _). unfold chan_inv. now rewrite Hr, Hc, Hn.
Qed.

Lemma chan_inv_fresh w : chan_inv w -> next_chan w ∉ closed w.
Proof. intros (_ & _ & H) Hin. apply H in Hin. lia. Qed.

Lemma perform_chan_inv a w w' :
  chan_inv w -> perform a w = Some (Done tt w') -> chan_inv w'.
Proof.
  intros Hinv H. destruct a as [| | |i|i|i|t]; cbn [perform] in H.
  - injection H as H. apply bind_ret_inv in H as [r H].
    apply start_inv in H as [[_ ->]|(Hs & Hc & Hs' & Hn & _)]; [assumption|].
    pose proof (chan_inv_fresh _ Hinv) as Hf.
    destruct Hinv as (I1 & I2 & I3). unfold chan_inv. rewrite Hc, Hs'.
    repeat split; intros c.
    + now intros [= <-].
    + intros [= <-]. assumption.
    + intros Hin. apply I3 in Hin. lia.
  - injection H as H. apply bind_ret_inv in H as [r H].
    apply stop_inv in H as (_ & Hn & Hs & Hc).
    destruct Hinv as (I1 & I2 & I3). unfold chan_inv. rewrite Hn, Hs, Hc.
    repeat split; intros c; try discriminate.
    destruct (refreshSignal (service w)) as [c0|]; [|apply I3].
    intros [->%elem_of_singleton|Hin]%elem_of_union; [now apply I2|now apply I3].
  - injection H as H.
    exact (quiet_chan_inv _ _ (respects_done _ _ _ _ _ resetActivityTimer_quiet H) Hinv).
  - destruct (goroutines w !! i) as [[tk signal|tk quit| |]|] eqn:Hi; try discriminate.
    + injection H as H. unfold bind at 1 in H.
      destruct (statusPollLoop_tick w) as [[] w1|] eqn:E; [|discriminate].
      unfold bind, getService, setGoroutine in H. injection H as <-.
      exact (quiet_chan_inv _ _ (respects_done _ _ _ _ _ statusPollLoop_tick_quiet E) Hinv).
    + injection H as H.
      exact (quiet_chan_inv _ _
               (respects_done _ _ _ _ _ activityMonitoringLoop_tick_quiet H) Hinv).
  - destruct (goroutines w !! i) as [[tk [c|]|tk quit| |]|] eqn:Hi; try discriminate.
    + destruct (decide (c ∈ closed w)); [|discriminate].
      injection H as <-. exact Hinv.
    + destruct (decide (quit ∈ closed w)); [|discriminate].
      injection H as <-. exact Hinv.
  - destruct (goroutines w !! i) as [[tk signal|tk quit| |]|] eqn:Hi; try discriminate.
    injection H as H. apply bind_setGoroutine_inv in H as ([] & w1 & E & ->).
    apply restartStatusPollLoop_inv in E as (Hs & Hn & Hc & _).
    pose proof (chan_inv_fresh _ Hinv) as Hf.
    destruct Hinv as (I1 & I2 & I3). unfold chan_inv. cbn. rewrite Hs, Hn, Hc.
    repeat split; intros c.
    + intros [= <-]. destruct (refreshSignal (service w)) as [c0|]; [|assumption].
      intros [Heq%elem_of_singleton|Hin]%elem_of_union; [|contradiction].
      specialize (I2 _ eq_refl). lia.
    + intros [= <-]. lia.
    + destruct (refreshSignal (service w)) as [c0|].
      * intros [Heq%elem_of_singleton|Hin]%elem_of_union.
        -- specialize (I2 _ eq_refl). lia.
        -- apply I3 in Hin. lia.
      * intros Hin. apply I3 in Hin. lia.
  - injection H as <-. exact Hinv.
Qed.


Lemma statusPollLoop_tick_total : total statusPollLoop_tick.
Proof.
  intros w. unfold statusPollLoop_tick.
  destruct (poll_result_run w) as (w' & E). rewrite (bind_Done _ _ _ _ _ E).
  destruct (poll_result w); eexists _, _; reflexivity.
Qed.



(** X10: a restart of the poll loop on a service whose channel, if any, is
    not closed, and whose cadence gives a positive ticker period: the old
    channel is closed, the service gets a channel that was never used, and
    exactly one poll loop is launched on it, with the period of the current
    cadence.  This also happens on a stopped service: a restart that runs
    after [stop] starts the service again, and without an activity loop. *)
Theorem restart_launches_one_loop w :
  (forall c, refreshSignal (service w) = Some c -> c ∉ closed w) ->
  0 < ticker_period (service w) ->
  exists w',
    restartStatusPollLoop w = Done tt w'
    /\ refreshSignal (service w') = Some (next_chan w)
    /\ next_chan w' = S (next_chan w)
    /\ closed w' = match refreshSignal (service w) with
                   | Some c => {[c]} ∪ closed w
                   | None => closed w
                   end
    /\ goroutines w' =
       goroutines w ++ [StatusPollLoop (ticker_period (service w)) (Some (next_chan w))]
    /\ trace w' = trace w ++ [Log DEBUG "starting Portainer short-polling client"]
    /\ tunnelClient (service w') = tunnelClient (service w)
    /\ lastActivity (service w') = lastActivity (service w)
    /\ pollIntervalInSeconds (service w') = pollIntervalInSeconds (service w)
    /\ start w' = Done None w'.
Proof.
  intros Hc Hp. exists (restarted w).
  split; [now apply restartStatusPollLoop_run|].
  repeat (split; [reflexivity|]). now apply start_started.
Qed.

(** *** A service without the tunnel capability *)

Lemma start_exact w :
  refreshSignal (service w) = None ->
  0 < ticker_period (service w) ->
  start w = Done None (started w).
Proof.
  intros Hs Hp. unfold start, bind at 1, getService. rewrite Hs.
  unfold bind at 1, makeChan. unfold bind at 1, modifyService.
  unfold bind at 1. rewrite startStatusPollLoop_run by exact Hp.
  unfold bind at 1. rewrite startActivityMonitoringLoop_run. cbn.
  unfold started, launched_by_start, ticker_period.
  change (tunnelClient_not_nil (set_refreshSignal (Some (next_chan w)) (service w)))
    with (tunnelClient_not_nil (service w)).
  destruct (tunnelClient_not_nil (service w));
    unfold ret, set_goroutines, emit, set_next_chan, with_service; cbn;
    rewrite <- ?app_assoc; reflexivity.
Qed.

Lemma start_cases w r w' :
  start w = Done r w' ->
  (refreshSignal (service w) <> None /\ w' = w)
  \/ (refreshSignal (service w) = None /\ w' = started w).
Proof.
  intros H. destruct (refreshSignal (service w)) as [c|] eqn:Hs.
  - left. rewrite start_started in H by congruence. now inversion H.
  - right. split; [reflexivity|].
    destruct (Z.ltb_spec 0 (ticker_period (service w))) as [Hp|Hp].
    + rewrite (start_exact w Hs Hp) in H. now inversion H.
    + exfalso. destruct (start w) as [r1 w1|msg w1] eqn:E; [|discriminate].
      revert E. unfold start, bind at 1, getService. rewrite Hs.
      unfold bind at 1, makeChan. unfold bind at 1, modifyService. unfold bind at 1.
      rewrite startStatusPollLoop_panics by exact Hp. discriminate.
Qed.

Lemma stop_tunnel_calls : respects (same tunnel_calls_view) stop.
Proof. unfold stop. frame_with view_leaf. Qed.

Lemma restartStatusPollLoop_tunnel_calls :
  respects (same tunnel_calls_view) restartStatusPollLoop.
Proof.
  unfold restartStatusPollLoop, stop, startStatusPollLoop. frame_with view_leaf.
Qed.

Lemma poll_without_tunnel w :
  tunnelClient (service w) = None ->
  exists r w', poll w = Done r w' /\ tunnel_calls_view w' = tunnel_calls_view w.
Proof.
  intros Ht.
  destruct (GetEnvironmentStatus (portainerClient (service w))) as [[resp|e] c'] eqn:Hfetch.
  - destruct (poll_tunnel_view_run _ _ _ Hfetch) as (w1 & r & w' & E1 & E & Hv).
    rewrite poll_tunnel_nothing in E1.
    + injection E1 as _ <-. rewrite fetched_tunnel_calls in Hv. eauto.
    + unfold closes_tunnel. cbn. now rewrite Ht.
    + unfold opens_tunnel. cbn. now rewrite Ht.
  - rewrite (poll_fetch_error _ _ _ Hfetch). eexists _, _. split; [reflexivity|].
    unfold tunnel_calls_view, CreateTunnel_calls, CloseTunnel_calls. cbn.
    rewrite !omap_app. cbn. now rewrite !app_nil_r.
Qed.

Lemma emit_log_tunnel_calls level message w :
  tunnel_calls_view (emit (Log level message) w) = tunnel_calls_view w.
Proof.
  unfold tunnel_calls_view, CreateTunnel_calls, CloseTunnel_calls. cbn.
  rewrite !omap_app. cbn. now rewrite !app_nil_r.
Qed.

Lemma Forall_replicate_restart k :
  Forall (fun g => is_activity_loop g = false) (replicate k RestartStatusPollLoop).
Proof. induction k; cbn; constructor; auto. Qed.

Lemma perform_without_tunnel a w w' :
  without_tunnel w -> perform a w = Some (Done tt w') -> without_tunnel w'.
Proof.
  intros [Hv Hg] H.
  assert (Ht : tunnelClient (service w) = None).
  { apply tunnel_calls_view_inv in Hv. tauto. }
  destruct a as [| | |i|i|i|t]; cbn [perform] in H.
  - injection H as H. apply bind_ret_inv in H as [r H].
    apply start_cases in H as [[_ ->]|[_ ->]]; [now split|].
    split.
    + rewrite <- Hv. unfold started, tunnel_calls_view, CreateTunnel_calls,
        CloseTunnel_calls. cbn. rewrite !omap_app.
      unfold tunnelClient_not_nil. rewrite Ht. cbn. now rewrite !app_nil_r.
    + cbn. apply Forall_app. split; [assumption|].
      unfold launched_by_start, tunnelClient_not_nil. rewrite Ht. now repeat constructor.
  - injection H as H. apply bind_ret_inv in H as [r H].
    pose proof (respects_done _ _ _ _ _ stop_tunnel_calls H) as Hv'.
    apply stop_inv in H as (Hg' & _). split; [congruence|now rewrite Hg'].
  - rewrite resetActivityTimer_run, Ht in H. injection H as <-. now split.
  - destruct (goroutines w !! i) as [[tk signal|tk quit| |]|] eqn:Hi; try discriminate.
    + injection H as H. unfold bind at 1 in H.
      destruct (statusPollLoop_tick w) as [[] w1|] eqn:E; [|discriminate].
      unfold bind, getService, setGoroutine in H. injection H as <-.
      pose proof (respects_done _ _ _ _ _ statusPollLoop_tick_quiet E)
        as (_ & _ & _ & k & Hg1).
      split.
      * cbn. change (tunnel_calls_view w1 = ([], [], None, zeroTime)).
        rewrite <- Hv. revert E. unfold statusPollLoop_tick.
        destruct (poll_without_tunnel w Ht) as (r & w2 & E2 & Hv2).
        rewrite (bind_Done _ _ _ _ _ E2).
        destruct r; intros [= <-]; [|assumption].
        now rewrite emit_log_tunnel_calls.
      * cbn. apply Forall_insert; [|reflexivity]. rewrite Hg1.
        apply Forall_app. split; [assumption|apply Forall_replicate_restart].
    + exfalso. rewrite Forall_lookup in Hg. specialize (Hg _ _ Hi). discriminate.
  - destruct (goroutines w !! i) as [[tk [c|]|tk quit| |]|] eqn:Hi; try discriminate.
    + destruct (decide (c ∈ closed w)); [|discriminate].
      injection H as <-. split.
      * cbn. change (tunnel_calls_view (emit (Log DEBUG
                 "shutting down Portainer short-polling client") w) = ([], [], None, zeroTime)).
        now rewrite emit_log_tunnel_calls.
      * cbn. now apply Forall_insert.
    + exfalso. rewrite Forall_lookup in Hg. specialize (Hg _ _ Hi). discriminate.
  - destruct (goroutines w !! i) as [[tk signal|tk quit| |]|] eqn:Hi; try discriminate.
    injection H as H. apply bind_setGoroutine_inv in H as ([] & w1 & E & ->).
    pose proof (respects_done _ _ _ _ _ restartStatusPollLoop_tunnel_calls E) as Hv'.
    apply restartStatusPollLoop_inv in E as (_ & _ & _ & tk & Hg1).
    split.
    + cbn. change (tunnel_calls_view w1 = ([], [], None, zeroTime)). congruence.
    + cbn. apply Forall_insert; [|reflexivity]. rewrite Hg1.
      apply Forall_app. split; [assumption|now repeat constructor].
  - injection H as <-. now split.
Qed.

Lemma newPollService_inv esm lmg cfg pcl s :
  newPollService esm lmg cfg pcl = Ok s ->
  refreshSignal s = None
  /\ lastActivity s = zeroTime
  /\ tunnelClient s =
     (if TunnelCapability cfg && negb (EdgeAsyncMode cfg) then Some NewClient else None).
Proof.
  unfold newPollService.
  destruct (ParseDuration (PollFrequency cfg)); [|discriminate].
  destruct (ParseDuration (InactivityTimeout cfg)); [|discriminate].
  intros [= <-]. now repeat split.
Qed.

(** X11: a service built by [newPollService] without the tunnel capability,
    or in the asynchronous mode, has no tunnel client and never gets one:
    over every schedule of calls, ticks and goroutine steps it makes no call
    to a tunnel client, [lastActivity] stays the zero time, and no
    activity-monitoring loop is ever started. *)
Theorem no_tunnel_capability esm lmg cfg pcl s now w :
  TunnelCapability cfg && negb (EdgeAsyncMode cfg) = false ->
  newPollService esm lmg cfg pcl = Ok s ->
  reachable any_action (boot s now) w ->
  tunnelClient (service w) = None
  /\ lastActivity (service w) = zeroTime
  /\ CreateTunnel_calls (trace w) = []
  /\ CloseTunnel_calls (trace w) = []
  /\ Forall (fun g => is_activity_loop g = false) (goroutines w).
Proof.
  intros Hcap Hnew Hr. apply newPollService_inv in Hnew as (_ & Hla & Ht).
  rewrite Hcap in Ht.
  assert (H : without_tunnel w).
  { induction Hr as [|w a w' _ IH _ Hp].
    - split; [|constructor]. unfold tunnel_calls_view. cbn. now rewrite Ht, Hla.
    - eapply perform_without_tunnel; eassumption. }
  destruct H as [Hv Hg]. apply tunnel_calls_view_inv in Hv. cbn in Hv. tauto.
Qed.

(** *** What [stop] does to the loops *)





(** *** From a new cadence to the new loop *)

Lemma statusPollLoop_tick_cadence w resp c' :
  GetEnvironmentStatus (portainerClient (service w)) = (Ok resp, c') ->
  tunnel_error resp (service w) = None ->
  checkin_changes resp (service w) = true ->
  exists w1,
    statusPollLoop_tick w = Done tt w1
    /\ pollIntervalInSeconds (service w1) = CheckinInterval resp
    /\ SetTimeout_calls (trace w1) = SetTimeout_calls (trace w) ++ [new_timeout resp]
    /\ goroutines w1 = goroutines w ++ [RestartStatusPollLoop]
    /\ refreshSignal (service w1) = refreshSignal (service w)
    /\ closed w1 = closed w
    /\ next_chan w1 = next_chan w.
Proof.
  intros Hfetch Hnone Hch.
  destruct (poll_cadence_effects _ _ _ Hfetch) as (r & w' & E & Hv).
  rewrite Hch, Hnone in Hv. cbn in Hv.
  apply cadence_view_inv in Hv as (Hp & Hst & Hg). cbn in Hp, Hst, Hg.
  destruct (statusPollLoop_tick_total w) as ([] & w1 & E1). exists w1.
  split; [assumption|].
  pose proof (respects_done _ _ _ _ _ statusPollLoop_tick_quiet E1)
    as (Hr & Hcl & Hn & _).
  revert E1. unfold statusPollLoop_tick. rewrite (bind_Done _ _ _ _ _ E).
  destruct r; intros [= <-]; cbn; unfold SetTimeout_calls in *;
    rewrite ?omap_app; cbn; rewrite ?app_nil_r; auto 10.
Qed.

(** X13: a tick of the poll loop whose response changes the cadence, followed
    by the restart that the iteration spawned: the restart closes the
    service's channel and launches one poll loop on a new channel, and the
    period of its ticker is the timeout that the iteration handed to the
    status client, [time.Duration(checkinInterval) * time.Second]. *)
Theorem cadence_change_reaches_new_loop w i tk signal resp c' :
  goroutines w !! i = Some (StatusPollLoop tk signal) ->
  GetEnvironmentStatus (portainerClient (service w)) = (Ok resp, c') ->
  tunnel_error resp (service w) = None ->
  checkin_changes resp (service w) = true ->
  (forall c, refreshSignal (service w) = Some c -> c ∉ closed w) ->
  0 < new_timeout resp ->
  exists w',
    run [Tick i; Run (length (goroutines w))] w = Some w'
    /\ SetTimeout_calls (trace w') = SetTimeout_calls (trace w) ++ [new_timeout resp]
    /\ pollIntervalInSeconds (service w') = CheckinInterval resp
    /\ refreshSignal (service w') = Some (next_chan w)
    /\ closed w' = match refreshSignal (service w) with
                   | Some c => {[c]} ∪ closed w
                   | None => closed w
                   end
    /\ goroutines w' =
       <[length (goroutines w) := Returned]>
         (<[i := StatusPollLoop tk (refreshSignal (service w))]>
            (goroutines w ++ [RestartStatusPollLoop])
          ++ [StatusPollLoop (new_timeout resp) (Some (next_chan w))]).
Proof.
  intros Hi Hfetch Hnone Hch Hcl Hp.
  destruct (statusPollLoop_tick_cadence _ _ _ Hfetch Hnone Hch)
    as (w1 & E1 & Hpi & Hst & Hg & Hr & Hcd & Hn).
  cbn [run perform]. rewrite Hi. rewrite (bind_Done _ _ _ _ _ E1).
  unfold bind at 1, getService. unfold setGoroutine at 1.
  set (w2 := set_goroutines _ w1).
  assert (Hi2 : goroutines w2 !! length (goroutines w) = Some RestartStatusPollLoop).
  { unfold w2. cbn. rewrite Hg, Hr.
    rewrite list_lookup_insert_ne.
    - rewrite lookup_app_r by lia. now rewrite Nat.sub_diag.
    - apply lookup_lt_Some in Hi. lia. }
  rewrite Hi2.
  assert (Hc2 : forall c, refreshSignal (service w2) = Some c -> c ∉ closed w2).
  { unfold w2. cbn. rewrite Hr, Hcd. exact Hcl. }
  assert (Hp2 : 0 < ticker_period (service w2)).
  { unfold w2, ticker_period. cbn. rewrite Hpi. exact Hp. }
  rewrite (bind_Done _ _ _ _ _ (restartStatusPollLoop_run w2 Hc2 Hp2)).
  eexists. split; [reflexivity|]. unfold w2, ticker_period. cbn.
  unfold SetTimeout_calls in *. rewrite omap_app. cbn. rewrite app_nil_r.
  rewrite Hst, Hn, Hcd, Hr, Hg. repeat split; [assumption|].
  unfold ticker_period. now rewrite Hpi.
Qed.

(** *** The activity loop is never told to quit *)

Lemma activity_lookup_insert (gs : list Goroutine) i j g tk quit :
  is_activity_loop g = false ->
  <[j:=g]> gs !! i = Some (ActivityMonitoringLoop tk quit) ->
  gs !! i = Some (ActivityMonitoringLoop tk quit).
Proof.
  intros Hg H. apply list_lookup_insert_Some in H as [(-> & -> & _)|(_ & H)];
    [discriminate|assumption].
Qed.

Lemma activity_lookup_app (gs extra : list Goroutine) i tk quit :
  Forall (fun g => is_activity_loop g = false) extra ->
  (gs ++ extra) !! i = Some (ActivityMonitoringLoop tk quit) ->
  gs !! i = Some (ActivityMonitoringLoop tk quit).
Proof.
  intros Hx H. apply lookup_app_Some in H as [H|(_ & H)]; [assumption|].
  rewrite Forall_lookup in Hx. specialize (Hx _ _ H). discriminate.
Qed.

Lemma activity_inv_quiet w w' (gs : list Goroutine) :
  quiet w w' ->
  (forall i tk quit,
     gs !! i = Some (ActivityMonitoringLoop tk quit) ->
     goroutines w !! i = Some (ActivityMonitoringLoop tk quit)) ->
  activity_inv w ->
  forall i tk quit,
    gs !! i = Some (ActivityMonitoringLoop tk quit) ->
    (quit ∉ closed w') /\ (quit < next_chan w')%nat
    /\ refreshSignal (service w') <> Some quit.
Proof.
  intros (Hr & Hc & Hn & _) Hgs Hinv i tk quit Hi.
  rewrite Hr, Hc, Hn. eapply Hinv, Hgs, Hi.
Qed.

Lemma perform_activity_inv a w w' :
  chan_inv w -> activity_inv w ->
  perform a w = Some (Done tt w') -> activity_inv w'.
Proof.
  intros Hch Hinv H. pose proof (chan_inv_fresh _ Hch) as Hf.
  destruct Hch as (I1 & I2 & I3).
  destruct a as [| | |i|i|i|t]; cbn [perform] in H.
  - injection H as H. apply bind_ret_inv in H as [r H].
    apply start_cases in H as [[_ ->]|[Hs ->]]; [assumption|].
    intros j tk quit Hj. cbn in Hj |- *.
    apply lookup_app_Some in Hj as [Hj|(_ & Hj)].
    + destruct (Hinv _ _ _ Hj) as (H1 & H2 & H3).
      split; [assumption|]. split.
      * destruct (tunnelClient_not_nil (service w)); lia.
      * intros [= Heq]. lia.
    + unfold launched_by_start in Hj.
      destruct (tunnelClient_not_nil (service w));
        destruct (j - length (goroutines w))%nat as [|[|n]]; try discriminate.
      injection Hj as <- <-. split.
      * intros Hin. apply I3 in Hin. lia.
      * split; [lia|]. intros [= Heq]. lia.
  - injection H as H. apply bind_ret_inv in H as [r H].
    apply stop_inv in H as (Hg & Hn & Hs & Hc).
    intros j tk quit Hj. rewrite Hg in Hj. rewrite Hn, Hs, Hc.
    destruct (Hinv _ _ _ Hj) as (H1 & H2 & H3).
    split; [|split; [assumption|discriminate]].
    destruct (refreshSignal (service w)) as [c|]; [|assumption].
    intros [Heq%elem_of_singleton|Hin]%elem_of_union; [congruence|contradiction].
  - injection H as H.
    pose proof (respects_done _ _ _ _ _ resetActivityTimer_quiet H) as Hq.
    assert (Hg : goroutines w' = goroutines w).
    { rewrite resetActivityTimer_run in H. injection H as <-.
      destruct (tunnelClient (service w)) as [t|]; [destruct (IsTunnelOpen t)|];
        reflexivity. }
    intros j tk quit Hj. eapply (activity_inv_quiet _ _ _ Hq); [|exact Hinv|exact Hj].
    now rewrite Hg.
  - destruct (goroutines w !! i) as [[tk0 signal|tk0 quit0| |]|] eqn:Hi; try discriminate.
    + injection H as H. unfold bind at 1 in H.
      destruct (statusPollLoop_tick w) as [[] w1|] eqn:E; [|discriminate].
      unfold bind, getService, setGoroutine in H. injection H as <-.
      pose proof (respects_done _ _ _ _ _ statusPollLoop_tick_quiet E) as Hq.
      intros j tk quit Hj. cbn in Hj |- *.
      eapply (activity_inv_quiet _ _ _ Hq); [|exact Hinv|exact Hj].
      intros j' tk' quit' Hj'. apply activity_lookup_insert in Hj'; [|reflexivity].
      destruct Hq as (_ & _ & _ & k & Hg). rewrite Hg in Hj'.
      eapply activity_lookup_app; [apply Forall_replicate_restart|exact Hj'].
    + injection H as H.
      destruct (activityMonitoringLoop_tick_run w)
        as (w1 & E & _ & Hr & _ & Hg & Hc & Hn & _).
      rewrite E in H. injection H as <-.
      intros j tk quit Hj. rewrite Hg in Hj. rewrite Hr, Hc, Hn. eauto.
  - destruct (goroutines w !! i) as [[tk0 [c|]|tk0 quit0| |]|] eqn:Hi; try discriminate.
    + destruct (decide (c ∈ closed w)); [|discriminate].
      injection H as <-. intros j tk quit Hj. cbn in Hj |- *.
      apply activity_lookup_insert in Hj; [eauto|reflexivity].
    + destruct (decide (quit0 ∈ closed w)); [|discriminate].
      injection H as <-. intros j tk quit Hj. cbn in Hj |- *.
      apply activity_lookup_insert in Hj; [eauto|reflexivity].
  - destruct (goroutines w !! i) as [[tk0 signal|tk0 quit0| |]|] eqn:Hi; try discriminate.
    injection H as H. apply bind_setGoroutine_inv in H as ([] & w1 & E & ->).
    apply restartStatusPollLoop_inv in E as (Hs & Hn & Hc & tk1 & Hg).
    intros j tk quit Hj. cbn in Hj |- *. rewrite Hs, Hn, Hc.
    apply activity_lookup_insert in Hj; [|reflexivity]. rewrite Hg in Hj.
    apply activity_lookup_app in Hj; [|now repeat constructor].
    destruct (Hinv _ _ _ Hj) as (H1 & H2 & H3).
    split; [|split; [lia|intros [= Heq]; lia]].
    destruct (refreshSignal (service w)) as [c|]; [|assumption].
    intros [Heq%elem_of_singleton|Hin]%elem_of_union; [congruence|contradiction].
  - injection H as <-. exact Hinv.
Qed.

Lemma reachable_activity_inv allowed s now w :
  refreshSignal s = None ->
  reachable allowed (boot s now) w -> chan_inv w /\ activity_inv w.
Proof.
  intros Hs Hr. induction Hr as [|w a w' _ [IH1 IH2] _ Hp].
  - split; [now apply chan_inv_boot|]. intros i tk quit Hi. discriminate.
  - split; [eapply perform_chan_inv|eapply perform_activity_inv]; eassumption.
Qed.

Lemma perform_keeps_activity_loop a w w' i tk quit :
  goroutines w !! i = Some (ActivityMonitoringLoop tk quit) ->
  quit ∉ closed w ->
  perform a w = Some (Done tt w') ->
  goroutines w' !! i = Some (ActivityMonitoringLoop tk quit).
Proof.
  intros Hi Hq H. destruct a as [| | |j|j|j|t]; cbn [perform] in H.
  - injection H as H. apply bind_ret_inv in H as [r H].
    apply start_cases in H as [[_ ->]|[_ ->]]; [assumption|].
    cbn. now apply lookup_app_l_Some.
  - injection H as H. apply bind_ret_inv in H as [r H].
    apply stop_inv in H as (Hg & _). now rewrite Hg.
  - rewrite resetActivityTimer_run in H. injection H as <-.
    destruct (tunnelClient (service w)) as [t|]; [destruct (IsTunnelOpen t)|];
      assumption.
  - destruct (goroutines w !! j) as [[tk0 signal|tk0 quit0| |]|] eqn:Hj; try discriminate.
    + injection H as H. unfold bind at 1 in H.
      destruct (statusPollLoop_tick w) as [[] w1|] eqn:E; [|discriminate].
      unfold bind, getService, setGoroutine in H. injection H as <-.
      pose proof (respects_done _ _ _ _ _ statusPollLoop_tick_quiet E)
        as (_ & _ & _ & k & Hg).
      cbn. rewrite list_lookup_insert_ne by congruence.
      rewrite Hg. now apply lookup_app_l_Some.
    + injection H as H.
      destruct (activityMonitoringLoop_tick_run w) as (w1 & E & _ & _ & _ & Hg & _).
      rewrite E in H. injection H as <-. now rewrite Hg.
  - destruct (goroutines w !! j) as [[tk0 [c|]|tk0 quit0| |]|] eqn:Hj; try discriminate.
    + destruct (decide (c ∈ closed w)); [|discriminate].
      injection H as <-. cbn. now rewrite list_lookup_insert_ne by congruence.
    + destruct (decide (quit0 ∈ closed w)) as [Hin|]; [|discriminate].
      injection H as <-. cbn.
      rewrite list_lookup_insert_ne; [assumption|].
      intros ->. rewrite Hi in Hj. injection Hj as _ ->. contradiction.
  - destruct (goroutines w !! j) as [[tk0 signal|tk0 quit0| |]|] eqn:Hj; try discriminate.
    injection H as H. apply bind_setGoroutine_inv in H as ([] & w1 & E & ->).
    apply restartStatusPollLoop_inv in E as (_ & _ & _ & tk1 & Hg).
    cbn. rewrite list_lookup_insert_ne by congruence.
    rewrite Hg. now apply lookup_app_l_Some.
  - injection H as <-. assumption.
Qed.

(** X14: the channel on which an activity-monitoring loop waits to be told
    to quit is never closed: over every schedule of calls, ticks and goroutine
    steps from a stopped service, an activity loop that [start] launched can
    never take its [quit] channel, and whatever happens next, [stop] included,
    it is still parked where it was.  A [start] that follows a [stop]
    launches another one beside it. *)
Theorem activity_loop_never_quits s now w i tk quit :
  refreshSignal s = None ->
  reachable any_action (boot s now) w ->
  goroutines w !! i = Some (ActivityMonitoringLoop tk quit) ->
  (quit ∉ closed w)
  /\ perform (Receive i) w = None
  /\ (forall a w',
        perform a w = Some (Done tt w') ->
        goroutines w' !! i = Some (ActivityMonitoringLoop tk quit)
        /\ quit ∉ closed w')
  /\ (forall w1 w2,
        stop w = Done None w1 ->
        tunnelClient_not_nil (service w) = true ->
        0 < ticker_period (service w) ->
        start w1 = Done None w2 ->
        goroutines w2 !! i = Some (ActivityMonitoringLoop tk quit)
        /\ exists j, j <> i
             /\ goroutines w2 !! j =
                Some (ActivityMonitoringLoop tunnelActivityCheckInterval
                        (S (next_chan w)))).
Proof.
  intros Hs Hr Hi.
  destruct (reachable_activity_inv _ _ _ _ Hs Hr) as [Hch Hinv].
  destruct (Hinv _ _ _ Hi) as (Hq & _).
  split; [assumption|]. split.
  { cbn [perform]. rewrite Hi. now destruct (decide (quit ∈ closed w)). }
  split.
  - intros a w' Hp.
    pose proof (perform_keeps_activity_loop _ _ _ _ _ _ Hi Hq Hp) as Hi'.
    split; [assumption|].
    pose proof (perform_activity_inv _ _ _ Hch Hinv Hp) as Hinv'.
    now destruct (Hinv' _ _ _ Hi').
  - intros w1 w2 E1 Ht Hp E2.
    assert (Hw1 : goroutines w1 = goroutines w /\ next_chan w1 = next_chan w
                  /\ refreshSignal (service w1) = None
                  /\ tunnelClient_not_nil (service w1) = true
                  /\ 0 < ticker_period (service w1)).
    { destruct (refreshSignal (service w)) as [c|] eqn:Hsw.
      - destruct Hch as (I1 & _).
        rewrite (stop_run w c Hsw (I1 c Hsw)) in E1. injection E1 as <-.
        now repeat split.
      - rewrite (stop_stopped w Hsw) in E1. injection E1 as <-. now repeat split. }
    destruct Hw1 as (Hg & Hn & Hs1 & Ht1 & Hp1).
    rewrite (start_exact w1 Hs1 Hp1) in E2. injection E2 as <-. cbn.
    unfold launched_by_start. rewrite Ht1, Hg, Hn. split.
    + now apply lookup_app_l_Some.
    + exists (S (length (goroutines w))). split.
      * apply lookup_lt_Some in Hi. lia.
      * rewrite lookup_app_r by lia.
        replace (S (length (goroutines w)) - length (goroutines w))%nat with 1%nat by lia.
        reflexivity.
Qed.

End Properties.

(** ** The service on concrete inputs *)

Section Runs.
Import Scripted.

(** The scripted tunnel client keeps the contract: a failed create call
    leaves its state as it was. *)
Lemma scripted_failed_create_leaves_closed : failed_create_leaves_closed.
Proof.
  intros config t e t' Hclosed Hcreate. cbn in *.
  destruct (create_error t); now inversion Hcreate; subst.
Defined.

(** The theorem of C1 at a response whose credentials do not decode. *)
Lemma poll_required_tunnel_failure_witness :
  exists w' calls,
    poll world_bad_credentials = Done (Some "illegal base64 data") w'
    /\ trace w' = trace world_bad_credentials ++ calls
    /\ Forall (fun ev => convergence_call ev = false) calls
    /\ last calls = Some (Log ERROR "Unable to create tunnel")
    /\ goroutines w' = goroutines world_bad_credentials
    /\ pollIntervalInSeconds (service w')
       = pollIntervalInSeconds (service world_bad_credentials)
    /\ scheduleManager (service w') = scheduleManager (service world_bad_credentials)
    /\ logsManager (service w') = logsManager (service world_bad_credentials)
    /\ edgeStackManager (service w') = edgeStackManager (service world_bad_credentials)
    /\ tunnelClient (service w') = Some NewClient
    /\ IsTunnelOpen (NewClient : tunnel_client) = false
    /\ lastActivity (service w') = lastActivity (service world_bad_credentials).
Proof.
  apply (poll_required_tunnel_failure world_bad_credentials bad_credentials
           {| answers := []; timeout := 0 |} NewClient "illegal base64 data" NewClient).
  - exact scripted_failed_create_leaves_closed.
  - reflexivity.
  - reflexivity.
  - reflexivity.
  - reflexivity.
  - apply fails_decoding. reflexivity.
Defined.

(** The claim of C2 as stated fails: the response asks for a cadence of 10
    seconds, positive and unlike the current 5, and yet the iteration, which
    ends at the tunnel, updates nothing, calls no [SetTimeout] and spawns no
    restart. *)
Lemma cadence_change_lost_on_tunnel_failure :
  GetEnvironmentStatus (portainerClient (service world_bad_credentials))
  = (Ok bad_credentials, {| answers := []; timeout := 0 |})
  /\ checkin_changes bad_credentials (service world_bad_credentials) = true
  /\ exists w',
       poll world_bad_credentials = Done (Some "illegal base64 data") w'
       /\ pollIntervalInSeconds (service w') = 5%float
       /\ SetTimeout_calls (trace w') = []
       /\ goroutines w' = [].
Proof.
  split; [reflexivity|]. split; [reflexivity|]. eexists.
  split; [vm_compute; reflexivity|]. repeat split.
Qed.

(** The theorem of C2 at a response that changes the cadence from 5 to 10
    seconds. *)
Lemma poll_cadence_change_witness :
  exists r w',
    poll world_new_cadence = Done r w'
    /\ pollIntervalInSeconds (service w') = 10%float
       /\ SetTimeout_calls (trace w') = [10 * Second]
       /\ goroutines w' = [RestartStatusPollLoop].
Proof.
  exact (poll_cadence_change world_new_cadence idle_new_cadence
           {| answers := []; timeout := 0 |} eq_refl).
Defined.

(** The claim of C5 as stated fails: the stack list is present and empty,
    and the iteration, which ends at the tunnel, makes no call to the
    stack-status updater. *)
Lemma empty_stacks_not_sent_on_tunnel_failure :
  GetEnvironmentStatus (portainerClient (service world_bad_credentials))
  = (Ok bad_credentials, {| answers := []; timeout := 0 |})
  /\ Stacks bad_credentials = Some []
  /\ exists w',
       poll world_bad_credentials = Done (Some "illegal base64 data") w'
       /\ UpdateStacksStatus_calls (trace w') = [].
Proof.
  split; [reflexivity|]. split; [reflexivity|]. eexists.
  split; [vm_compute; reflexivity|]. reflexivity.
Qed.

(** The theorem of C5 at a response with an empty stack list. *)
Lemma poll_stack_update_witness :
  exists r w',
    poll world_new_cadence = Done r w'
    /\ UpdateStacksStatus_calls (trace w') = [∅].
Proof.
  exact (proj1 (poll_stack_update world_new_cadence idle_new_cadence
                  {| answers := []; timeout := 0 |} eq_refl)).
Defined.

(** The theorem of C10 at the list (1,1), (2,5), (1,7). *)
Lemma duplicate_stack_id_keeps_later_witness :
  (exists r w',
     poll world_repeated_stack = Done r w'
     /\ UpdateStacksStatus_calls (trace w')
        = [stacks_map [stack_1_1; stack_2_5; stack_1_7]])
  /\ stacks_map [stack_1_1; stack_2_5; stack_1_7] !! 1 = Some 7
  /\ length (filter (fun kv => kv.1 = 1)
               (map_to_list (stacks_map [stack_1_1; stack_2_5; stack_1_7]))) = 1%nat
  /\ (size (stacks_map [stack_1_1; stack_2_5; stack_1_7]) < 3)%nat.
Proof.
  apply (duplicate_stack_id_keeps_later world_repeated_stack repeated_stack
           {| answers := []; timeout := 0 |} [] stack_1_1 [stack_2_5] stack_1_7 []).
  - reflexivity.
  - reflexivity.
  - reflexivity.
  - apply not_elem_of_nil.
Defined.

(** The theorem of C9 at a started service that cannot reach the control
    plane. *)
Lemma poll_fetch_failure_witness :
  poll world_unreachable
  = Done (Some "connection refused")
      (emit CallGetEnvironmentStatus
         (with_service (set_portainerClient {| answers := []; timeout := 0 |})
            world_unreachable))
  /\ exists w',
       perform (Tick 0) world_unreachable = Some (Done tt w')
       /\ goroutines w' !! 0%nat = Some (StatusPollLoop (5 * Second) (Some 0%nat))
       /\ is_Some (perform (Tick 0) w').
Proof.
  pose proof (poll_fetch_failure world_unreachable "connection refused"
                {| answers := []; timeout := 0 |} eq_refl) as [Hpoll Hloop].
  split; [exact Hpoll|].
  destruct (Hloop 0%nat (5 * Second) (Some 0%nat) eq_refl)
    as (w' & Htick & _ & _ & _ & _ & _ & _ & Hthere & Hnext).
  exists w'. auto.
Defined.

(** The claim of C4 as stated fails: [resetActivityTimer], called on its own
    while the tunnel is open, sets [lastActivity] with no tunnel being
    created. *)
Lemma lastActivity_set_without_createTunnel :
  lastActivity (service (world_open "30s" 0 1000)) = 0
  /\ exists w',
       perform Call_resetActivityTimer (world_open "30s" 0 1000) = Some (Done tt w')
       /\ lastActivity (service w') = 1000
       /\ CreateTunnel_calls (trace w') = []
       /\ trace w' = trace (world_open "30s" 0 1000).
Proof.
  split; [reflexivity|]. eexists. split; [vm_compute; reflexivity|].
  repeat split.
Qed.

(** The theorem of C4 at the tick in which a required tunnel is created. *)
Lemma lastActivity_assignment_witness :
  lastActivity (service (after [Tick 0] world_required)) = clock world_required
  /\ (exists t,
        tunnelClient (service (after [Tick 0] world_required)) = Some t
        /\ IsTunnelOpen t = true)
  /\ (Tick 0 = Call_resetActivityTimer
      \/ exists i ticker signal config,
           Tick 0 = Tick i
           /\ goroutines world_required !! i = Some (StatusPollLoop ticker signal)
           /\ CreateTunnel_calls (trace (after [Tick 0] world_required))
              = CreateTunnel_calls (trace world_required) ++ [config]).
Proof.
  apply (lastActivity_assignment (Tick 0) world_required (after [Tick 0] world_required)).
  - vm_compute. reflexivity.
  - vm_compute. discriminate.
Defined.



(** The theorem of C7 at three ticks of a started service's activity loop. *)
Lemma activity_loop_never_opens_witness :
  run (flat_map (fun t => [Advance t; Tick 1]) [2000; 3000; 4000]) world_required
  = Some (set_clock 4000 world_required).
Proof.
  exact (proj2 (proj2 activity_loop_never_opens) world_required 1%nat
           tunnelActivityCheckInterval 1%nat [2000; 3000; 4000] eq_refl eq_refl).
Defined.

(** C8 (the code on schedules where the claim fails): the poll loop reads
    [service.refreshSignal] again each time it parks.  After a change of
    cadence the old loop, taking one more tick once the restart has run,
    parks on the new channel: the 5-second loop polls on beside the
    10-second one.  After a [stop], a loop that takes one more tick parks on
    nil and can no longer be told to exit; the next [start], made while that
    loop is running, launches a second loop beside it (and a second
    activity loop, the first one never being told to quit). *)
Theorem stale_poll_loop_survives :
  is_Some (run [Call_start; Tick 0; Run 2; Tick 0]
             (boot (service_of true "5s" "30s" [Ok idle_new_cadence]) 1000))
  /\ active_poll_loops
       (after [Call_start; Tick 0; Run 2; Tick 0]
          (boot (service_of true "5s" "30s" [Ok idle_new_cadence]) 1000))
     = [StatusPollLoop (5 * Second) (Some 2%nat);
        StatusPollLoop (10 * Second) (Some 2%nat)]
  /\ is_Some (run [Call_start; Call_stop; Tick 0; Call_start]
                (boot (service_of true "5s" "30s" []) 1000))
  /\ active_poll_loops
       (after [Call_start; Call_stop; Tick 0; Call_start]
          (boot (service_of true "5s" "30s" []) 1000))
     = [StatusPollLoop (5 * Second) None; StatusPollLoop (5 * Second) (Some 2%nat)]
  /\ goroutines
       (after [Call_start; Call_stop; Tick 0; Call_start]
          (boot (service_of true "5s" "30s" []) 1000))
     = [StatusPollLoop (5 * Second) None;
        ActivityMonitoringLoop tunnelActivityCheckInterval 1%nat;
        StatusPollLoop (5 * Second) (Some 2%nat);
        ActivityMonitoringLoop tunnelActivityCheckInterval 3%nat].
Proof.
  split; [vm_compute; eauto|]. split; [vm_compute; reflexivity|].
  split; [vm_compute; eauto|]. split; vm_compute; reflexivity.
Qed.


(** C3 (the code at inputs where the claim fails): a cadence of 1.5 seconds
    gives the poll loop a ticker of one second, and a cadence of half a
    second makes [start] panic, the period being zero; a
    [checkinIntervalSeconds] of 1.5 hands the status client a timeout of one
    second.  The seconds are cut to a whole number before they are scaled. *)
Theorem fractional_cadence_truncated :
  pollIntervalInSeconds (service world_second_and_half) = 1.5%float
  /\ ticker_period (service world_second_and_half) = 1 * Second
  /\ goroutines (world_of (start world_second_and_half)) !! 0%nat
     = Some (StatusPollLoop (1 * Second) (Some 0%nat))
  /\ pollIntervalInSeconds (service world_half_second) = 0.5%float
  /\ ticker_period (service world_half_second) = 0
  /\ (exists w', start world_half_second
                 = Panicked "non-positive interval for NewTicker" w')
  /\ CheckinInterval fractional_checkin = 1.5%float
  /\ SetTimeout_calls (trace (world_of (poll world_fractional_checkin))) = [1 * Second].
Proof.
  repeat split; try (vm_compute; reflexivity).
  eexists. vm_compute. reflexivity.
Qed.
(** The theorem of X3 at a response with three schedules, two of which ask
    for their logs. *)
Lemma poll_schedules_and_logs_witness :
  exists r w',
    poll world_scheduled = Done r w'
    /\ Schedule_calls (trace w') = [[backup; cleanup; report]]
    /\ HandleReceivedLogsRequests_calls (trace w') = [[7; 9]]
    /\ scheduleManager (service w') = [backup; cleanup; report]
    /\ logsManager (service w') = [7; 9].
Proof.
  exact (poll_schedules_and_logs world_scheduled scheduled
           {| answers := []; timeout := 0 |} eq_refl).
Defined.

(** The theorem of X4 at an open tunnel that fails to close: the iteration
    goes on to the schedules all the same. *)
Lemma poll_idle_closes_tunnel_witness :
  exists r w',
    poll world_idle_open = Done r w'
    /\ CloseTunnel_calls (trace w') = [tt]
    /\ CreateTunnel_calls (trace w') = []
    /\ tunnelClient (service w') = Some stuck_open
    /\ lastActivity (service w') = zeroTime
    /\ Schedule_calls (trace w') = [[backup; cleanup; report]]
    /\ r = None.
Proof.
  exact (poll_idle_closes_tunnel world_idle_open scheduled
           {| answers := []; timeout := 0 |} stuck_open eq_refl eq_refl eq_refl eq_refl).
Defined.

(** The theorem of X5 at a required tunnel whose credentials decode and
    decrypt. *)
Lemma poll_required_creates_tunnel_witness :
  exists r w',
    poll world_required = Done r w'
    /\ CreateTunnel_calls (trace w') =
       [{| ServerAddr := "portainer:8000"; ServerFingerpint := "fp";
           TunnelCredentials := "abc"; RemotePort := "9000";
           LocalAddr := "127.0.0.1:9001" |}]
    /\ CloseTunnel_calls (trace w') = []
    /\ tunnelClient (service w')
       = Some {| is_open := true; create_error := None; close_error := None |}
    /\ lastActivity (service w') = 1000
    /\ Schedule_calls (trace w') = [[]].
Proof.
  exact (poll_required_creates_tunnel world_required
           (response "REQUIRED" "abc" 0%float None)
           {| answers := []; timeout := 0 |} NewClient
           (String.list_byte_of_string "abc") (String.list_byte_of_string "abc")
           {| is_open := true; create_error := None; close_error := None |}
           eq_refl eq_refl eq_refl eq_refl eq_refl eq_refl eq_refl).
Defined.

(** The theorem of X6 at a status IDLE while the tunnel is closed. *)
Lemma poll_leaves_tunnel_alone_witness :
  exists r w',
    poll world_new_cadence = Done r w'
    /\ CreateTunnel_calls (trace w') = []
    /\ CloseTunnel_calls (trace w') = []
    /\ tunnelClient (service w') = Some NewClient
    /\ lastActivity (service w') = zeroTime.
Proof.
  exact (proj1 (poll_leaves_tunnel_alone world_new_cadence idle_new_cadence
                  {| answers := []; timeout := 0 |} eq_refl eq_refl eq_refl)).
Defined.


(** The theorem of X10 at a service that was started and stopped: the
    restart starts it again. *)
Lemma restart_launches_one_loop_witness :
  exists w',
    restartStatusPollLoop (after [Call_stop] world_unreachable) = Done tt w'
    /\ refreshSignal (service w') = Some 2%nat
    /\ goroutines w' =
       [StatusPollLoop (5 * Second) (Some 0%nat);
        ActivityMonitoringLoop tunnelActivityCheckInterval 1%nat;
        StatusPollLoop (5 * Second) (Some 2%nat)]
    /\ start w' = Done None w'.
Proof.
  destruct (restart_launches_one_loop (after [Call_stop] world_unreachable))
    as (w' & E & Hs & _ & _ & Hg & _ & _ & _ & _ & Hstart).
  - intros c H. discriminate H.
  - reflexivity.
  - exists w'. repeat split; assumption.
Defined.

(** Every run is a schedule. *)
Lemma run_reachable actions w0 w :
  run actions w0 = Some w -> reachable any_action w0 w.
Proof.
  revert w0 w. induction actions as [|a rest IH] using rev_ind; intros w0 w.
  - intros [= <-]. constructor.
  - intros H.
    assert (Hsplit : forall l w1, run (l ++ [a]) w1 =
                       match run l w1 with
                       | Some w2 => match perform a w2 with
                                    | Some (Done _ w3) => Some w3
                                    | _ => None
                                    end
                       | None => None
                       end).
    { clear. induction l as [|b l IHl]; intros w1; cbn.
      - now destruct (perform a w1) as [[[] w2|]|].
      - destruct (perform b w1) as [[[] w2|]|]; auto. }
    rewrite Hsplit in H. destruct (run rest w0) as [w2|] eqn:E; [|discriminate].
    destruct (perform a w2) as [[[] w3|]|] eqn:Ea; try discriminate.
    injection H as <-. eapply reachable_next; [apply IH, E|exact I|exact Ea].
Qed.

(** The theorem of X11 at a service without the tunnel capability that is
    told a tunnel is required. *)
Lemma no_tunnel_capability_witness :
  tunnelClient (service world_no_tunnel) = None
  /\ lastActivity (service world_no_tunnel) = zeroTime
  /\ CreateTunnel_calls (trace world_no_tunnel) = []
  /\ CloseTunnel_calls (trace world_no_tunnel) = []
  /\ Forall (fun g => is_activity_loop g = false) (goroutines world_no_tunnel).
Proof.
  apply (@no_tunnel_capability portainer tunnel scheduler logs stacks libraries
           ∅ [] (config false "5s" "30s")
           {| answers := [Ok (response "REQUIRED" "abc" 0%float None)]; timeout := 0 |}
           (service_of false "5s" "30s" [Ok (response "REQUIRED" "abc" 0%float None)])
           1000 world_no_tunnel).
  - reflexivity.
  - reflexivity.
  - apply (run_reachable [Call_start; Tick 0; Call_resetActivityTimer]).
    vm_compute. reflexivity.
Defined.


(** The theorem of X13 at a started service whose cadence goes from 5 to 10
    seconds. *)
Lemma cadence_change_reaches_new_loop_witness :
  exists w',
    run [Tick 0; Run 2] world_started_new_cadence = Some w'
    /\ SetTimeout_calls (trace w') = [10 * Second]
    /\ pollIntervalInSeconds (service w') = 10%float
    /\ refreshSignal (service w') = Some 2%nat
    /\ goroutines w' =
       [StatusPollLoop (5 * Second) (Some 0%nat);
        ActivityMonitoringLoop tunnelActivityCheckInterval 1%nat;
        Returned;
        StatusPollLoop (10 * Second) (Some 2%nat)].
Proof.
  destruct (cadence_change_reaches_new_loop world_started_new_cadence 0
              (5 * Second) (Some 0%nat) idle_new_cadence
              {| answers := []; timeout := 0 |})
    as (w' & E & Hst & Hp & Hs & _ & Hg).
  - reflexivity.
  - reflexivity.
  - reflexivity.
  - reflexivity.
  - intros c _. apply not_elem_of_empty.
  - reflexivity.
  - exists w'. repeat (split; [assumption|]). exact Hg.
Defined.

(** The theorem of X14 at the activity loop of a started service. *)
Lemma activity_loop_never_quits_witness :
  (1%nat ∉ closed world_required)
  /\ perform (Receive 1) world_required = None
  /\ (1%nat ∉ closed (after [Call_stop] world_required))
  /\ goroutines (after [Call_stop; Call_start] world_required) !! 3%nat
     = Some (ActivityMonitoringLoop tunnelActivityCheckInterval 3%nat).
Proof.
  destruct (activity_loop_never_quits
              (service_of true "5s" "30s" [Ok (response "REQUIRED" "abc" 0%float None)])
              1000 world_required 1 tunnelActivityCheckInterval 1)
    as (Hq & Hr & Hnext & _).
  - reflexivity.
  - apply (run_reachable [Call_start]). reflexivity.
  - reflexivity.
  - split; [assumption|]. split; [assumption|].
    split; [|reflexivity].
    exact (proj2 (Hnext Call_stop (after [Call_stop] world_required) eq_refl)).
Defined.

End Runs.

End Edge.

(** ** Properties of the delete handlers *)

Module BrowseFacts.
Import Browse.
Local Open Scope Z_scope.

Section Facts.
Context {platform : Platform}.

Lemma remove_and_answer_run path w :
  let out := remove_and_answer path w in
  removals out.2 = removals w ++ [path]
  /\ files out.2 = (RemoveFile path (files w)).2
  /\ match (RemoveFile path (files w)).1 with
     | None => out.1 = None /\ written out.2 = written w ++ [StatusNoContent]
     | Some err =>
         out.1 = Some {| StatusCode := StatusInternalServerError;
                         Message := "Unable to remove file"; Err := err |}
         /\ written out.2 = written w
     end.
Proof.
  unfold remove_and_answer, filesystem_RemoveFile, response_Empty. cbn.
  destruct (RemoveFile path (files w)) as [[err|] fs]; cbn; auto.
Qed.

(** X15: [browseDelete] hands at most one path to [RemoveFile], and only
    after its checks: the [path] parameter must be present; with a volume
    identifier the path removed is the one [BuildPathToFileInsideVolume]
    returned without an error, never the raw parameter; without one the raw
    path is removed only when host management is enabled.  When a check fails
    the handler returns an error other than 500 and leaves the file system
    and the response untouched. *)
Theorem browseDelete_guards (HostManagementEnabled : bool) (r : Request) (w : World) :
  let out := browseDelete HostManagementEnabled r w in
  let query := RetrieveQueryParameter r "path" false in
  let volumeID := (RetrieveQueryParameter r "volumeID" true).1 in
  (out.2 = w
   /\ exists e, out.1 = Some e
        /\ (StatusCode e = StatusBadRequest \/ StatusCode e = StatusServiceUnavailable))
  \/ (exists path,
        removals out.2 = removals w ++ [path]
        /\ files out.2 = (RemoveFile path (files w)).2
        /\ query.2 = None
        /\ if String.eqb volumeID EmptyString
           then HostManagementEnabled = true /\ path = query.1
           else BuildPathToFileInsideVolume volumeID query.1 = (path, None)).
Proof.
  cbv zeta. unfold browseDelete.
  destruct (RetrieveQueryParameter r "path" false) as [path [err|]] eqn:Hq; cbn [fst snd].
  { left. split; [reflexivity|]. eexists. split; [reflexivity|]. now left. }
  destruct (String.eqb (RetrieveQueryParameter r "volumeID" true).1 EmptyString) eqn:Hv;
    cbn [negb].
  - destruct HostManagementEnabled; cbn [negb].
    + right. exists path.
      destruct (remove_and_answer_run path w) as (H1 & H2 & _). auto.
    + left. split; [reflexivity|]. eexists. split; [reflexivity|]. now right.
  - destruct (BuildPathToFileInsideVolume _ path) as [full [err|]] eqn:Hb; cbn [fst snd].
    + left. split; [reflexivity|]. eexists. split; [reflexivity|]. now left.
    + right. exists full.
      destruct (remove_and_answer_run full w) as (H1 & H2 & _). auto.
Qed.

(** X16: both handlers answer by the outcome of the removal: they return
    nil, after writing the status 204 once, exactly when [RemoveFile] was
    called and returned no error; they return the status 500 with the error
    of [RemoveFile] exactly when it was called and failed; in every other
    case nothing was removed and nothing is written. *)
Theorem delete_handlers_answer (HostManagementEnabled : bool) (r : Request) (w : World) :
  answers_by_removal w (browseDelete HostManagementEnabled r w)
  /\ answers_by_removal w (browseDeleteV1 r w).
Proof.
  unfold answers_by_removal. split.
  - unfold browseDelete.
    destruct (RetrieveQueryParameter r "path" false) as [path [err|]]; cbn [fst snd].
    { left. split; [reflexivity|]. eexists. split; [reflexivity|]. discriminate. }
    destruct (String.eqb _ EmptyString); cbn [negb].
    + destruct HostManagementEnabled; cbn [negb].
      * right. exists path. apply remove_and_answer_run.
      * left. split; [reflexivity|]. eexists. split; [reflexivity|]. discriminate.
    + destruct (BuildPathToFileInsideVolume _ path) as [full [err|]]; cbn [fst snd].
      * left. split; [reflexivity|]. eexists. split; [reflexivity|]. discriminate.
      * right. exists full. apply remove_and_answer_run.
  - unfold browseDeleteV1.
    destruct (RetrieveRouteVariableValue r "id") as [vol [err|]]; cbn [fst snd].
    { left. split; [reflexivity|]. eexists. split; [reflexivity|]. discriminate. }
    destruct (BuildPathToFileInsideVolume vol _) as [full [err|]]; cbn [fst snd].
    + left. split; [reflexivity|]. eexists. split; [reflexivity|]. discriminate.
    + right. exists full. apply remove_and_answer_run.
Qed.

(** X17: [browseDeleteV1] never reads the error of the lookup of the [path]
    parameter: whatever that lookup reports, the handler builds the path
    inside the volume from the string the lookup returned and, when that
    succeeds, removes it; the message "Invalid query parameter: path" is
    given only when [BuildPathToFileInsideVolume] fails.  Every path the
    handler removes is one that [BuildPathToFileInsideVolume] returned for the
    volume of the route. *)
Theorem browseDeleteV1_ignores_lookup_error (r : Request) (w : World) volumeID :
  RetrieveRouteVariableValue r "id" = (volumeID, None) ->
  let lookup := RetrieveQueryParameter r "path" false in
  let out := browseDeleteV1 r w in
  match BuildPathToFileInsideVolume volumeID lookup.1 with
  | (fullPath, None) =>
      removals out.2 = removals w ++ [fullPath]
      /\ files out.2 = (RemoveFile fullPath (files w)).2
  | (_, Some err) =>
      out = (Some {| StatusCode := StatusBadRequest;
                     Message := "Invalid query parameter: path"; Err := err |}, w)
  end.
Proof.
  intros Hroute. cbv zeta. unfold browseDeleteV1. rewrite Hroute. cbn [fst snd].
  destruct (BuildPathToFileInsideVolume volumeID _) as [full [err|]]; cbn [fst snd].
  - reflexivity.
  - destruct (remove_and_answer_run full w) as (H1 & H2 & _). auto.
Qed.

End Facts.

Lemma browseDeleteV1_ignores_lookup_error_witness :
  (RetrieveQueryParameter request_without_path "path" false).2
  = Some "Invalid query parameter"%string
  /\ removals (browseDeleteV1 request_without_path volume_data).2 = ["/volumes/data/"]
  /\ files (browseDeleteV1 request_without_path volume_data).2 = ["/volumes/data/a"].
Proof.
  split; [reflexivity|].
  exact (browseDeleteV1_ignores_lookup_error request_without_path volume_data
           "data" eq_refl).
Defined.

End BrowseFacts.
